(** * Adaptive personalization engine

    A shallow embedding of the voice model (routes/generate.js and
    db/database.js), the preference memory (services/userPreferenceService.js
    and the memory engine shipped in the same file) and the language advisor
    (services/geminiService.js), followed by the properties proved about them.

    Conventions.
    - A JavaScript number is a value of a type [num] carrying the operations
      of class [JsNumber].  Two instances are given: IEEE-754 binary64
      (the kernel's primitive floats: what the JavaScript engine computes) and
      exact rationals (the arithmetic the prose of the specification uses).
      Every function of the program is written once, over the class.
    - A JavaScript string that is inspected character by character (captions,
      phrases) is a list of UTF-16 code units; keys, tags and language codes
      are ordinary strings.
    - Asynchronous code is sequential here: every [await] is a call in the
      monad [M], which threads the store, the log of external calls and the
      schedule of failures of the external collaborators. *)

From Stdlib Require Import ZArith Zpower QArith Qround Qabs Qminmax Lqa Floats List Sorted
  String Ascii Bool Lia.
From stdpp Require Import gmap strings list fin_maps.

Set Warnings "-inexact-float".
Close Scope Q_scope.

(* ===================================================================== *)
(** * JavaScript numbers *)
(* ===================================================================== *)

(** The operations of JavaScript numbers the program uses.  [n_lt a b] is
    [a < b], [n_le a b] is [a <= b], [n_max]/[n_min] are [Math.max]/[Math.min],
    [n_round] is [Math.round] and [n_truthy] is the boolean coercion
    (false exactly for [0], [-0] and [NaN]).  One law is asked of an
    arithmetic: it orders the integers 0..5 as they are ordered, which is
    what the store's check of an emoji level relies on. *)
Class JsNumber (num : Type) := {
  n_ofZ : Z -> num;
  n_add : num -> num -> num;
  n_sub : num -> num -> num;
  n_mul : num -> num -> num;
  n_div : num -> num -> num;
  n_abs : num -> num;
  n_max : num -> num -> num;
  n_min : num -> num -> num;
  n_round : num -> num;
  n_lt : num -> num -> bool;
  n_le : num -> num -> bool;
  n_truthy : num -> bool;
  n_le_ofZ : forall a b : Z,
    (0 <= a <= 5)%Z -> (0 <= b <= 5)%Z -> n_le (n_ofZ a) (n_ofZ b) = (a <=? b)%Z
}.

(** [a > b] and [a >= b]. *)
Definition n_gt {num} `{JsNumber num} (a b : num) : bool := n_lt b a.
Definition n_ge {num} `{JsNumber num} (a b : num) : bool := n_le b a.

(** The decimal literal [m / 10^k], e.g. [n_dec 5 1] for [0.5].  Division is
    correctly rounded, so on binary64 this is the double the literal denotes
    (checked below for every literal the program uses). *)
Definition n_dec {num} `{JsNumber num} (m : Z) (k : Z) : num :=
  n_div (n_ofZ m) (n_ofZ (10 ^ k)).

(** ** binary64 *)

(** The double nearest to an integer. *)
Definition f64_ofZ (z : Z) : float := SF2Prim (binary_normalize prec emax z 0 false).

(** [Math.max]: NaN if either argument is NaN, and [+0] above [-0]. *)
Definition f64_max (a b : float) : float :=
  if is_nan a || is_nan b then nan
  else if (a <? b)%float then b
  else if (b <? a)%float then a
  else if get_sign a then b else a.

(** [Math.min]: NaN if either argument is NaN, and [-0] below [+0]. *)
Definition f64_min (a b : float) : float :=
  if is_nan a || is_nan b then nan
  else if (a <? b)%float then a
  else if (b <? a)%float then b
  else if get_sign a then a else b.

(** [Math.round]: the integer nearest to [x], ties towards +infinity, computed
    exactly on the value [±m·2^e]; NaN, the infinities and the integers are
    returned as they are, and a result zero keeps the sign of [x]. *)
Definition f64_round (x : float) : float :=
  match Prim2SF x with
  | S754_finite s m e =>
      if (0 <=? e)%Z then x
      else
        let n := ((cond_Zopp s (Z.pos m) * 2 + 2 ^ (- e)) / 2 ^ (1 - e))%Z in
        if (n =? 0)%Z then (if s then (-0)%float else 0%float) else f64_ofZ n
  | _ => x
  end.

(** The doubles of the integers 0..5 are ordered as the integers. *)
Lemma f64_leb_ofZ (a b : Z) :
  (0 <= a <= 5)%Z -> (0 <= b <= 5)%Z -> (f64_ofZ a <=? f64_ofZ b)%float = (a <=? b)%Z.
Proof.
  intros Ha Hb.
  assert (Ea : (a = 0 \/ a = 1 \/ a = 2 \/ a = 3 \/ a = 4 \/ a = 5)%Z) by lia.
  assert (Eb : (b = 0 \/ b = 1 \/ b = 2 \/ b = 3 \/ b = 4 \/ b = 5)%Z) by lia.
  destruct Ea as [-> | [-> | [-> | [-> | [-> | ->]]]]];
    destruct Eb as [-> | [-> | [-> | [-> | [-> | ->]]]]]; vm_compute; reflexivity.
Qed.

#[export] Instance f64_number : JsNumber float := {
  n_ofZ := f64_ofZ;
  n_add := PrimFloat.add;
  n_sub := PrimFloat.sub;
  n_mul := PrimFloat.mul;
  n_div := PrimFloat.div;
  n_abs := PrimFloat.abs;
  n_max := f64_max;
  n_min := f64_min;
  n_round := f64_round;
  n_lt := PrimFloat.ltb;
  n_le := PrimFloat.leb;
  n_truthy := fun x => negb (is_nan x || is_zero x);
  n_le_ofZ := f64_leb_ofZ
}.

(** ** Exact rationals *)

Definition Q_max (a b : Q) : Q := if Qle_bool a b then b else a.
Definition Q_min (a b : Q) : Q := if Qle_bool a b then a else b.
Definition Q_round (q : Q) : Q := inject_Z (Qfloor (q + (1 # 2))%Q).

(** So are the rationals of all integers. *)
Lemma Q_le_bool_ofZ (a b : Z) :
  (0 <= a <= 5)%Z -> (0 <= b <= 5)%Z -> Qle_bool (inject_Z a) (inject_Z b) = (a <=? b)%Z.
Proof.
  intros _ _. unfold Qle_bool, inject_Z. cbn. now rewrite !Z.mul_1_r.
Qed.

#[export] Instance Q_number : JsNumber Q := {
  n_ofZ := inject_Z;
  n_add := Qplus;
  n_sub := Qminus;
  n_mul := Qmult;
  n_div := Qdiv;
  n_abs := Qabs;
  n_max := Q_max;
  n_min := Q_min;
  n_round := Q_round;
  n_lt := fun a b => negb (Qle_bool b a);
  n_le := Qle_bool;
  n_truthy := fun q => negb (Qeq_bool q 0);
  n_le_ofZ := Q_le_bool_ofZ
}.

(* ===================================================================== *)
(** * JavaScript strings *)
(* ===================================================================== *)

(** A string as its UTF-16 code units. *)
Definition jsstring := list N.

(** The code units of an ASCII literal. *)
Definition js (s : string) : jsstring := map N_of_ascii (list_ascii_of_string s).

(** WhiteSpace and LineTerminator of ECMAScript: what [trim] strips. *)
Definition is_ws (c : N) : bool :=
  ((c =? 9) || (c =? 10) || (c =? 11) || (c =? 12) || (c =? 13) || (c =? 32)
   || (c =? 160) || (c =? 5760) || ((8192 <=? c) && (c <=? 8202))
   || (c =? 8232) || (c =? 8233) || (c =? 8239) || (c =? 8287)
   || (c =? 12288) || (c =? 65279))%N.

Fixpoint trimStart (s : jsstring) : jsstring :=
  match s with
  | c :: s' => if is_ws c then trimStart s' else s
  | [] => []
  end.

Definition trimEnd (s : jsstring) : jsstring := rev (trimStart (rev s)).

(** [String.prototype.trim]. *)
Definition trim (s : jsstring) : jsstring := trimEnd (trimStart s).

(** [String.prototype.toLowerCase] on ASCII text (labels and keys). *)
Definition ascii_lower (c : ascii) : ascii :=
  let n := nat_of_ascii c in
  if (65 <=? n)%nat && (n <=? 90)%nat then ascii_of_nat (n + 32) else c.

Fixpoint toLowerCase (s : string) : string :=
  match s with
  | EmptyString => EmptyString
  | String c s' => String (ascii_lower c) (toLowerCase s')
  end.

(** A string is truthy when it is not empty. *)
Definition str_truthy (s : jsstring) : bool :=
  match s with [] => false | _ => true end.

(** [Array.prototype.slice(0, end)]: a negative [end] counts from the end of
    the array. *)
Definition slice0 {A} (l : list A) (e : Z) : list A :=
  if (e <? 0)%Z then firstn (Z.to_nat (Z.of_nat (length l) + e)) l
  else firstn (Z.to_nat e) l.

(** [Set.prototype.add] on a set kept in insertion order. *)
Definition set_add (set : list jsstring) (x : jsstring) : list jsstring :=
  if decide (x ∈ set) then set else set ++ [x].

(* ===================================================================== *)
(** * Preference memory: merging phrase lists *)
(* ===================================================================== *)

(** userPreferenceService.js, [mergeUniqueLists(existing = [], incoming = [],
    limit = 10)]. *)
Definition mergeUniqueLists (existing incoming : list jsstring) (limit : Z)
  : list jsstring :=
  let set :=
    fold_left
      (fun set item =>
         if str_truthy item && (0 <? length (trim item))%nat
         then set_add set (trim item) else set)
      (existing ++ incoming) [] in
  slice0 set limit.

(** The memory engine's [mergeLists(listA = [], listB = [], limit = 10)]: the
    same body under another name. *)
Definition mergeLists (listA listB : list jsstring) (limit : Z) : list jsstring :=
  let set :=
    fold_left
      (fun set item =>
         if str_truthy item && (0 <? length (trim item))%nat
         then set_add set (trim item) else set)
      (listA ++ listB) [] in
  slice0 set limit.

(* ===================================================================== *)
(** * Voice model: vectors *)
(* ===================================================================== *)

(** The eight dimensions, by the column they are stored in. *)
Inductive Dimension :=
  | formality | humor | enthusiasm | professionalism
  | creativity | emotional_tone | confidence | warmth.

#[export] Instance Dimension_eq_dec : EqDecision Dimension.
Proof. solve_decision. Defined.

Section VoiceVectors.
Context {num : Type} `{JsNumber num}.

(** An object that carries the eight dimensions: a row of [voice_profiles]
    or the result of an analysis. *)
Record VoiceVector := {
  v_formality : num;
  v_humor : num;
  v_enthusiasm : num;
  v_professionalism : num;
  v_creativity : num;
  v_emotional_tone : num;
  v_confidence : num;
  v_warmth : num
}.

(** Property access [v[dimension]]. *)
Definition vget (v : VoiceVector) (d : Dimension) : num :=
  match d with
  | formality => v_formality v
  | humor => v_humor v
  | enthusiasm => v_enthusiasm v
  | professionalism => v_professionalism v
  | creativity => v_creativity v
  | emotional_tone => v_emotional_tone v
  | confidence => v_confidence v
  | warmth => v_warmth v
  end.

(** routes/generate.js, [calculateConsistencyScore]. *)
Definition calculateConsistencyScore (voiceProfile contentAnalysis : VoiceVector) : num :=
  let dimensions :=
    [formality; humor; enthusiasm; professionalism;
     creativity; emotional_tone; confidence; warmth] in
  let totalScore :=
    fold_left
      (fun totalScore dimension =>
         let profileValue := vget voiceProfile dimension in
         let contentValue := vget contentAnalysis dimension in
         let difference := n_abs (n_sub profileValue contentValue) in
         let dimensionScore := n_max (n_ofZ 0) (n_sub (n_ofZ 1) difference) in
         n_add totalScore dimensionScore)
      dimensions (n_ofZ 0) in
  n_div
    (n_round (n_mul (n_div totalScore (n_ofZ (Z.of_nat (length dimensions)))) (n_ofZ 100)))
    (n_ofZ 100).

(** One entry of the array [dimensions] of
    [generateConsistencyRecommendations]. *)
Record DimensionLabel := {
  key : Dimension;
  profileLabel : string;
  contentLabel : string
}.

(** One recommendation pushed by [generateConsistencyRecommendations]:
    [difference] is the rounded percentage. *)
Record Recommendation := {
  dimension : string;
  difference : num;
  suggestion : string
}.

(** routes/generate.js, [generateConsistencyRecommendations]. *)
Definition generateConsistencyRecommendations (voiceProfile contentAnalysis : VoiceVector)
  : list Recommendation :=
  let threshold := n_dec 3 1 in
  let dimensions :=
    [ {| key := formality; profileLabel := "Formality"; contentLabel := "Formal" |};
      {| key := humor; profileLabel := "Humor"; contentLabel := "Humorous" |};
      {| key := enthusiasm; profileLabel := "Enthusiasm"; contentLabel := "Enthusiastic" |};
      {| key := professionalism; profileLabel := "Professionalism";
         contentLabel := "Professional" |};
      {| key := creativity; profileLabel := "Creativity"; contentLabel := "Creative" |};
      {| key := emotional_tone; profileLabel := "Emotional Tone";
         contentLabel := "Emotional" |};
      {| key := confidence; profileLabel := "Confidence"; contentLabel := "Confident" |};
      {| key := warmth; profileLabel := "Warmth"; contentLabel := "Warm" |} ] in
  fold_left
    (fun recommendations d =>
       let profileValue := vget voiceProfile (key d) in
       let contentValue := vget contentAnalysis (key d) in
       let difference := n_abs (n_sub profileValue contentValue) in
       if n_gt difference threshold then
         let direction : string :=
           if n_gt contentValue profileValue then "more" else "less" in
         recommendations ++
           [ {| dimension := profileLabel d;
                difference := n_round (n_mul difference (n_ofZ 100));
                suggestion :=
                  "Consider making the content " +:+ direction +:+ " "
                    +:+ toLowerCase (contentLabel d)
                    +:+ " to better match your brand voice" |} ]
       else recommendations)
    dimensions [].

End VoiceVectors.

Arguments VoiceVector num : clear implicits.
Arguments Recommendation num : clear implicits.

(* ===================================================================== *)
(** * The world: store, external calls, failures *)
(* ===================================================================== *)

(** What an operation returns: a value, or a thrown [Error] (its message). *)
Inductive Outcome (A : Type) :=
  | Ok (a : A)
  | Throw (e : string).
Arguments Ok {A} a.
Arguments Throw {A} e.

(** The calls to the external collaborators: the queries sent to the store
    (one per method of db/database.js and per [query] of the services) and
    the request sent to the generative model. *)
Inductive Call :=
  | GetContentAnalysisHistory (userId limit : nat)
  | GetVoiceFeedbackHistory (userId limit : nat)
  | GetVoiceProfile (userId : nat)
  | UpsertVoiceProfile (userId : nat)
  | StoreVoiceFeedback (userId : nat)
  | RecordTrainingSession (userId : nat)
  | GetSavedPosts (userId : nat) (limit : option nat)
  | SelectUserPreferences (userId : nat)
  | UpsertUserPreferences (userId : nat)
  | InsertCaptionHistory (userId : nat)
  | GenerateContent.

#[export] Instance Call_eq_dec : EqDecision Call.
Proof. solve_decision. Defined.

(** The calls that write to the store. *)
Definition is_write (c : Call) : bool :=
  match c with
  | UpsertVoiceProfile _ | StoreVoiceFeedback _ | RecordTrainingSession _
  | UpsertUserPreferences _ | InsertCaptionHistory _ => true
  | _ => false
  end.

(** A user id as a handler or a service receives it: [None] is
    [undefined]/[null]. *)
Definition uid_truthy (userId : option nat) : bool :=
  match userId with
  | Some (S _) => true
  | _ => false
  end.

(** A string value that may be [undefined]/[null]: truthy when present and
    not empty. *)
Definition text_truthy (s : option string) : bool :=
  match s with
  | Some s => negb (String.eqb s "")
  | None => false
  end.

Definition caption_truthy (s : option jsstring) : bool :=
  match s with
  | Some s => str_truthy s
  | None => false
  end.

Section Engine.
Context {num : Type} `{JsNumber num}.

(** ** JavaScript values and objects *)

(** The values a JSON body or a parsed reply holds; a missing property
    ([undefined]) is a failed lookup. *)
Inductive JsVal :=
  | VNull
  | VBool (b : bool)
  | VNum (n : num)
  | VStr (s : string).

(** Boolean coercion of a property read. *)
Definition truthy (v : option JsVal) : bool :=
  match v with
  | None | Some VNull => false
  | Some (VBool b) => b
  | Some (VNum n) => n_truthy n
  | Some (VStr s) => negb (String.eqb s "")
  end.

(** [v || d]. *)
Definition js_or (v : option JsVal) (d : JsVal) : JsVal :=
  match v with
  | Some x => if truthy v then x else d
  | None => d
  end.

(** ** Rows *)

(** Rows carry the columns the program reads or writes; serial ids and
    timestamps are left out. *)

(** voice_profiles: [user_id] is UNIQUE, so a table is a map from user id. *)
Record VoiceProfileRow := {
  vp_user_id : nat;
  vp_profile_name : string;
  vp_vector : VoiceVector num;
  vp_is_active : bool
}.

(** content_analysis. *)
Record ContentAnalysisRow := {
  ca_user_id : nat;
  ca_content_type : string;
  ca_content_text : jsstring;
  ca_analyzed : VoiceVector num;
  ca_analysis_confidence : num
}.

(** voice_feedback: the id of the content and the expected values are
    optional. *)
Record VoiceFeedbackRow := {
  vf_user_id : nat;
  vf_generated_content_id : option Z;
  vf_content_type : string;
  vf_feedback_type : string;
  vf_feedback_comment : option string;
  vf_expected : Dimension -> option num
}.

(** voice_training_sessions. *)
Record TrainingSessionRow := {
  ts_user_id : nat;
  ts_training_type : string;
  ts_samples_used : nat;
  ts_accuracy_score : num;
  ts_training_duration : nat
}.

(** The structure flags the memory engine detects (a JSONB column). *)
Record CaptionStructure := {
  hasEmojisAtEnd : bool;
  startsWithQuote : bool;
  containsLineBreaks : bool;
  firstSentenceLength : nat
}.

(** user_preferences: every column but the key is nullable. *)
Record PreferencesRow := {
  up_preferred_tone : option string;
  up_emoji_level : option num;
  up_common_phrases : option (list jsstring);
  up_disliked_phrases : option (list jsstring);
  up_caption_length_preference : option string;
  up_language_preference : option string;
  up_caption_structure : option CaptionStructure
}.

(** saved_posts, as far as the language advisor reads it. *)
Record SavedPost := {
  sp_user_id : nat;
  sp_caption : option jsstring;
  sp_language : option string
}.

(** caption_history. *)
Record CaptionHistoryRow := {
  ch_user_id : nat;
  ch_generated_caption : jsstring;
  ch_final_caption : jsstring;
  ch_feedback_score : option nat
}.

(** The store: the append-only tables keep their newest row first. *)
Record Store := {
  voice_profiles : gmap nat VoiceProfileRow;
  content_analysis : list ContentAnalysisRow;
  voice_feedback : list VoiceFeedbackRow;
  voice_training_sessions : list TrainingSessionRow;
  user_preferences : gmap nat PreferencesRow;
  saved_posts : list SavedPost;
  caption_history : list CaptionHistoryRow
}.

(** The world an operation runs in.
    - [calls]: the external calls made so far, oldest first, each with the
      error it failed with, if it failed;
    - [faults]: what happens to the coming external calls: [Some e] makes the
      next call fail with [e], [None] (or an exhausted list) lets it through;
    - [console]: the lines written by [console.log]/[warn]/[error];
    - [random30]: the coming values of [Math.floor(Math.random() * 30)]. *)
Record World := {
  store : Store;
  calls : list (Call * option string);
  faults : list (option string);
  console : list string;
  random30 : list nat
}.

(** ** The monad of operations *)

(** An operation runs in a world and ends with a value or a thrown error. *)
Definition M (A : Type) : Type := World -> Outcome A * World.

Definition ret {A} (a : A) : M A := fun w => (Ok a, w).

Definition throw {A} (e : string) : M A := fun w => (Throw e, w).

Definition bind {A B} (m : M A) (k : A -> M B) : M B :=
  fun w =>
    match m w with
    | (Ok a, w') => k a w'
    | (Throw e, w') => (Throw e, w')
    end.

(** [try { body } catch (error) { handler(error.message) }]. *)
Definition try_catch {A} (body : M A) (handler : string -> M A) : M A :=
  fun w =>
    match body w with
    | (Ok a, w') => (Ok a, w')
    | (Throw e, w') => handler e w'
    end.

(** [console.log], [console.warn] and [console.error]. *)
Definition console_log (line : string) : M unit :=
  fun w =>
    (Ok tt,
     {| store := store w; calls := calls w; faults := faults w;
        console := console w ++ [line]; random30 := random30 w |}).

(** [Math.floor(Math.random() * 30)]. *)
Definition math_random30 : M nat :=
  fun w =>
    (Ok (hd 0%nat (random30 w)),
     {| store := store w; calls := calls w; faults := faults w;
        console := console w; random30 := tl (random30 w) |}).

(** What the schedule holds for the next external call. *)
Definition next_fault (w : World) : option string :=
  match faults w with
  | Some e :: _ => Some e
  | _ => None
  end.

(** The world after an external call: the call is logged with its outcome,
    the schedule moves on, and the store is what the call left. *)
Definition after_call (w : World) (c : Call) (outcome : option string) (s : Store)
  : World :=
  {| store := s; calls := calls w ++ [(c, outcome)]; faults := tl (faults w);
     console := console w; random30 := random30 w |}.

(** One call to an external collaborator.  It fails when the schedule of
    [faults] says so, or when the collaborator itself rejects the request
    ([effect] throws); a failed call leaves the store as it was. *)
Definition external {A} (c : Call) (effect : Store -> Outcome (A * Store)) : M A :=
  fun w =>
    match next_fault w with
    | Some e => (Throw e, after_call w c (Some e) (store w))
    | None =>
        match effect (store w) with
        | Ok (a, s') => (Ok a, after_call w c None s')
        | Throw e => (Throw e, after_call w c (Some e) (store w))
        end
    end.

End Engine.

Arguments JsVal num : clear implicits.
Arguments VoiceProfileRow num : clear implicits.
Arguments ContentAnalysisRow num : clear implicits.
Arguments VoiceFeedbackRow num : clear implicits.
Arguments TrainingSessionRow num : clear implicits.
Arguments PreferencesRow num : clear implicits.
Arguments Store num : clear implicits.
Arguments World num : clear implicits.
Arguments M num A : clear implicits.

Notation "'let!' x ':=' m 'in' k" := (bind m (fun x => k))
  (at level 10, x name, m at level 100, k at level 200).
Notation "m ';;;' k" := (bind m (fun _ => k))
  (at level 100, k at level 200, right associativity).

(* ===================================================================== *)
(** * External collaborators *)
(* ===================================================================== *)

(** One line of the generative model's reply to a refinement request, as
    [parseVoiceRefinement] reads it: a line that starts with [REASONING:], or
    a line split at [':'] into a trimmed key and the number [parseFloat] finds
    in the rest ([None] when it finds none). *)
Inductive ReplyLine (num : Type) :=
  | ReasoningLine (text : string)
  | FieldLine (key : string) (value : option num).
Arguments ReasoningLine {num} text.
Arguments FieldLine {num} key value.

(** What the program takes from outside is left open: the column types of
    the store, the generative model, the language identifier and the regular
    expressions of the memory engine. *)

(** The column types of voice_profiles and voice_feedback to which a value
    of a request body is bound as it came. *)
Record ColumnTypes (num : Type) := {
  (** the value a [DECIMAL(3,2)] column takes from a bound parameter; [None]
      when the store rejects the parameter *)
  pg_decimal_3_2 : JsVal num -> option num;
  (** the same for a [VARCHAR(100)] column *)
  pg_varchar_100 : JsVal num -> option string;
  (** the same for an [INTEGER] column *)
  pg_integer : JsVal num -> option Z
}.
Arguments pg_decimal_3_2 {num} _ _.
Arguments pg_varchar_100 {num} _ _.
Arguments pg_integer {num} _ _.

(** The columns to which the program binds a string or a small number are
    read as PostgreSQL reads them. *)

(** A [VARCHAR(n)] column: a text of at most [n] characters is stored as it
    is; a longer one is rejected, unless all it has beyond [n] characters are
    spaces, which are then cut off. *)
Definition pg_varchar (n : nat) (s : string) : option string :=
  if (String.length s <=? n)%nat then Some s
  else if forallb (Ascii.eqb " ")
            (list_ascii_of_string (substring n (String.length s - n) s))
       then Some (substring 0 n s)
       else None.

(** The column [emoji_level INT CHECK (emoji_level BETWEEN 0 AND 5)].  A
    number is bound as its decimal text, so one of the integers 0..5 is
    stored (a [-0] as 0) and everything else is rejected: a fraction, NaN,
    an infinity, an integer outside of 0..5. *)
Definition pg_emoji_level {num} `{JsNumber num} (x : num) : option num :=
  option_map n_ofZ
    (List.find (fun k => n_le x (n_ofZ k) && n_le (n_ofZ k) x) [0; 1; 2; 3; 4; 5]%Z).

(** [object[key] = value] on an object literal: assigning a number to
    [__proto__] creates no property. *)
Definition object_assign {num : Type} (object : gmap string num) (key : string)
  (value : num) : gmap string num :=
  if String.eqb key "__proto__" then object else <[key := value]> object.

(** The generative model. *)
Record Oracle (num : Type) := {
  (** whether the Gemini client was initialised ([this.textModel]) *)
  textModel : bool;
  (** its reply to a refinement prompt *)
  refinementReply :
    list (ContentAnalysisRow num) -> list (VoiceFeedbackRow num) ->
    VoiceProfileRow num -> list (ReplyLine num)
}.
Arguments textModel {num} _.
Arguments refinementReply {num} _ _ _ _.

(** The language identifier. *)
Record LanguageIdentifier := {
  (** [sanitizeText]: tags, mentions and URLs removed, blanks collapsed *)
  sanitizeText : jsstring -> jsstring;
  (** [franc] restricted to the whitelist: an ISO 639-3 code or ["und"] *)
  franc : jsstring -> string
}.

(** The regular expressions of the memory engine, and [toFixed]. *)
Record MemoryDetectors (num : Type) := {
  (** the number of matches of [EMOJI_REGEX] *)
  emojiCount : jsstring -> nat;
  (** [extractPhrases] and [detectStructure] *)
  extractPhrases : jsstring -> list jsstring;
  detectStructure : jsstring -> CaptionStructure;
  (** [Number(x.toFixed(2))] *)
  toFixed2 : num -> num
}.
Arguments emojiCount {num} _ _.
Arguments extractPhrases {num} _ _.
Arguments detectStructure {num} _ _.
Arguments toFixed2 {num} _ _.

(* ===================================================================== *)
(** * Voice model: store methods, oracle, refinement *)
(* ===================================================================== *)

Section VoiceModel.
Context {num : Type} `{JsNumber num} (cols : ColumnTypes num) (oracle : Oracle num).

(** The parameters [$2..$10] of the statement of [upsertVoiceProfile]. *)
Record VoiceProfileValues := {
  val_profile_name : JsVal num;
  val_formality : JsVal num;
  val_humor : JsVal num;
  val_enthusiasm : JsVal num;
  val_professionalism : JsVal num;
  val_creativity : JsVal num;
  val_emotional_tone : JsVal num;
  val_confidence : JsVal num;
  val_warmth : JsVal num
}.

(** The array [values] built by [upsertVoiceProfile] from [voiceData]. *)
Definition upsertVoiceProfile_values (voiceData : gmap string (JsVal num))
  : VoiceProfileValues :=
  {| val_profile_name := js_or (voiceData !! "profileName") (VStr "Default Profile");
     val_formality := js_or (voiceData !! "formality") (VNum (n_dec 5 1));
     val_humor := js_or (voiceData !! "humor") (VNum (n_dec 5 1));
     val_enthusiasm := js_or (voiceData !! "enthusiasm") (VNum (n_dec 5 1));
     val_professionalism := js_or (voiceData !! "professionalism") (VNum (n_dec 5 1));
     val_creativity := js_or (voiceData !! "creativity") (VNum (n_dec 5 1));
     val_emotional_tone := js_or (voiceData !! "emotionalTone") (VNum (n_dec 5 1));
     val_confidence := js_or (voiceData !! "confidence") (VNum (n_dec 5 1));
     val_warmth := js_or (voiceData !! "warmth") (VNum (n_dec 5 1)) |}.

(** The parameter bound to the column of a dimension. *)
Definition value_of (values : VoiceProfileValues) (d : Dimension) : JsVal num :=
  match d with
  | formality => val_formality values
  | humor => val_humor values
  | enthusiasm => val_enthusiasm values
  | professionalism => val_professionalism values
  | creativity => val_creativity values
  | emotional_tone => val_emotional_tone values
  | confidence => val_confidence values
  | warmth => val_warmth values
  end.

(** The eight [DECIMAL(3,2)] columns of a row, when the store accepts all
    eight parameters. *)
Definition bind_vector (values : VoiceProfileValues) : option (VoiceVector num) :=
  match pg_decimal_3_2 cols (val_formality values),
        pg_decimal_3_2 cols (val_humor values),
        pg_decimal_3_2 cols (val_enthusiasm values),
        pg_decimal_3_2 cols (val_professionalism values),
        pg_decimal_3_2 cols (val_creativity values),
        pg_decimal_3_2 cols (val_emotional_tone values),
        pg_decimal_3_2 cols (val_confidence values),
        pg_decimal_3_2 cols (val_warmth values) with
  | Some a, Some b, Some c, Some d, Some e, Some f, Some g, Some h =>
      Some {| v_formality := a; v_humor := b; v_enthusiasm := c;
              v_professionalism := d; v_creativity := e; v_emotional_tone := f;
              v_confidence := g; v_warmth := h |}
  | _, _, _, _, _, _, _, _ => None
  end.

(** [INSERT INTO voice_profiles ... ON CONFLICT (user_id) DO UPDATE SET
    profile_name = EXCLUDED.profile_name, formality = EXCLUDED.formality, ...
    RETURNING *]: the name and the eight dimensions of the user's row are
    replaced by the parameters (a new row is active); the row is returned. *)
Definition sql_upsert_voice_profile (userId : nat) (values : VoiceProfileValues)
  (s : Store num) : Outcome (VoiceProfileRow num * Store num) :=
  match pg_varchar_100 cols (val_profile_name values), bind_vector values with
  | Some name, Some vector =>
      let row :=
        {| vp_user_id := userId;
           vp_profile_name := name;
           vp_vector := vector;
           vp_is_active :=
             match voice_profiles s !! userId with
             | Some old => vp_is_active old
             | None => true
             end |} in
      Ok (row,
          {| voice_profiles := <[userId := row]> (voice_profiles s);
             content_analysis := content_analysis s;
             voice_feedback := voice_feedback s;
             voice_training_sessions := voice_training_sessions s;
             user_preferences := user_preferences s;
             saved_posts := saved_posts s;
             caption_history := caption_history s |})
  | _, _ => Throw "store: parameter rejected by voice_profiles"
  end.

(** db/database.js, [upsertVoiceProfile(userId, voiceData)]. *)
Definition upsertVoiceProfile (userId : nat) (voiceData : gmap string (JsVal num))
  : M num (VoiceProfileRow num) :=
  let values := upsertVoiceProfile_values voiceData in
  external (UpsertVoiceProfile userId) (sql_upsert_voice_profile userId values).

(** db/database.js, [getVoiceProfile(userId)]: the user's active row. *)
Definition getVoiceProfile (userId : nat) : M num (option (VoiceProfileRow num)) :=
  external (GetVoiceProfile userId)
    (fun s =>
       Ok (match voice_profiles s !! userId with
           | Some row => if vp_is_active row then Some row else None
           | None => None
           end, s)).

(** db/database.js, [getContentAnalysisHistory(userId, limit)]: the newest
    [limit] rows of the user. *)
Definition getContentAnalysisHistory (userId limit : nat)
  : M num (list (ContentAnalysisRow num)) :=
  external (GetContentAnalysisHistory userId limit)
    (fun s =>
       Ok (firstn limit
             (List.filter (fun r => Nat.eqb (ca_user_id r) userId) (content_analysis s)),
           s)).

(** db/database.js, [getVoiceFeedbackHistory(userId, limit)]. *)
Definition getVoiceFeedbackHistory (userId limit : nat)
  : M num (list (VoiceFeedbackRow num)) :=
  external (GetVoiceFeedbackHistory userId limit)
    (fun s =>
       Ok (firstn limit
             (List.filter (fun r => Nat.eqb (vf_user_id r) userId) (voice_feedback s)),
           s)).

(** The argument of [recordTrainingSession]; the accuracy is [None] when it
    is NaN. *)
Record TrainingData := {
  trainingType : string;
  samplesUsed : nat;
  accuracyScore : option num;
  trainingDuration : nat
}.

(** db/database.js, [recordTrainingSession(userId, trainingData)]: a falsy
    accuracy (0 or NaN) is stored as [0.0]. *)
Definition recordTrainingSession (userId : nat) (trainingData : TrainingData)
  : M num (TrainingSessionRow num) :=
  external (RecordTrainingSession userId)
    (fun s =>
       let row :=
         {| ts_user_id := userId;
            ts_training_type := trainingType trainingData;
            ts_samples_used := samplesUsed trainingData;
            ts_accuracy_score :=
              match accuracyScore trainingData with
              | Some a => if n_truthy a then a else n_ofZ 0
              | None => n_ofZ 0
              end;
            ts_training_duration := trainingDuration trainingData |} in
       Ok (row,
           {| voice_profiles := voice_profiles s;
              content_analysis := content_analysis s;
              voice_feedback := voice_feedback s;
              voice_training_sessions := row :: voice_training_sessions s;
              user_preferences := user_preferences s;
              saved_posts := saved_posts s;
              caption_history := caption_history s |})).

(** The body of POST /voice-feedback, as far as it is stored. *)
Record FeedbackBody := {
  fb_generatedContentId : option (JsVal num);
  fb_contentType : option string;
  fb_feedbackType : option string;
  fb_feedbackComment : option string;
  fb_expected : Dimension -> option num
}.

(** A parameter [value || null] bound to a nullable column: a falsy value is
    stored as NULL, a truthy one as the column reads it; [None] when the
    column rejects it. *)
Definition bind_nullable {A} (column : JsVal num -> option A) (value : option (JsVal num))
  : option (option A) :=
  match value with
  | Some v => if truthy value then option_map Some (column v) else Some None
  | None => Some None
  end.

(** The eight [DECIMAL(3,2)] columns [expected_*] of a row of
    voice_feedback, when the store accepts all eight parameters. *)
Definition bind_expected (feedbackData : FeedbackBody)
  : option (Dimension -> option num) :=
  let expected d :=
    bind_nullable (pg_decimal_3_2 cols) (VNum <$> fb_expected feedbackData d) in
  match expected formality, expected humor, expected enthusiasm,
        expected professionalism, expected creativity, expected emotional_tone,
        expected confidence, expected warmth with
  | Some a, Some b, Some c, Some d, Some e, Some f, Some g, Some h =>
      Some (fun dimension =>
              match dimension with
              | formality => a
              | humor => b
              | enthusiasm => c
              | professionalism => d
              | creativity => e
              | emotional_tone => f
              | confidence => g
              | warmth => h
              end)
  | _, _, _, _, _, _, _, _ => None
  end.

(** [INSERT INTO voice_feedback ... RETURNING *]: the row is added when the
    columns accept the parameters, [content_type] being a [VARCHAR(50)],
    [feedback_type] a [VARCHAR(20)], [generated_content_id] an [INTEGER] and
    the expected values [DECIMAL(3,2)]. *)
Definition sql_insert_voice_feedback (userId : nat) (contentType feedbackType : string)
  (feedbackData : FeedbackBody) (s : Store num)
  : Outcome (VoiceFeedbackRow num * Store num) :=
  match bind_nullable (pg_integer cols) (fb_generatedContentId feedbackData),
        pg_varchar 50 contentType, pg_varchar 20 feedbackType,
        bind_expected feedbackData with
  | Some generated_content_id, Some content_type, Some feedback_type, Some expected =>
      let row :=
        {| vf_user_id := userId;
           vf_generated_content_id := generated_content_id;
           vf_content_type := content_type;
           vf_feedback_type := feedback_type;
           vf_feedback_comment :=
             if text_truthy (fb_feedbackComment feedbackData)
             then fb_feedbackComment feedbackData else None;
           vf_expected := expected |} in
      Ok (row,
          {| voice_profiles := voice_profiles s;
             content_analysis := content_analysis s;
             voice_feedback := row :: voice_feedback s;
             voice_training_sessions := voice_training_sessions s;
             user_preferences := user_preferences s;
             saved_posts := saved_posts s;
             caption_history := caption_history s |})
  | _, _, _, _ => Throw "store: parameter rejected by voice_feedback"
  end.

(** db/database.js, [storeVoiceFeedback(userId, feedbackData)]: a falsy
    content id, comment or expected value is bound as NULL. *)
Definition storeVoiceFeedback (userId : nat) (contentType feedbackType : string)
  (feedbackData : FeedbackBody) : M num (VoiceFeedbackRow num) :=
  external (StoreVoiceFeedback userId)
    (sql_insert_voice_feedback userId contentType feedbackType feedbackData).

(** ** The oracle *)

(** The object built by [parseVoiceRefinement]: the numeric properties and
    the property [reasoning]. *)
Record RefinedProfile := {
  rp_fields : gmap string num;
  rp_reasoning : string
}.

(** services/geminiService.js, [parseVoiceRefinement]: every number read is
    clamped to [0,1] and assigned to the property named by the lower-cased
    key. *)
Definition parseVoiceRefinement (lines : list (ReplyLine num)) : RefinedProfile :=
  let result :=
    fold_left
      (fun (acc : gmap string num * string) line =>
         match line with
         | ReasoningLine text => (fst acc, text)
         | FieldLine key (Some numValue) =>
             if negb (String.eqb key "")
             then (object_assign (fst acc) (toLowerCase key)
                     (n_max (n_ofZ 0) (n_min (n_ofZ 1) numValue)),
                   snd acc)
             else acc
         | FieldLine _ None => acc
         end)
      lines (∅, ""%string) in
  {| rp_fields := fst result;
     rp_reasoning :=
       if String.eqb (snd result) ""
       then "Profile refined based on analysis and feedback."
       else snd result |}.

(** The refined profile as the object handed to [upsertVoiceProfile]. *)
Definition refined_object (r : RefinedProfile) : gmap string (JsVal num) :=
  <["reasoning" := VStr (rp_reasoning r)]> (VNum <$> rp_fields r).

(** services/geminiService.js, [buildVoiceRefinementPrompt], as far as it
    can fail.  Every sample is read as
    [analysis.contentText.substring(0, 100)], and a row of content_analysis
    holds its text under [content_text]: [contentText] is [undefined], so the
    first sample throws a TypeError.  The feedback and the profile are only
    interpolated, which cannot fail.  The text of the prompt is not modelled:
    the reply of the generative model is a function of what the prompt is
    built from. *)
Definition buildVoiceRefinementPrompt (contentAnalysis : list (ContentAnalysisRow num))
  (userFeedback : list (VoiceFeedbackRow num)) (currentProfile : VoiceProfileRow num)
  : M num unit :=
  match contentAnalysis with
  | [] => ret tt
  | _ :: _ => throw "Cannot read properties of undefined (reading 'substring')"
  end.

(** services/geminiService.js, [refineVoiceProfile]: the prompt is built
    outside of the [try]; any failure of the generative model is logged and
    thrown again as one fixed error. *)
Definition refineVoiceProfile (contentAnalysis : list (ContentAnalysisRow num))
  (userFeedback : list (VoiceFeedbackRow num)) (currentProfile : VoiceProfileRow num)
  : M num RefinedProfile :=
  if negb (textModel oracle)
  then throw "Gemini text client not initialized. Please check your API key."
  else
    let! prompt := buildVoiceRefinementPrompt contentAnalysis userFeedback currentProfile in
    try_catch
      (let! text :=
         external GenerateContent
           (fun s => Ok (refinementReply oracle contentAnalysis userFeedback currentProfile, s)) in
       ret (parseVoiceRefinement text))
      (fun error =>
         console_log "GeminiService: Error in refineVoiceProfile:" ;;;
         throw "Failed to refine voice profile.").

(** routes/generate.js, [calculateRefinementAccuracy]; [None] is NaN (a
    property the refined profile lacks reads as [undefined]). *)
Definition calculateRefinementAccuracy (oldProfile : VoiceProfileRow num)
  (newProfile : RefinedProfile) : option num :=
  match rp_fields newProfile !! "formality",
        rp_fields newProfile !! "humor",
        rp_fields newProfile !! "enthusiasm" with
  | Some new_formality, Some new_humor, Some new_enthusiasm =>
      let changes :=
        n_add
          (n_add (n_abs (n_sub new_formality (v_formality (vp_vector oldProfile))))
                 (n_abs (n_sub new_humor (v_humor (vp_vector oldProfile)))))
          (n_abs (n_sub new_enthusiasm (v_enthusiasm (vp_vector oldProfile)))) in
      Some (n_max (n_dec 7 1) (n_sub (n_ofZ 1) changes))
  | _, _, _ => None
  end.

(** ** Refinement *)

(** routes/generate.js, [triggerVoiceRefinement(userId)]. *)
Definition triggerVoiceRefinement (userId : nat) : M num unit :=
  try_catch
    (let! analysisHistory := getContentAnalysisHistory userId 20 in
     let! feedbackHistory := getVoiceFeedbackHistory userId 10 in
     if (length analysisHistory <? 5)%nat
     then console_log "Voice Engine: Not enough data for refinement yet."
     else
       let! currentProfile := getVoiceProfile userId in
       match currentProfile with
       | None => console_log "Voice Engine: No current profile to refine."
       | Some currentProfile =>
           console_log "Voice Engine: Triggering ML refinement" ;;;
           let! refinedProfile :=
             refineVoiceProfile analysisHistory feedbackHistory currentProfile in
           let! _ := upsertVoiceProfile userId (refined_object refinedProfile) in
           let accuracy := calculateRefinementAccuracy currentProfile refinedProfile in
           let! r := math_random30 in
           let! _ :=
             recordTrainingSession userId
               {| trainingType := "feedback_based";
                  samplesUsed := length analysisHistory;
                  accuracyScore := accuracy;
                  trainingDuration := r + 10 |} in
           console_log "Voice Engine: Profile refinement completed successfully"
       end)
    (fun error => console_log "Voice Engine: Refinement error:").

(** ** The feedback route *)

(** The response of a handler: the HTTP status and the [success] flag. *)
Record Response := {
  status : nat;
  success : bool
}.

(** routes/generate.js, POST /voice-feedback. *)
Definition postVoiceFeedback (userId : nat) (body : FeedbackBody) : M num Response :=
  try_catch
    (match fb_contentType body, fb_feedbackType body with
     | Some contentType, Some feedbackType =>
         if negb (String.eqb contentType "") && negb (String.eqb feedbackType "")
         then
           let! feedback := storeVoiceFeedback userId contentType feedbackType body in
           triggerVoiceRefinement userId ;;;
           ret {| status := 200; success := true |}
         else ret {| status := 400; success := false |}
     | _, _ => ret {| status := 400; success := false |}
     end)
    (fun error =>
       console_log "Generate Route: Voice feedback error:" ;;;
       ret {| status := 500; success := false |}).

(** routes/generate.js, POST /create-voice-profile: the body is destructured
    with a default for every property, and the profile is upserted. *)
Definition postCreateVoiceProfile (userId : nat) (body : gmap string (JsVal num))
  : M num (Response * option (VoiceProfileRow num)) :=
  try_catch
    (let with_default (k : string) (d : JsVal num) : JsVal num :=
       match body !! k with Some v => v | None => d end in
     let half := VNum (n_dec 5 1) in
     let voiceData : gmap string (JsVal num) :=
       <["profileName" := with_default "profileName" (VStr "Default Profile")]>
       (<["formality" := with_default "formality" half]>
       (<["humor" := with_default "humor" half]>
       (<["enthusiasm" := with_default "enthusiasm" half]>
       (<["professionalism" := with_default "professionalism" half]>
       (<["creativity" := with_default "creativity" half]>
       (<["emotionalTone" := with_default "emotionalTone" half]>
       (<["confidence" := with_default "confidence" half]>
       (<["warmth" := with_default "warmth" half]> ∅)))))))) in
     let! voiceProfile := upsertVoiceProfile userId voiceData in
     ret ({| status := 200; success := true |}, Some voiceProfile))
    (fun error =>
       console_log "Generate Route: Create voice profile error:" ;;;
       ret ({| status := 500; success := false |}, None)).

(** routes/generate.js, PUT /voice-profiles/:id: the body is the update. *)
Definition putVoiceProfile (userId : nat) (updates : gmap string (JsVal num))
  : M num (Response * option (VoiceProfileRow num)) :=
  try_catch
    (let! voiceProfile := upsertVoiceProfile userId updates in
     ret ({| status := 200; success := true |}, Some voiceProfile))
    (fun error =>
       console_log "Generate Route: Update voice profile error:" ;;;
       ret ({| status := 500; success := false |}, None)).

End VoiceModel.

Arguments VoiceProfileValues num : clear implicits.
Arguments RefinedProfile num : clear implicits.
Arguments TrainingData num : clear implicits.
Arguments FeedbackBody num : clear implicits.

(* ===================================================================== *)
(** * Preference memory *)
(* ===================================================================== *)

Section PreferenceMemory.
Context {num : Type} `{JsNumber num} (detectors : MemoryDetectors num).

(** The preference object the services hand out. *)
Record Preferences := {
  preferred_tone : string;
  emoji_level : num;
  common_phrases : list jsstring;
  disliked_phrases : list jsstring;
  caption_length_preference : string;
  language_preference : string;
  caption_structure : CaptionStructure
}.

(** An update of the preferences: [None] is a property the object lacks. *)
Record PreferenceUpdates := {
  u_preferred_tone : option string;
  u_emoji_level : option num;
  u_common_phrases : option (list jsstring);
  u_disliked_phrases : option (list jsstring);
  u_caption_length_preference : option string;
  u_language_preference : option string;
  u_caption_structure : option CaptionStructure
}.

Definition DEFAULT_STRUCTURE : CaptionStructure :=
  {| hasEmojisAtEnd := false; startsWithQuote := false;
     containsLineBreaks := false; firstSentenceLength := 0 |}.

Definition DEFAULT_PREFERENCES : Preferences :=
  {| preferred_tone := "casual";
     emoji_level := n_ofZ 2;
     common_phrases := [];
     disliked_phrases := [];
     caption_length_preference := "medium";
     language_preference := "en";
     caption_structure := DEFAULT_STRUCTURE |}.

(** [s || d] on a nullable text column. *)
Definition text_or (s : option string) (d : string) : string :=
  match s with
  | Some x => if String.eqb x "" then d else x
  | None => d
  end.

(** userPreferenceService.js, [getPreferences(userId)]. *)
Definition getPreferences (userId : option nat) : M num Preferences :=
  match userId with
  | Some (S _ as uid) =>
      let! row :=
        external (SelectUserPreferences uid)
          (fun s => Ok (user_preferences s !! uid, s)) in
      match row with
      | None => ret DEFAULT_PREFERENCES
      | Some row =>
          ret {| preferred_tone :=
                   text_or (up_preferred_tone row) (preferred_tone DEFAULT_PREFERENCES);
                 emoji_level :=
                   default (emoji_level DEFAULT_PREFERENCES) (up_emoji_level row);
                 common_phrases := default [] (up_common_phrases row);
                 disliked_phrases := default [] (up_disliked_phrases row);
                 caption_length_preference :=
                   text_or (up_caption_length_preference row)
                     (caption_length_preference DEFAULT_PREFERENCES);
                 language_preference :=
                   text_or (up_language_preference row)
                     (language_preference DEFAULT_PREFERENCES);
                 caption_structure :=
                   default (caption_structure DEFAULT_PREFERENCES)
                     (up_caption_structure row) |}
      end
  | _ => ret DEFAULT_PREFERENCES
  end.

(** [INSERT INTO user_preferences ... ON CONFLICT (user_id) DO UPDATE SET ...
    RETURNING *].  The row is written when the columns accept the parameters:
    [preferred_tone] is a [VARCHAR(50)], [emoji_level] an [INT] with a CHECK,
    [caption_length_preference] a [VARCHAR(20)] and [language_preference] a
    [VARCHAR(10)]; the phrase lists and the structure are bound as they
    are. *)
Definition sql_upsert_user_preferences (uid : nat) (nextPrefs : Preferences)
  (s : Store num) : Outcome (PreferencesRow num * Store num) :=
  match pg_varchar 50 (preferred_tone nextPrefs),
        pg_emoji_level (emoji_level nextPrefs),
        pg_varchar 20 (caption_length_preference nextPrefs),
        pg_varchar 10 (language_preference nextPrefs) with
  | Some tone, Some level, Some length_preference, Some language =>
      let row :=
        {| up_preferred_tone := Some tone;
           up_emoji_level := Some level;
           up_common_phrases := Some (common_phrases nextPrefs);
           up_disliked_phrases := Some (disliked_phrases nextPrefs);
           up_caption_length_preference := Some length_preference;
           up_language_preference := Some language;
           up_caption_structure := Some (caption_structure nextPrefs) |} in
      Ok (row,
          {| voice_profiles := voice_profiles s;
             content_analysis := content_analysis s;
             voice_feedback := voice_feedback s;
             voice_training_sessions := voice_training_sessions s;
             user_preferences := <[uid := row]> (user_preferences s);
             saved_posts := saved_posts s;
             caption_history := caption_history s |})
  | _, _, _, _ => Throw "store: parameter rejected by user_preferences"
  end.

(** userPreferenceService.js, [updatePreferences(userId, preferenceUpdates)]. *)
Definition updatePreferences (userId : option nat) (preferenceUpdates : PreferenceUpdates)
  : M num Preferences :=
  match userId with
  | Some (S _ as uid) =>
      let! currentPrefs := getPreferences userId in
      let nextPrefs :=
        {| preferred_tone :=
             default (preferred_tone currentPrefs) (u_preferred_tone preferenceUpdates);
           emoji_level :=
             default (emoji_level currentPrefs) (u_emoji_level preferenceUpdates);
           common_phrases :=
             mergeUniqueLists (common_phrases currentPrefs)
               (default [] (u_common_phrases preferenceUpdates)) 10;
           disliked_phrases :=
             match u_disliked_phrases preferenceUpdates with
             | Some incoming =>
                 mergeUniqueLists (disliked_phrases currentPrefs) incoming 10
             | None => disliked_phrases currentPrefs
             end;
           caption_length_preference :=
             default (caption_length_preference currentPrefs)
               (u_caption_length_preference preferenceUpdates);
           language_preference :=
             default (language_preference currentPrefs)
               (u_language_preference preferenceUpdates);
           caption_structure :=
             default (caption_structure currentPrefs)
               (u_caption_structure preferenceUpdates) |} in
      let! row :=
        external (UpsertUserPreferences uid) (sql_upsert_user_preferences uid nextPrefs) in
      ret {| preferred_tone := default "" (up_preferred_tone row);
             emoji_level := default (emoji_level nextPrefs) (up_emoji_level row);
             common_phrases := default [] (up_common_phrases row);
             disliked_phrases := default [] (up_disliked_phrases row);
             caption_length_preference :=
               default "" (up_caption_length_preference row);
             language_preference :=
               text_or (up_language_preference row) (language_preference nextPrefs);
             caption_structure :=
               default (caption_structure nextPrefs) (up_caption_structure row) |}
  | _ => throw "User ID is required to update preferences."
  end.

(** userPreferenceService.js, [initPreferences(userId)]. *)
Definition initPreferences (userId : option nat) : M num Preferences :=
  updatePreferences userId
    {| u_preferred_tone := Some (preferred_tone DEFAULT_PREFERENCES);
       u_emoji_level := Some (emoji_level DEFAULT_PREFERENCES);
       u_common_phrases := Some (common_phrases DEFAULT_PREFERENCES);
       u_disliked_phrases := Some (disliked_phrases DEFAULT_PREFERENCES);
       u_caption_length_preference := Some (caption_length_preference DEFAULT_PREFERENCES);
       u_language_preference := Some (language_preference DEFAULT_PREFERENCES);
       u_caption_structure := Some (caption_structure DEFAULT_PREFERENCES) |}.

(** ** The memory engine *)

(** [clamp(value, min, max)] on counts. *)
Definition clamp (value min max : nat) : nat := Nat.max min (Nat.min max value).

(** [detectTone(text)]: 33 is the code unit of ['!']. *)
Definition detectTone (text : jsstring) : string :=
  if negb (str_truthy text) then "casual"
  else if existsb (N.eqb 33) text then "energetic"
  else if (200 <? length text)%nat then "detailed"
  else "casual".

(** [detectLengthPreference(text)]. *)
Definition detectLengthPreference (text : jsstring) : string :=
  if (length text <? 150)%nat then "short"
  else if (length text <? 250)%nat then "medium"
  else "long".

(** [detectEmojiLevel(text)]. *)
Definition detectEmojiLevel (text : jsstring) : nat :=
  clamp (emojiCount detectors text) 0 5.

(** The argument [context] of [learnFromCaption]. *)
Record LearnContext := {
  language : option string
}.

(** The memory engine's [learnFromCaption(userId, finalCaption = '',
    context = {})]: [None] is [null].  The emoji level read by
    [getPreferences] is never [undefined], so the new level is always the
    mean of the stored and the detected one. *)
Definition learnFromCaption (userId : option nat) (finalCaption : option jsstring)
  (context : LearnContext) : M num (option PreferenceUpdates) :=
  if negb (uid_truthy userId) || negb (caption_truthy finalCaption) then ret None
  else
    let finalCaption := default [] finalCaption in
    let! existingPrefs := getPreferences userId in
    let languagePreference :=
      if text_truthy (language context) then default "" (language context)
      else language_preference existingPrefs in
    let detectedEmoji := n_ofZ (Z.of_nat (detectEmojiLevel finalCaption)) in
    let newEmojiLevel :=
      n_div (n_add (emoji_level existingPrefs) detectedEmoji) (n_ofZ 2) in
    let detectedTone := detectTone finalCaption in
    let extractedPhrases := extractPhrases detectors finalCaption in
    let structure := detectStructure detectors finalCaption in
    let lengthPreference := detectLengthPreference finalCaption in
    ret (Some
           {| u_preferred_tone :=
                Some (if String.eqb detectedTone "" then preferred_tone existingPrefs
                      else detectedTone);
              u_emoji_level := Some (toFixed2 detectors newEmojiLevel);
              u_common_phrases :=
                Some (mergeLists (common_phrases existingPrefs) extractedPhrases 10);
              u_disliked_phrases := None;
              u_caption_length_preference := Some lengthPreference;
              u_language_preference :=
                Some (if String.eqb languagePreference ""
                      then language_preference existingPrefs
                      else languagePreference);
              u_caption_structure := Some structure |}).

(** ** The best-effort blocks of POST / *)

(** The memory update: learn from the generated caption and, when something
    was learnt, store it; any error is logged and the preferences read
    before are kept. *)
Definition memoryBlock (userId : nat) (caption : option jsstring)
  (language : option string) (memoryPreferences : Preferences) : M num Preferences :=
  try_catch
    (let! learnedPrefs :=
       learnFromCaption (Some userId) caption {| language := language |} in
     match learnedPrefs with
     | Some learnedPrefs => updatePreferences (Some userId) learnedPrefs
     | None => ret memoryPreferences
     end)
    (fun memoryError =>
       console_log "Generate Route: Memory engine update failed (non-critical):" ;;;
       ret memoryPreferences).

(** captionHistoryService.js, [saveEntry]. *)
Definition saveEntry (userId : nat) (generatedCaption finalCaption : jsstring)
  (feedbackScore : option nat) : M num CaptionHistoryRow :=
  external (InsertCaptionHistory userId)
    (fun s =>
       let row :=
         {| ch_user_id := userId; ch_generated_caption := generatedCaption;
            ch_final_caption := finalCaption; ch_feedback_score := feedbackScore |} in
       Ok (row,
           {| voice_profiles := voice_profiles s;
              content_analysis := content_analysis s;
              voice_feedback := voice_feedback s;
              voice_training_sessions := voice_training_sessions s;
              user_preferences := user_preferences s;
              saved_posts := saved_posts s;
              caption_history := row :: caption_history s |})).

(** The history block of POST /: a failed save is logged and ignored. *)
Definition historyBlock (userId : nat) (caption : jsstring)
  : M num (option CaptionHistoryRow) :=
  try_catch
    (let! historyEntry := saveEntry userId caption caption (Some 5%nat) in
     ret (Some historyEntry))
    (fun historyError =>
       console_log "Generate Route: Caption history save failed (non-critical):" ;;;
       ret None).

End PreferenceMemory.

Arguments Preferences num : clear implicits.
Arguments PreferenceUpdates num : clear implicits.

(* ===================================================================== *)
(** * Language advisor *)
(* ===================================================================== *)

Definition FRANC_TO_ISO : list (string * string) :=
  [ ("eng", "en"); ("hin", "hi"); ("tel", "te"); ("tam", "ta"); ("kan", "kn");
    ("mal", "ml"); ("ben", "bn"); ("mar", "mr"); ("pan", "pa"); ("guj", "gu");
    ("urd", "ur"); ("spa", "es"); ("deu", "de"); ("fra", "fr") ]%string.

Definition LANGUAGE_LABELS : list (string * string) :=
  [ ("en", "English"); ("hi", "Hindi"); ("te", "Telugu"); ("ta", "Tamil");
    ("kn", "Kannada"); ("ml", "Malayalam"); ("bn", "Bengali"); ("mr", "Marathi");
    ("pa", "Punjabi"); ("gu", "Gujarati"); ("ur", "Urdu"); ("es", "Spanish");
    ("de", "German"); ("fr", "French") ]%string.

Definition DEFAULT_LANGUAGE : string := "en".

(** Property read [table[key]] on one of the two tables above. *)
Fixpoint table_get (table : list (string * string)) (k : string) : option string :=
  match table with
  | [] => None
  | (k', v) :: rest => if String.eqb k' k then Some v else table_get rest k
  end.

(** [mapFrancToIso(code)]. *)
Definition mapFrancToIso (code : string) : option string :=
  if String.eqb code "" || String.eqb code "und" then None
  else table_get FRANC_TO_ISO code.

(** What [detectLanguageFromCaption] returns. *)
Record Detection := {
  isoCode : string;
  label : string;
  raw : string
}.

(** The decimal digit a character spells. *)
Definition digit_of (c : ascii) : option N :=
  let n := N_of_ascii c in
  if ((48 <=? n) && (n <=? 57))%N then Some (n - 48)%N else None.

Fixpoint digits_value (s : string) (acc : N) : option N :=
  match s with
  | EmptyString => Some acc
  | String c s' =>
      match digit_of c with
      | Some d => digits_value s' (acc * 10 + d)%N
      | None => None
      end
  end.

(** The array index a property key spells, if it spells one: a canonical
    decimal numeral below 2^32 - 1.  [Object.entries] lists such keys first,
    in increasing order, and the other keys after them in creation order. *)
Definition array_index (k : string) : option N :=
  match k with
  | EmptyString => None
  | String c rest =>
      if Ascii.eqb c "0" && negb (String.eqb rest "") then None
      else
        match digits_value k 0 with
        | Some v => if (v <? 4294967295)%N then Some v else None
        | None => None
        end
  end.

Section ObjectEntries.
Context {V : Type}.

Fixpoint insert_by_index (x : N * (string * V)) (sorted : list (N * (string * V)))
  : list (N * (string * V)) :=
  match sorted with
  | [] => [x]
  | y :: rest =>
      if (fst x <? fst y)%N then x :: y :: rest else y :: insert_by_index x rest
  end.

(** [Object.entries(o)] for an object whose string-keyed properties were
    created in the order of [props]. *)
Definition object_entries (props : list (string * V)) : list (string * V) :=
  let indexed :=
    fold_left
      (fun acc p =>
         match array_index (fst p) with
         | Some i => insert_by_index (i, p) acc
         | None => acc
         end)
      props [] in
  map snd indexed
    ++ List.filter (fun p => match array_index (fst p) with Some _ => false | None => true end)
         props.

End ObjectEntries.

(** [tally.set(lang, (tally.get(lang) || 0) + 1)] on a [Map] kept in
    insertion order. *)
Fixpoint tally_incr (lang : string) (tally : list (string * nat)) : list (string * nat) :=
  match tally with
  | [] => [(lang, 1%nat)]
  | (l, c) :: rest =>
      if String.eqb l lang then (l, S c) :: rest else (l, c) :: tally_incr lang rest
  end.

Section LanguageAdvisor.
Context {num : Type} `{JsNumber num} (identifier : LanguageIdentifier).

(** services/geminiService.js, [detectLanguageFromCaption(text)]. *)
Definition detectLanguageFromCaption (text : option jsstring) : option Detection :=
  match text with
  | None => None
  | Some text =>
      if negb (str_truthy text) then None
      else
        let cleaned := sanitizeText identifier text in
        if (length cleaned <? 3)%nat then None
        else
          let francCode := franc identifier cleaned in
          match mapFrancToIso francCode with
          | None => None
          | Some iso =>
              if String.eqb iso "" then None
              else
                Some {| isoCode := iso;
                        label := text_or (table_get LANGUAGE_LABELS iso) iso;
                        raw := francCode |}
          end
  end.

(** db/database.js, [getSavedPosts(userId, limit = null)]: a falsy limit is
    no limit. *)
Definition getSavedPosts (userId : nat) (limit : option nat) : M num (list SavedPost) :=
  external (GetSavedPosts userId limit)
    (fun s =>
       let rows := List.filter (fun p => Nat.eqb (sp_user_id p) userId) (saved_posts s) in
       Ok (match limit with
           | Some (S _ as n) => firstn n rows
           | _ => rows
           end, s)).

(** The language one saved post counts for: the language detected in its
    caption, else the language it was saved with. *)
Definition post_language (post : SavedPost) : option string :=
  match detectLanguageFromCaption (Some (default [] (sp_caption post))) with
  | Some detected => Some (isoCode detected)
  | None => if text_truthy (sp_language post) then sp_language post else None
  end.

(** services/geminiService.js, [detectLanguageDistributionForUser(userId,
    limit = 50)]: the properties of the object returned, in creation order;
    [None] is [null].  The counts are kept in a [Map]; the shares are
    assigned to an object literal, where [distribution[lang] = share] creates
    no property for the language [__proto__]. *)
Definition detectLanguageDistributionForUser (userId : option nat) (limit : nat)
  : M num (option (list (string * num))) :=
  match userId with
  | Some (S _ as uid) =>
      let! posts := getSavedPosts uid (Some limit) in
      match posts with
      | [] => ret None
      | _ =>
          let result :=
            fold_left
              (fun (acc : list (string * nat) * nat) post =>
                 match post_language post with
                 | None => acc
                 | Some lang => (tally_incr lang (fst acc), S (snd acc))
                 end)
              posts ([], 0%nat) in
          let tally := fst result in
          let total := snd result in
          if Nat.eqb total 0 then ret None
          else
            ret (Some
                   (map (fun entry =>
                           (fst entry,
                            n_div (n_ofZ (Z.of_nat (snd entry))) (n_ofZ (Z.of_nat total))))
                        (List.filter
                           (fun entry => negb (String.eqb (fst entry) "__proto__"))
                           tally)))
      end
  | _ => ret None
  end.

(** The argument of [recommendLanguage]: [None] is a property left out. *)
Record LanguageRequest := {
  req_userId : option nat;
  captionText : option jsstring;
  preferredLanguage : option string;
  imageLanguageHint : option string;
  fallbackLanguage : option string
}.

Record LanguageRecommendation := {
  mode : string;
  primary : string;
  secondary : option string;
  reason : string;
  sources : list string
}.

(** One step of the stable sort by [(a, b) => b[1] - a[1]]: [x] goes before
    the first entry that must follow it ([compare(y, x) > 0]). *)
Fixpoint insert_ranked (x : string * num) (sorted : list (string * num))
  : list (string * num) :=
  match sorted with
  | [] => [x]
  | y :: rest =>
      if n_gt (n_sub (snd x) (snd y)) (n_ofZ 0)
      then x :: y :: rest
      else y :: insert_ranked x rest
  end.

(** [Object.entries(distribution).sort((a, b) => b[1] - a[1])]. *)
Definition ranked_entries (distribution : list (string * num)) : list (string * num) :=
  fold_left (fun sorted x => insert_ranked x sorted) (object_entries distribution) [].

(** services/geminiService.js, [recommendLanguage]: at the history stage
    [const [topLang, topShare] = ranked[0]] throws a TypeError when the
    distribution has no property. *)
Definition recommendLanguage (request : LanguageRequest) : M num LanguageRecommendation :=
  if text_truthy (preferredLanguage request) then
    ret {| mode := "single";
           primary := default "" (preferredLanguage request);
           secondary := None;
           reason := "user-preference";
           sources := ["preference"%string] |}
  else
    let captionDetection :=
      if caption_truthy (captionText request)
      then detectLanguageFromCaption (captionText request) else None in
    let sources : list string :=
      match captionDetection with Some _ => ["caption"%string] | None => [] end in
    let! distribution := detectLanguageDistributionForUser (req_userId request) 50 in
    let sources : list string :=
      match distribution with Some _ => sources ++ ["history"%string] | None => sources end in
    match captionDetection with
    | Some detection =>
        ret {| mode := "single"; primary := isoCode detection; secondary := None;
               reason := "caption-detected"; sources := sources |}
    | None =>
        if text_truthy (imageLanguageHint request) then
          ret {| mode := "single";
                 primary := default "" (imageLanguageHint request);
                 secondary := None;
                 reason := "image-detected";
                 sources := sources ++ ["image"%string] |}
        else
          match distribution with
          | Some distribution =>
              match ranked_entries distribution with
              | (topLang, topShare) :: rest =>
                  let secondLang := option_map fst (hd_error rest) in
                  let secondShare :=
                    match hd_error rest with
                    | Some second => if n_truthy (snd second) then snd second else n_ofZ 0
                    | None => n_ofZ 0
                    end in
                  if n_ge topShare (n_dec 7 1) then
                    ret {| mode := "single"; primary := topLang; secondary := None;
                           reason := "audience-majority"; sources := sources |}
                  else if n_ge topShare (n_dec 5 1) && n_ge secondShare (n_dec 2 1) then
                    ret {| mode := "bilingual"; primary := topLang;
                           secondary := secondLang;
                           reason := "audience-mixed"; sources := sources |}
                  else
                    ret {| mode := "single"; primary := topLang; secondary := None;
                           reason := "audience-default"; sources := sources |}
              | [] =>
                  throw "undefined is not iterable (cannot read property Symbol(Symbol.iterator))"
              end
          | None =>
              ret {| mode := "single";
                     primary := default DEFAULT_LANGUAGE (fallbackLanguage request);
                     secondary := None;
                     reason := "fallback";
                     sources := sources |}
          end
    end.

End LanguageAdvisor.

(* ===================================================================== *)
(** * Concrete collaborators and worlds for the examples *)
(* ===================================================================== *)

(** Rounding to two decimals, halves away from zero: the rounding of
    PostgreSQL's [numeric] and, on exact values, of [toFixed(2)]. *)
Definition Q_round2 (q : Q) : Z :=
  if Qle_bool 0 q then Qfloor (q * 100 + (1 # 2))%Q
  else (- Qfloor (- q * 100 + (1 # 2))%Q)%Z.

(** [DECIMAL(3,2)] on exact numbers: two decimals, and an absolute value
    below 10 after rounding. *)
Definition Q_decimal_3_2 (q : Q) : option Q :=
  let r := Q_round2 q in
  if (Z.abs r <? 1000)%Z then Some (r # 100)%Q else None.

(** The columns on exact numbers.  Only numbers are bound to the decimal
    and integer columns and only strings to the name in the examples; other
    parameters are rejected here. *)
Definition exact_columns : ColumnTypes Q :=
  {| pg_decimal_3_2 :=
       fun v => match v with VNum q => Q_decimal_3_2 q | _ => None end;
     pg_varchar_100 :=
       fun v =>
         match v with
         | VStr s => if (String.length s <=? 100)%nat then Some s else None
         | _ => None
         end;
     pg_integer :=
       fun v =>
         match v with
         | VNum q =>
             if (Zpos (Qden (Qred q)) =? 1)%Z && (Z.abs (Qnum (Qred q)) <? 2 ^ 31)%Z
             then Some (Qnum (Qred q)) else None
         | _ => None
         end |}.

(** An oracle that always proposes the same profile. *)
Definition steady_oracle : Oracle Q :=
  {| textModel := true;
     refinementReply :=
       fun _ _ _ =>
         [ FieldLine "FORMALITY" (Some (7 # 10)%Q);
           FieldLine "HUMOR" (Some (4 # 10)%Q);
           FieldLine "ENTHUSIASM" (Some (6 # 10)%Q);
           FieldLine "EMOTIONAL_TONE" (Some (9 # 10)%Q);
           ReasoningLine "REASONING: closer to the feedback" ] |}.

(** An identifier that recognises no language, and one that takes every
    text of three characters or more for English. *)
Definition silent_identifier : LanguageIdentifier :=
  {| sanitizeText := fun t => t; franc := fun _ => "und" |}.

Definition english_identifier : LanguageIdentifier :=
  {| sanitizeText := fun t => t; franc := fun _ => "eng" |}.

(** Detectors that see no emoji and no phrase. *)
Definition plain_detectors : MemoryDetectors Q :=
  {| emojiCount := fun _ => 0%nat;
     extractPhrases := fun _ => [];
     detectStructure :=
       fun _ => {| hasEmojisAtEnd := false; startsWithQuote := false;
                   containsLineBreaks := false; firstSentenceLength := 0 |};
     toFixed2 := fun q => (Q_round2 q # 100)%Q |}.

Definition empty_store {num} : Store num :=
  {| voice_profiles := ∅; content_analysis := []; voice_feedback := [];
     voice_training_sessions := []; user_preferences := ∅; saved_posts := [];
     caption_history := [] |}.

(** A world with a given store and schedule of failures, and nothing logged. *)
Definition world_of {num} (s : Store num) (f : list (option string)) : World num :=
  {| store := s; calls := []; faults := f; console := []; random30 := [] |}.

(** A vector from its eight dimensions, in the order of the columns. *)
Definition vector {num} (a b c d e f g h : num) : VoiceVector num :=
  {| v_formality := a; v_humor := b; v_enthusiasm := c; v_professionalism := d;
     v_creativity := e; v_emotional_tone := f; v_confidence := g; v_warmth := h |}.

(** A store that holds only saved posts. *)
Definition store_with_posts {num} (posts : list SavedPost) : Store num :=
  {| voice_profiles := ∅; content_analysis := []; voice_feedback := [];
     voice_training_sessions := []; user_preferences := ∅; saved_posts := posts;
     caption_history := [] |}.

(** A post of user 1 saved in a language, with no caption. *)
Definition post_in (lang : string) : SavedPost :=
  {| sp_user_id := 1; sp_caption := None; sp_language := Some lang |}.

(** A post of user 1 saved with the language ["__proto__"] and a caption too
    short for any language to be detected in it. *)
Definition proto_post : SavedPost :=
  {| sp_user_id := 1; sp_caption := Some (js "ok"); sp_language := Some "__proto__"%string |}.

(** A store in which user 1 has a row of preferences with a given emoji
    level and nothing else. *)
Definition store_with_emoji_level (level : Q) : Store Q :=
  {| voice_profiles := ∅; content_analysis := []; voice_feedback := [];
     voice_training_sessions := [];
     user_preferences :=
       {[ 1%nat :=
            {| up_preferred_tone := None; up_emoji_level := Some level;
               up_common_phrases := None; up_disliked_phrases := None;
               up_caption_length_preference := None; up_language_preference := None;
               up_caption_structure := None |} ]};
     saved_posts := []; caption_history := [] |}.

(** A profile of user 1 with a name of its own and an emotional tone of
    0.8, and a store that holds it. *)
Definition campaign_profile : VoiceProfileRow Q :=
  {| vp_user_id := 1; vp_profile_name := "Summer campaign";
     vp_vector := (vector (1 # 2) (1 # 2) (1 # 2) (1 # 2) (1 # 2) (8 # 10) (1 # 2) (1 # 2))%Q;
     vp_is_active := true |}.

Definition campaign_store : Store Q :=
  {| voice_profiles := {[ 1%nat := campaign_profile ]};
     content_analysis := []; voice_feedback := []; voice_training_sessions := [];
     user_preferences := ∅; saved_posts := []; caption_history := [] |}.

(** A request of user 1 with a caption and nothing else. *)
Definition request_of (captionText : option jsstring) : LanguageRequest :=
  {| req_userId := Some 1%nat; captionText := captionText; preferredLanguage := None;
     imageLanguageHint := None; fallbackLanguage := None |}.

(** A store that knows user 1: a profile (humor 0.9, the rest 0.5) and six
    analysed captions. *)
Definition seasoned_store : Store Q :=
  {| voice_profiles :=
       {[ 1%nat :=
            {| vp_user_id := 1; vp_profile_name := "Default Profile";
               vp_vector :=
                 (vector (1 # 2) (9 # 10) (1 # 2) (1 # 2) (1 # 2) (1 # 2) (1 # 2) (1 # 2))%Q;
               vp_is_active := true |} ]};
     content_analysis :=
       repeat
         {| ca_user_id := 1; ca_content_type := "caption";
            ca_content_text := js "golden hour";
            ca_analyzed :=
              (vector (1 # 2) (1 # 2) (1 # 2) (1 # 2) (1 # 2) (1 # 2) (1 # 2) (1 # 2))%Q;
            ca_analysis_confidence := (1 # 2)%Q |}
         6;
     voice_feedback := [];
     voice_training_sessions := [];
     user_preferences := ∅;
     saved_posts := [];
     caption_history := [] |}.

(** A store that knows user 1 a little: the same profile and four analysed
    captions. *)
Definition novice_store : Store Q :=
  {| voice_profiles := voice_profiles seasoned_store;
     content_analysis := firstn 4 (content_analysis seasoned_store);
     voice_feedback := [];
     voice_training_sessions := [];
     user_preferences := ∅;
     saved_posts := [];
     caption_history := [] |}.

(* ===================================================================== *)
(** * The specification's words, for comparison with the code *)
(* ===================================================================== *)

(** The property of [voiceData] read for a dimension. *)
Definition data_key (d : Dimension) : string :=
  match d with
  | formality => "formality"
  | humor => "humor"
  | enthusiasm => "enthusiasm"
  | professionalism => "professionalism"
  | creativity => "creativity"
  | emotional_tone => "emotionalTone"
  | confidence => "confidence"
  | warmth => "warmth"
  end.

Section SpecWords.
Context {num : Type} `{JsNumber num}.

Definition all_dimensions : list Dimension :=
  [formality; humor; enthusiasm; professionalism;
   creativity; emotional_tone; confidence; warmth].

(** The labels of a dimension in the table of
    [generateConsistencyRecommendations]. *)
Definition label_of (d : Dimension) : DimensionLabel :=
  match d with
  | formality =>
      {| key := formality; profileLabel := "Formality"; contentLabel := "Formal" |}
  | humor =>
      {| key := humor; profileLabel := "Humor"; contentLabel := "Humorous" |}
  | enthusiasm =>
      {| key := enthusiasm; profileLabel := "Enthusiasm"; contentLabel := "Enthusiastic" |}
  | professionalism =>
      {| key := professionalism; profileLabel := "Professionalism";
         contentLabel := "Professional" |}
  | creativity =>
      {| key := creativity; profileLabel := "Creativity"; contentLabel := "Creative" |}
  | emotional_tone =>
      {| key := emotional_tone; profileLabel := "Emotional Tone";
         contentLabel := "Emotional" |}
  | confidence =>
      {| key := confidence; profileLabel := "Confidence"; contentLabel := "Confident" |}
  | warmth =>
      {| key := warmth; profileLabel := "Warmth"; contentLabel := "Warm" |}
  end.

(** "absolute delta": |profile[d] − analyzed[d]|. *)
Definition spec_delta (profile analyzed : VoiceVector num) (d : Dimension) : num :=
  n_abs (n_sub (vget profile d) (vget analyzed d)).

(** "direction is "more" if analyzed > profile else "less"". *)
Definition spec_direction (profile analyzed : VoiceVector num) (d : Dimension) : string :=
  if n_gt (vget analyzed d) (vget profile d) then "more" else "less".

(** The entry emitted for a dimension. *)
Definition spec_entry (profile analyzed : VoiceVector num) (d : Dimension)
  : Recommendation num :=
  {| dimension := profileLabel (label_of d);
     difference := n_round (n_mul (spec_delta profile analyzed d) (n_ofZ 100));
     suggestion :=
       "Consider making the content " +:+ spec_direction profile analyzed d +:+ " "
         +:+ toLowerCase (contentLabel (label_of d))
         +:+ " to better match your brand voice" |}.

(** "for each dimension whose absolute delta exceeds threshold, emit ...;
    dimensions within threshold produce no entry", in the fixed order of the
    dimensions. *)
Definition spec_recommend (profile analyzed : VoiceVector num) (threshold : num)
  : list (Recommendation num) :=
  map (spec_entry profile analyzed)
    (List.filter (fun d => n_gt (spec_delta profile analyzed d) threshold) all_dimensions).

(** "If the top share ≥ 0.7 → single, reason audience-majority.  Else if top
    share ≥ 0.5 AND the second-ranked share ≥ 0.2 → bilingual {primary: top,
    secondary: second}, reason audience-mixed.  Else → single primary = top
    language, reason audience-default." *)
Definition spec_history_stage (top : string * num) (second : option (string * num))
  (sources : list string) : LanguageRecommendation :=
  if n_ge (snd top) (n_dec 7 1) then
    {| mode := "single"; primary := fst top; secondary := None;
       reason := "audience-majority"; sources := sources |}
  else if n_ge (snd top) (n_dec 5 1)
          && match second with
             | Some second => n_ge (snd second) (n_dec 2 1)
             | None => false
             end then
    {| mode := "bilingual"; primary := fst top; secondary := option_map fst second;
       reason := "audience-mixed"; sources := sources |}
  else
    {| mode := "single"; primary := fst top; secondary := None;
       reason := "audience-default"; sources := sources |}.

(** What the comparison with 0.2 needs of the arithmetic: neither zero nor a
    falsy share (zero or NaN) reaches 0.2. *)
Definition share_laws : Prop :=
  n_ge (n_ofZ 0) (n_dec 2 1) = false
  /\ forall s, n_truthy s = false -> n_ge s (n_dec 2 1) = false.
End SpecWords.

Arguments share_laws num {_}.

(** Entries in the order of a ranking: each share at least the next. *)
Definition share_ge (a b : string * Q) : Prop := (snd b <= snd a)%Q.

(** What caption detection yields for a request. *)
Definition caption_stage (identifier : LanguageIdentifier) (request : LanguageRequest)
  : option Detection :=
  if caption_truthy (captionText request)
  then detectLanguageFromCaption identifier (captionText request) else None.

(** A double that lies in [0,1]. *)
Definition in_unit_f64 (x : float) : Prop :=
  (0 <=? x)%float = true /\ (x <=? 1)%float = true.

(** The specification's computeConsistency in exact arithmetic, written
    with the rationals of the Standard Library: "for each of the 8
    dimensions, score = max(0, 1 − |profile[d] − analyzed[d]|); result = mean
    of the 8 per-dimension scores, rounded to 2 decimal places" (to the
    nearest hundredth, a half upwards). *)
Definition exact_consistency (profile analyzed : VoiceVector Q) : Q :=
  let score d := Qmax 0 (1 - Qabs (vget profile d - vget analyzed d)) in
  let mean :=
    ((score formality + score humor + score enthusiasm + score professionalism
      + score creativity + score emotional_tone + score confidence + score warmth) / 8)%Q in
  (Qfloor (mean * 100 + (1 # 2)) # 100)%Q.

(** The rational a finite double stands for: [±m·2^e]. *)
Definition f64_value (x : float) : Q :=
  match Prim2SF x with
  | S754_finite s m e =>
      if (0 <=? e)%Z then inject_Z (cond_Zopp s (Z.pos m) * 2 ^ e)
      else (cond_Zopp s (Z.pos m) # Z.to_pos (2 ^ (- e)))%Q
  | _ => 0%Q
  end.

Definition vector_value (v : VoiceVector float) : VoiceVector Q :=
  {| v_formality := f64_value (v_formality v);
     v_humor := f64_value (v_humor v);
     v_enthusiasm := f64_value (v_enthusiasm v);
     v_professionalism := f64_value (v_professionalism v);
     v_creativity := f64_value (v_creativity v);
     v_emotional_tone := f64_value (v_emotional_tone v);
     v_confidence := f64_value (v_confidence v);
     v_warmth := f64_value (v_warmth v) |}.

(** A profile and an analysed vector whose mean score, 0.785, lies half-way
    between two hundredths. *)
Definition halfway_profile : VoiceVector float :=
  {| v_formality := 1; v_humor := 1; v_enthusiasm := 0.5; v_professionalism := 0.5;
     v_creativity := 0.5; v_emotional_tone := 0.5; v_confidence := 0.5;
     v_warmth := 0.5 |}%float.

Definition halfway_analysis : VoiceVector float :=
  {| v_formality := 0.08; v_humor := 0.2; v_enthusiasm := 0.5; v_professionalism := 0.5;
     v_creativity := 0.5; v_emotional_tone := 0.5; v_confidence := 0.5;
     v_warmth := 0.5 |}%float.

(* ===================================================================== *)
(** * Invariants *)
(* ===================================================================== *)

(** The calls an operation added to the log, given the worlds before and
    after it. *)
Definition new_calls {num} (w w' : World num) : list (Call * option string) :=
  drop (length (calls w)) (calls w').

(** An entry of a merged list: trimmed and not empty. *)
Definition entry_ok (e : jsstring) : Prop := trim e = e /\ e <> [].

(** The step of the loops of [mergeUniqueLists] and [mergeLists]. *)
Definition merge_step (set : list jsstring) (item : jsstring) : list jsstring :=
  if str_truthy item && (0 <? length (trim item))%nat
  then set_add set (trim item) else set.

(** What the specification asks of a phrase list: at most [limit] entries,
    none blank (empty once trimmed), none twice. *)
Definition phrase_list_within (limit : nat) (l : list jsstring) : Prop :=
  (length l <= limit)%nat /\ NoDup l /\ Forall (fun e => trim e <> []) l.

(** The invariant of user_preferences: both phrase lists of every stored
    profile are within ten entries, without blanks and duplicates (a NULL
    column reads as the empty list). *)
Definition store_lists_ok {num} (s : Store num) : Prop :=
  forall uid row, user_preferences s !! uid = Some row ->
    phrase_list_within 10 (default [] (up_common_phrases row))
    /\ phrase_list_within 10 (default [] (up_disliked_phrases row)).

(** ** Bounds on binary64 values *)

(** A mantissa being shifted, with the bits shifted out so far, is at or below
    [K], and strictly below when a bit that was shifted out is set. *)
Definition shr_below (K : Z) (r : shr_record) : Prop :=
  (0 <= shr_m r /\ shr_m r <= K
   /\ (loc_of_shr_record r <> loc_Exact -> shr_m r < K))%Z.

(** A double in [0, B]: a zero, or a positive double [m·2^e] of value at
    most [B]. *)
Definition sf_within (B : Z) (x : spec_float) : Prop :=
  match x with
  | S754_zero _ => True
  | S754_finite false m e => (e <= 0 /\ Z.pos m <= B * 2 ^ (- e))%Z
  | _ => False
  end.

(** A double at most [B]: as above, or a negative double or -infinity. *)
Definition sf_below (B : Z) (x : spec_float) : Prop :=
  match x with
  | S754_zero _ => True
  | S754_finite false m e => (e <= 0 /\ Z.pos m <= B * 2 ^ (- e))%Z
  | S754_finite true _ _ => True
  | S754_infinity s => s = true
  | S754_nan => False
  end.

(** A double of sign [s] that is not NaN. *)
Definition sf_signed (s : bool) (x : spec_float) : Prop :=
  match x with
  | S754_zero s' | S754_infinity s' | S754_finite s' _ _ => s' = s
  | S754_nan => False
  end.

(** Neither NaN nor an infinity. *)
Definition sf_finite (x : spec_float) : Prop :=
  match x with
  | S754_zero _ | S754_finite _ _ _ => True
  | _ => False
  end.

(** Every hundredth k/100, k = 0..100, is a double of [0,1]. *)
Definition hundredths_in_unit : bool :=
  forallb
    (fun k =>
       let x := (f64_ofZ (Z.of_nat k) / f64_ofZ 100)%float in
       (0 <=? x)%float && (x <=? 1)%float)
    (seq 0 101).

(** ** What the store holds for a user *)

Section StoredPreferences.
Context {num : Type} `{JsNumber num}.

(** The preferences [getPreferences] hands out for a user when the store
    answers: the user's row with the defaults filled in, or the defaults. *)
Definition stored_preferences (s : Store num) (uid : nat) : Preferences num :=
  match user_preferences s !! uid with
  | None => DEFAULT_PREFERENCES
  | Some row =>
      {| preferred_tone := text_or (up_preferred_tone row) "casual";
         emoji_level := default (n_ofZ 2) (up_emoji_level row);
         common_phrases := default [] (up_common_phrases row);
         disliked_phrases := default [] (up_disliked_phrases row);
         caption_length_preference := text_or (up_caption_length_preference row) "medium";
         language_preference := text_or (up_language_preference row) "en";
         caption_structure := default DEFAULT_STRUCTURE (up_caption_structure row) |}
  end.

End StoredPreferences.

(* ===================================================================== *)
(** * Voice analysis: the parser, the store parameters, the consistency route *)
(* ===================================================================== *)

(** The property name of a dimension in a parsed analysis and in a row:
    the entries of the [dimensions] arrays of routes/generate.js. *)
Definition dimension_name (d : Dimension) : string :=
  match d with
  | formality => "formality"
  | humor => "humor"
  | enthusiasm => "enthusiasm"
  | professionalism => "professionalism"
  | creativity => "creativity"
  | emotional_tone => "emotional_tone"
  | confidence => "confidence"
  | warmth => "warmth"
  end.

(** [requiredFields] of [parseVoiceAnalysis]. *)
Definition REQUIRED_FIELDS : list string :=
  ["formality"; "humor"; "enthusiasm"; "professionalism"; "creativity";
   "emotional_tone"; "confidence"; "warmth"; "confidence_score"].

Section VoiceAnalysis.
Context {num : Type} `{JsNumber num} (oracle : Oracle num).

(** One line of the generative model's reply to an analysis request, as
    [parseVoiceAnalysis] reads it: the line split at [':'] into a trimmed key
    and the number [parseFloat] finds in the trimmed second part ([None] when
    that part is missing or empty, or when [parseFloat] finds no number). *)
Definition AnalysisLine : Type := string * option num.

(** The reply of the generative model to the analysis prompt built from the
    content text, the content type and the language. *)
Variable analysisReply : jsstring -> string -> string -> list AnalysisLine.

(** The numbers a reply gives for a field, in the order of its lines: the
    ones of the lines whose key, lower-cased, is the field. *)
Definition readings (lines : list AnalysisLine) (field : string) : list num :=
  omap
    (fun line : AnalysisLine =>
       match line with
       | (key, Some numValue) =>
           if negb (String.eqb key "") && String.eqb (toLowerCase key) field
           then Some numValue else None
       | (_, None) => None
       end)
    lines.

(** services/geminiService.js, [parseVoiceAnalysis]: every number read is
    stored as it is under the lower-cased key, and a required field that is
    still undefined becomes 0.5. *)
Definition parseVoiceAnalysis (lines : list AnalysisLine) : gmap string num :=
  let analysis :=
    fold_left
      (fun (analysis : gmap string num) (line : AnalysisLine) =>
         match line with
         | (key, Some numValue) =>
             if negb (String.eqb key "")
             then object_assign analysis (toLowerCase key) numValue
             else analysis
         | (_, None) => analysis
         end)
      lines ∅ in
  fold_left
    (fun (analysis : gmap string num) field =>
       match analysis !! field with
       | None => <[field := n_dec 5 1]> analysis
       | Some _ => analysis
       end)
    REQUIRED_FIELDS analysis.

(** services/geminiService.js, [analyzeContentVoice]: any failure of the
    generative model is logged and thrown again as one fixed error. *)
Definition analyzeContentVoice (contentText : jsstring) (contentType language : string)
  : M num (gmap string num) :=
  if negb (textModel oracle)
  then throw "Gemini text client not initialized. Please check your API key."
  else
    try_catch
      (let! text :=
         external GenerateContent
           (fun s => Ok (analysisReply contentText contentType language, s)) in
       ret (parseVoiceAnalysis text))
      (fun error =>
         console_log "GeminiService: Error in analyzeContentVoice:" ;;;
         throw "Failed to analyze content voice characteristics.").

(** The numeric parameters [$5..$13] of the statement of
    [storeContentAnalysis]; a property that [analysisData] lacks is bound as
    NULL ([None]). *)
Record ContentAnalysisValues := {
  cv_formality : option num;
  cv_humor : option num;
  cv_enthusiasm : option num;
  cv_professionalism : option num;
  cv_creativity : option num;
  cv_emotional_tone : option num;
  cv_confidence : option num;
  cv_warmth : option num;
  cv_analysis_confidence : num
}.

(** db/database.js, [storeContentAnalysis]: the array [values], from the
    numeric properties of [analysisData].  POST /analyze-voice passes
    [{ contentType, contentText, ...voiceAnalysis }], whose numeric
    properties are those of the parsed analysis. *)
Definition storeContentAnalysis_values (analysisData : gmap string num)
  : ContentAnalysisValues :=
  {| cv_formality := analysisData !! "formality";
     cv_humor := analysisData !! "humor";
     cv_enthusiasm := analysisData !! "enthusiasm";
     cv_professionalism := analysisData !! "professionalism";
     cv_creativity := analysisData !! "creativity";
     cv_emotional_tone := analysisData !! "emotionalTone";
     cv_confidence := analysisData !! "confidence";
     cv_warmth := analysisData !! "warmth";
     cv_analysis_confidence :=
       match analysisData !! "confidence" with
       | Some c => if n_truthy c then c else n_ofZ 0
       | None => n_ofZ 0
       end |}.

(** The parameter bound to the column [analyzed_<dimension>]. *)
Definition analyzed_value (values : ContentAnalysisValues) (d : Dimension) : option num :=
  match d with
  | formality => cv_formality values
  | humor => cv_humor values
  | enthusiasm => cv_enthusiasm values
  | professionalism => cv_professionalism values
  | creativity => cv_creativity values
  | emotional_tone => cv_emotional_tone values
  | confidence => cv_confidence values
  | warmth => cv_warmth values
  end.

(** The eight dimensions of a parsed analysis, as
    [calculateConsistencyScore] and [generateConsistencyRecommendations]
    read them ([contentAnalysis[dimension]]).  [parseVoiceAnalysis] defines
    all eight, so the value given here to a missing property is never
    used. *)
Definition analysis_vector (contentAnalysis : gmap string num) : VoiceVector num :=
  let read d := default (n_dec 5 1) (contentAnalysis !! dimension_name d) in
  {| v_formality := read formality;
     v_humor := read humor;
     v_enthusiasm := read enthusiasm;
     v_professionalism := read professionalism;
     v_creativity := read creativity;
     v_emotional_tone := read emotional_tone;
     v_confidence := read confidence;
     v_warmth := read warmth |}.

(** The body of POST /validate-consistency. *)
Record ConsistencyBody := {
  vc_contentText : option jsstring;
  vc_contentType : option string;
  vc_language : option string
}.

(** The property [consistency] of its answer. *)
Record ConsistencyReport := {
  rep_score : num;
  rep_profile : VoiceProfileRow num;
  rep_contentAnalysis : gmap string num;
  rep_recommendations : list (Recommendation num)
}.

(** Its response: the HTTP status and, on success, the report. *)
Record ConsistencyResponse := {
  vc_status : nat;
  vc_consistency : option ConsistencyReport
}.

(** routes/generate.js, POST /validate-consistency. *)
Definition postValidateConsistency (userId : nat) (body : ConsistencyBody)
  : M num ConsistencyResponse :=
  try_catch
    (let contentType := default "caption"%string (vc_contentType body) in
     let language := default "English"%string (vc_language body) in
     match vc_contentText body with
     | Some contentText =>
         if str_truthy contentText
         then
           let! voiceProfile := getVoiceProfile userId in
           match voiceProfile with
           | None => ret {| vc_status := 404; vc_consistency := None |}
           | Some voiceProfile =>
               let! contentAnalysis :=
                 analyzeContentVoice contentText contentType language in
               let consistencyScore :=
                 calculateConsistencyScore (vp_vector voiceProfile)
                   (analysis_vector contentAnalysis) in
               ret {| vc_status := 200;
                      vc_consistency :=
                        Some {| rep_score := consistencyScore;
                                rep_profile := voiceProfile;
                                rep_contentAnalysis := contentAnalysis;
                                rep_recommendations :=
                                  generateConsistencyRecommendations
                                    (vp_vector voiceProfile)
                                    (analysis_vector contentAnalysis) |} |}
           end
         else ret {| vc_status := 400; vc_consistency := None |}
     | None => ret {| vc_status := 400; vc_consistency := None |}
     end)
    (fun error =>
       console_log "Generate Route: Validate consistency error:" ;;;
       ret {| vc_status := 500; vc_consistency := None |}).

End VoiceAnalysis.

Arguments ContentAnalysisValues num : clear implicits.
Arguments ConsistencyReport num : clear implicits.
Arguments ConsistencyResponse num : clear implicits.

(* ===================================================================== *)
(** * Parsers of the generative model's replies *)
(* ===================================================================== *)

(** [String.prototype.split(separator)] for a separator of one code unit;
    [piece] holds, last first, the code units read since the last
    separator. *)
Fixpoint split_from (separator : N) (piece : jsstring) (s : jsstring) : list jsstring :=
  match s with
  | [] => [rev piece]
  | c :: s' =>
      if (c =? separator)%N then rev piece :: split_from separator [] s'
      else split_from separator (c :: piece) s'
  end.

Definition js_split (separator : N) (s : jsstring) : list jsstring :=
  split_from separator [] s.

(** [\d]. *)
Definition is_digit (c : N) : bool := ((48 <=? c) && (c <=? 57))%N.

(** [/^\d{2}:\d{2}$/.test(time)]. *)
Definition is_time (time : jsstring) : bool :=
  match time with
  | [a; b; colon; c; d] =>
      is_digit a && is_digit b && (colon =? 58)%N && is_digit c && is_digit d
  | _ => false
  end.

(** services/geminiService.js, [parseOptimalTimes]. *)
Definition parseOptimalTimes (responseText : jsstring) : list jsstring :=
  let times := List.filter is_time (map trim (js_split 44 responseText)) in
  if (length times =? 0)%nat
  then [js "09:00"; js "13:00"; js "19:00"]
  else slice0 times 3.

(** LineTerminator of ECMAScript: what [.] does not match. *)
Definition is_line_terminator (c : N) : bool :=
  ((c =? 10) || (c =? 13) || (c =? 8232) || (c =? 8233))%N.

(** The longest prefix [\d*] leaves this rest. *)
Fixpoint skip_digits (s : jsstring) : jsstring :=
  match s with
  | c :: s' => if is_digit c then skip_digits s' else s
  | [] => []
  end.

(** The longest prefix matched by [.*]. *)
Fixpoint take_line (s : jsstring) : jsstring :=
  match s with
  | c :: s' => if is_line_terminator c then [] else c :: take_line s'
  | [] => []
  end.

(** The match of a line against the pattern of a numbered item (digits, a
    dot, blanks [\s*], then a group [.*]): the text of the group, [None]
    when the line does not start with digits and a dot.  [\s] is what
    [trim] strips. *)
Definition numbered_item (line : jsstring) : option jsstring :=
  match line with
  | c :: _ =>
      if is_digit c
      then
        match skip_digits line with
        | dot :: rest =>
            if (dot =? 46)%N then Some (take_line (trimStart rest)) else None
        | [] => None
        end
      else None
  | [] => None
  end.

(** services/geminiService.js, [parseCTAResponse]: the items of a numbered
    list, or else the lines that are not blank. *)
Definition parseCTAResponse (responseText : jsstring) : list jsstring :=
  let ctas :=
    fold_left
      (fun ctas line =>
         let trimmedLine := trim line in
         match numbered_item trimmedLine with
         | Some item => if str_truthy item then ctas ++ [trim item] else ctas
         | None => ctas
         end)
      (js_split 10 responseText) [] in
  if (length ctas =? 0)%nat
  then List.filter (fun line => (0 <? length line)%nat)
         (map trim (js_split 10 responseText))
  else ctas.

(** services/geminiService.js, [parseRewrittenCaptions]: the same body under
    another name. *)
Definition parseRewrittenCaptions (responseText : jsstring) : list jsstring :=
  let captions :=
    fold_left
      (fun captions line =>
         let trimmedLine := trim line in
         match numbered_item trimmedLine with
         | Some item => if str_truthy item then captions ++ [trim item] else captions
         | None => captions
         end)
      (js_split 10 responseText) [] in
  if (length captions =? 0)%nat
  then List.filter (fun line => (0 <? length line)%nat)
         (map trim (js_split 10 responseText))
  else captions.

(* ===================================================================== *)
(** * The legacy parsers of a generated caption *)
(* ===================================================================== *)

(** [s.startsWith(prefix)]. *)
Fixpoint starts_with (prefix s : jsstring) : bool :=
  match prefix, s with
  | [], _ => true
  | p :: prefix', c :: s' => (p =? c)%N && starts_with prefix' s'
  | _ :: _, [] => false
  end.

(** [s.includes(part)]. *)
Fixpoint includes (part s : jsstring) : bool :=
  starts_with part s
  || match s with
     | [] => false
     | _ :: s' => includes part s'
     end.

(** [\w]. *)
Definition is_word (c : N) : bool :=
  (is_digit c || ((65 <=? c) && (c <=? 90)) || ((97 <=? c) && (c <=? 122)) || (c =? 95))%N.

(** [(s.match(/#\w+/g) || []).map(tag => tag.replace('#', ''))]: the words
    that follow a [#], in order.  [tag] holds, last first, the word
    characters read since the last [#], if nothing but word characters was
    read since. *)
Fixpoint hashtag_words (s : jsstring) (tag : option jsstring) : list jsstring :=
  let found :=
    match tag with
    | Some (c :: t) => [rev (c :: t)]
    | _ => []
    end in
  match s with
  | [] => found
  | c :: s' =>
      match tag with
      | Some t =>
          if is_word c then hashtag_words s' (Some (c :: t))
          else found ++ hashtag_words s' (if (c =? 35)%N then Some [] else None)
      | None => hashtag_words s' (if (c =? 35)%N then Some [] else None)
      end
  end.

(** The text up to the first [']'], when no line terminator comes before
    it. *)
Fixpoint until_close (s : jsstring) : option jsstring :=
  match s with
  | [] => None
  | c :: s' =>
      if (c =? 93)%N then Some []
      else if is_line_terminator c then None
      else option_map (cons c) (until_close s')
  end.

(** The group of the first match of a bracketed text ([\[], a shortest run
    of [.], [\]]) in [s]. *)
Fixpoint first_bracket (s : jsstring) : option jsstring :=
  match s with
  | [] => None
  | c :: s' =>
      if (c =? 91)%N
      then match until_close s' with
           | Some group => Some group
           | None => first_bracket s'
           end
      else first_bracket s'
  end.

(** [tag.replace(/^#/, '')]. *)
Definition strip_hash (tag : jsstring) : jsstring :=
  match tag with
  | c :: t => if (c =? 35)%N then t else tag
  | [] => []
  end.

(** What the parsers return. *)
Record CaptionAndHashtags := {
  pr_caption : jsstring;
  pr_hashtags : list jsstring
}.

(** The caption and the hashtags [fallbackParse] falls back to. *)
Definition DEFAULT_CAPTION : jsstring :=
  10024%N :: js " Sharing a moment that matters! What's inspiring you today? "
    ++ [55357%N; 56491%N].

Definition DEFAULT_HASHTAGS : list jsstring :=
  map js ["instagram"; "instagood"; "photooftheday"; "beautiful"; "happy"; "love";
          "lifestyle"; "follow"; "like"; "daily"]%string.

(** The variables of the loop of [fallbackParse]. *)
Record FallbackState := {
  fs_caption : jsstring;
  fs_hashtags : list jsstring;
  fs_foundHashtags : bool
}.

Section LegacyParsers.
(** [String.prototype.toLowerCase] on arbitrary text is left open. *)
Variable lowerCase : jsstring -> jsstring.

(** services/geminiService.js, [fallbackParse]. *)
Definition fallbackParse (response : jsstring) : CaptionAndHashtags :=
  let lines := List.filter (fun line => str_truthy (trim line)) (js_split 10 response) in
  let final :=
    fold_left
      (fun st line =>
         let trimmedLine := trim line in
         if starts_with (js "#") trimmedLine
         then {| fs_caption := fs_caption st;
                 fs_hashtags := fs_hashtags st ++ hashtag_words trimmedLine None;
                 fs_foundHashtags := true |}
         else if negb (fs_foundHashtags st) && (10 <? length trimmedLine)%nat
                 && negb (includes (js ":") trimmedLine)
                 && negb (includes (js "caption") (lowerCase trimmedLine))
                 && negb (includes (js "hashtags") (lowerCase trimmedLine))
         then {| fs_caption := trimmedLine;
                 fs_hashtags := fs_hashtags st;
                 fs_foundHashtags := fs_foundHashtags st |}
         else st)
      lines
      {| fs_caption := []; fs_hashtags := []; fs_foundHashtags := false |} in
  let caption := if str_truthy (fs_caption final) then fs_caption final else DEFAULT_CAPTION in
  let hashtags :=
    if (length (fs_hashtags final) =? 0)%nat then DEFAULT_HASHTAGS else fs_hashtags final in
  {| pr_caption := caption; pr_hashtags := slice0 hashtags 10 |}.

(** services/geminiService.js, [parseResponse]. *)
Definition parseResponse (response : jsstring) : CaptionAndHashtags :=
  let lines := List.filter (fun line => str_truthy (trim line)) (js_split 10 response) in
  let final :=
    fold_left
      (fun (st : jsstring * list jsstring) line =>
         if starts_with (js "CAPTION:") line
         then (trim (drop 8 line), snd st)
         else if starts_with (js "HASHTAGS:") line
         then
           let hashtagString := trim (drop 9 line) in
           let group :=
             match first_bracket hashtagString with
             | Some group => group
             | None => hashtagString
             end in
           if str_truthy group
           then (fst st,
                 List.filter (fun tag => (0 <? length tag)%nat)
                   (map (fun tag => strip_hash (trim tag)) (js_split 44 group)))
           else st
         else st)
      lines ([], []) in
  let caption := fst final in
  let hashtags := snd final in
  if negb (str_truthy caption) || (length hashtags =? 0)%nat
  then fallbackParse response
  else {| pr_caption := caption; pr_hashtags := slice0 hashtags 10 |}.

End LegacyParsers.

(** A hashtag as [fallbackParse] returns it: a run of word characters that
    is not empty. *)
Definition hashtag_ok (tag : jsstring) : Prop :=
  tag <> [] /\ Forall (fun c => is_word c = true) tag.

(* ===================================================================== *)
(** * Operations of one user *)
(* ===================================================================== *)

(** The user a call is about: the [user_id] its statement is bound to; the
    request to the generative model is about no user. *)
Definition call_user (c : Call) : option nat :=
  match c with
  | GetContentAnalysisHistory userId _ | GetVoiceFeedbackHistory userId _
  | GetVoiceProfile userId | UpsertVoiceProfile userId | StoreVoiceFeedback userId
  | RecordTrainingSession userId | GetSavedPosts userId _
  | SelectUserPreferences userId | UpsertUserPreferences userId
  | InsertCaptionHistory userId => Some userId
  | GenerateContent => None
  end.

(** The rows of the other users are the same in [s] and [s']. *)
Definition others_kept {num} (uid : nat) (s s' : Store num) : Prop :=
  (forall other, other <> uid -> voice_profiles s' !! other = voice_profiles s !! other)
  /\ (forall other, other <> uid ->
        user_preferences s' !! other = user_preferences s !! other)
  /\ List.filter (fun r => negb (Nat.eqb (ca_user_id r) uid)) (content_analysis s')
     = List.filter (fun r => negb (Nat.eqb (ca_user_id r) uid)) (content_analysis s)
  /\ List.filter (fun r => negb (Nat.eqb (vf_user_id r) uid)) (voice_feedback s')
     = List.filter (fun r => negb (Nat.eqb (vf_user_id r) uid)) (voice_feedback s)
  /\ List.filter (fun r => negb (Nat.eqb (ts_user_id r) uid)) (voice_training_sessions s')
     = List.filter (fun r => negb (Nat.eqb (ts_user_id r) uid)) (voice_training_sessions s)
  /\ List.filter (fun r => negb (Nat.eqb (sp_user_id r) uid)) (saved_posts s')
     = List.filter (fun r => negb (Nat.eqb (sp_user_id r) uid)) (saved_posts s)
  /\ List.filter (fun r => negb (Nat.eqb (ch_user_id r) uid)) (caption_history s')
     = List.filter (fun r => negb (Nat.eqb (ch_user_id r) uid)) (caption_history s).

(** From [w] to [w'] only calls about the user [uid] (or about no user) were
    made, and the rows of the other users were kept. *)
Definition confined {num} (uid : nat) (w w' : World num) : Prop :=
  (exists made,
      calls w' = calls w ++ made
      /\ Forall (fun c => call_user (fst c) = Some uid \/ call_user (fst c) = None) made)
  /\ others_kept uid (store w) (store w').

(** An operation that is confined to a user, in whatever world it runs. *)
Definition op_confined {num A} (uid : nat) (m : M num A) : Prop :=
  forall w, confined uid w (snd (m w)).

(* ===================================================================== *)
(** * Proof automation *)
(* ===================================================================== *)

(** Runs an operation symbolically: one case per outcome of every external
    call and of every test on the store. *)
Ltac exec_calls :=
  repeat (cbn [fst snd store calls faults console random30 after_call negb];
          match goal with
          | |- context [next_fault ?x] => destruct (next_fault x) eqn:?
          | |- context [(?a <? ?b)%nat] => destruct (a <? b)%nat eqn:?
          | |- context [sql_upsert_voice_profile ?c ?u ?v ?s] =>
              destruct (sql_upsert_voice_profile c u v s) as [[? ?]|?] eqn:?
          | |- context [voice_profiles ?s !! ?u] => destruct (voice_profiles s !! u) eqn:?
          | |- context [user_preferences ?s !! ?u] => destruct (user_preferences s !! u) eqn:?
          | |- context [vp_is_active ?r] => destruct (vp_is_active r) eqn:?
          | |- context [textModel ?o] => destruct (textModel o) eqn:?
          | |- context [match ?x with [] => _ | _ :: _ => _ end] => destruct x eqn:?
          | |- context [if ?b then _ else _] => destruct b eqn:?
          | |- context [match ?x with Some _ => _ | None => _ end] => destruct x eqn:?
          end).

(** Closes a path on which the log holds no failed call of the kind [He]
    speaks of. *)
Ltac no_such_call He :=
  cbn in He; rewrite <- ?app_assoc in He; rewrite ?drop_app_length in He;
  try (rewrite <- (app_nil_r (calls _)) in He at 2; rewrite drop_app_length in He);
  cbn in He;
  repeat (apply elem_of_cons in He as [He|He]; [discriminate He|]);
  apply elem_of_nil in He; contradiction.

(** Closes a path on which the failed call of [He] is the error thrown. *)
Ltac failed_call_is_thrown He :=
  cbn in He; rewrite <- ?app_assoc in He; rewrite ?drop_app_length in He;
  try (rewrite <- (app_nil_r (calls _)) in He at 2; rewrite drop_app_length in He);
  cbn in He;
  repeat (apply elem_of_cons in He as [He|He];
          [first [ discriminate He
                 | injection He; intros; subst; reflexivity ]|]);
  apply elem_of_nil in He; contradiction.

(* ===================================================================== *)
(** * Properties *)
(* ===================================================================== *)

Arguments getPreferences : simpl never.
Arguments mergeUniqueLists : simpl never.
Arguments mergeLists : simpl never.
Arguments external : simpl never.

(** ** The literals of the program on binary64 *)

(** [n_dec] yields the double each decimal literal of the program denotes. *)
Lemma f64_literals :
  (n_dec 5 1 = 0.5 /\ n_dec 3 1 = 0.3 /\ n_dec 7 1 = 0.7 /\ n_dec 2 1 = 0.2
   /\ n_ofZ 0 = 0 /\ n_ofZ 1 = 1 /\ n_ofZ 8 = 8 /\ n_ofZ 100 = 100)%float.
Proof. vm_compute. repeat split; reflexivity. Qed.

(** ** Consistency score *)

(** On doubles of [0,1], [x - x] is [+0]. *)
Lemma f64_sub_self (x : float) : in_unit_f64 x -> (x - x)%float = 0%float.
Proof.
  intros [H0 H1]. apply Prim2SF_inj. rewrite sub_spec.
  rewrite leb_spec in H0, H1.
  destruct (Prim2SF x) as [s | s | | s m e] eqn:E.
  - destruct s; reflexivity.
  - destruct s; cbn in H0, H1; discriminate.
  - cbn in H0; discriminate.
  - unfold SF64sub, SFsub, SFadd, SFopp.
    rewrite Z.min_id.
    unfold shl_align. rewrite Z.sub_diag. cbn [fst].
    destruct s; cbn [negb cond_Zopp Z.opp]; rewrite ?Z.pos_sub_diag; reflexivity.
Qed.

Lemma Q_max_Qmax (a b : Q) : (Q_max a b == Qmax a b)%Q.
Proof.
  unfold Q_max. destruct (Qle_bool a b) eqn:E.
  - apply Qle_bool_iff in E. now rewrite Q.max_r.
  - assert (L : (b <= a)%Q).
    { apply Qlt_le_weak, Qnot_le_lt. intros L. apply Qle_bool_iff in L. congruence. }
    now rewrite Q.max_l.
Qed.

(** On exact rationals the code computes the specification's formula. *)
Lemma Q_consistency_exact (P A : VoiceVector Q) :
  (calculateConsistencyScore P A == exact_consistency P A)%Q.
Proof.
  unfold calculateConsistencyScore, exact_consistency.
  cbn [fold_left length n_add n_sub n_abs n_max n_ofZ n_div n_mul n_round Q_number].
  unfold Q_round. rewrite !Q_max_Qmax.
  change (inject_Z 0) with 0%Q. change (inject_Z 1) with 1%Q.
  change (inject_Z (Z.of_nat 8)) with 8%Q. change (inject_Z 100) with 100%Q.
  match goal with
  | |- (inject_Z (Qfloor ?x) / 100 == Qfloor ?y # 100)%Q =>
      assert (E : (x == y)%Q) by (field; discriminate)
  end.
  rewrite (Qfloor_comp _ _ E). rewrite (Qmake_Qdiv _ 100). reflexivity.
Qed.

Lemma Q_score_bounds (p a : Q) : (0 <= Q_max 0 (1 - Qabs (p - a)) <= 1)%Q.
Proof.
  unfold Q_max. pose proof (Qabs_nonneg (p - a)).
  destruct (Qle_bool 0 (1 - Qabs (p - a))) eqn:E.
  - apply Qle_bool_iff in E. lra.
  - lra.
Qed.

(** Rounding a mean of eight scores to two decimals stays in [0,1]. *)
Lemma Q_round2_unit (t : Q) :
  (0 <= t <= 8)%Q -> (0 <= Q_round (t / 8 * 100) / 100 <= 1)%Q.
Proof.
  intros Ht. unfold Q_round, Qdiv.
  change (/ 8)%Q with (1 # 8)%Q. change (/ 100)%Q with (1 # 100)%Q.
  set (x := (t * (1 # 8) * 100 + (1 # 2))%Q).
  assert (H0 : (Qfloor 0 <= Qfloor x)%Z) by (apply Qfloor_resp_le; subst x; lra).
  assert (H1 : (Qfloor x <= Qfloor (100 + (1 # 2)))%Z)
    by (apply Qfloor_resp_le; subst x; lra).
  change (Qfloor 0) with 0%Z in H0. change (Qfloor (100 + (1 # 2))) with 100%Z in H1.
  rewrite Zle_Qle in H0, H1.
  change (inject_Z 0) with 0%Q in H0. change (inject_Z 100) with 100%Q in H1.
  lra.
Qed.

Lemma Q_total_bounds (P A : VoiceVector Q) (ds : list Dimension) (t : Q) (n : Z) :
  (0 <= t <= inject_Z n)%Q ->
  (0 <= fold_left
          (fun totalScore d => totalScore + Q_max 0 (1 - Qabs (vget P d - vget A d)))
          ds t
     <= inject_Z (n + Z.of_nat (length ds)))%Q.
Proof.
  revert t n. induction ds as [|d ds IH]; intros t n Ht; cbn [fold_left length].
  - rewrite Z.add_0_r. exact Ht.
  - replace (n + Z.of_nat (S (length ds)))%Z with ((n + 1) + Z.of_nat (length ds))%Z by lia.
    apply IH. pose proof (Q_score_bounds (vget P d) (vget A d)).
    rewrite inject_Z_plus. change (inject_Z 1) with 1%Q. lra.
Qed.

Lemma Q_consistency_range (P A : VoiceVector Q) :
  (0 <= calculateConsistencyScore P A <= 1)%Q.
Proof.
  unfold calculateConsistencyScore.
  apply Q_round2_unit.
  exact (Q_total_bounds P A all_dimensions 0 0 (conj (Qle_refl 0) (Qle_refl 0))).
Qed.

Lemma Q_score_self (p : Q) : (Q_max 0 (1 - Qabs (p - p)) == 1)%Q.
Proof.
  assert (E : (Qabs (p - p) == 0)%Q).
  { assert (p - p == 0)%Q as -> by ring. reflexivity. }
  unfold Q_max. destruct (Qle_bool 0 (1 - Qabs (p - p))) eqn:L.
  - rewrite E. ring.
  - exfalso. assert (Qle_bool 0 (1 - Qabs (p - p)) = true); [|congruence].
    apply Qle_bool_iff. rewrite E. lra.
Qed.

Lemma Q_total_self (P : VoiceVector Q) (ds : list Dimension) (t : Q) :
  (fold_left
     (fun totalScore d => totalScore + Q_max 0 (1 - Qabs (vget P d - vget P d))) ds t
   == t + inject_Z (Z.of_nat (length ds)))%Q.
Proof.
  revert t. induction ds as [|d ds IH]; intros t; cbn [fold_left length].
  - change (inject_Z (Z.of_nat 0)) with 0%Q. ring.
  - rewrite IH, Nat2Z.inj_succ, <- Z.add_1_l, inject_Z_plus.
    pose proof (Q_score_self (vget P d)) as E. change (inject_Z 1) with 1%Q. lra.
Qed.

Lemma Q_round2_full (t : Q) : (t == 8)%Q -> (Q_round (t / 8 * 100) / 100 == 1)%Q.
Proof.
  intros E. unfold Q_round.
  assert (F : Qfloor (t / 8 * 100 + (1 # 2)) = 100%Z).
  { rewrite (Qfloor_comp _ (201 # 2)%Q); [reflexivity|]. rewrite E. reflexivity. }
  rewrite F. reflexivity.
Qed.

Lemma Q_consistency_self (P : VoiceVector Q) : (calculateConsistencyScore P P == 1)%Q.
Proof.
  unfold calculateConsistencyScore. apply Q_round2_full.
  exact (Q_total_self P all_dimensions 0).
Qed.

Lemma f64_consistency_self (P : VoiceVector float) :
  (forall d, in_unit_f64 (vget P d)) -> calculateConsistencyScore P P = 1%float.
Proof.
  intros HP. unfold calculateConsistencyScore.
  cbn [fold_left length n_add n_sub n_abs n_max n_ofZ n_div n_mul n_round f64_number].
  rewrite !f64_sub_self by apply HP.
  vm_compute. reflexivity.
Qed.

(** ** Rounding on binary64 *)

Section Binary64Bounds.
Local Open Scope Z_scope.

(** A mantissa of [d] binary digits is at least [2^(d-1)]. *)
Lemma digits2_pos_lower (p : positive) : 2 ^ (Z.pos (digits2_pos p) - 1) <= Z.pos p.
Proof.
  induction p as [p IH | p IH |]; cbn [digits2_pos].
  - rewrite Pos2Z.inj_succ.
    replace (Z.succ (Z.pos (digits2_pos p)) - 1) with (Z.succ (Z.pos (digits2_pos p) - 1)) by lia.
    rewrite Z.pow_succ_r by lia. lia.
  - rewrite Pos2Z.inj_succ.
    replace (Z.succ (Z.pos (digits2_pos p)) - 1) with (Z.succ (Z.pos (digits2_pos p) - 1)) by lia.
    rewrite Z.pow_succ_r by lia. lia.
  - cbn. lia.
Qed.

(** Shifting right by one bit halves the bound. *)
Lemma shr_1_below (K : Z) (r : shr_record) : shr_below (2 * K) r -> shr_below K (shr_1 r).
Proof.
  destruct r as [m rb sb]. unfold shr_below. cbn [shr_m].
  intros (H0 & H1 & H2).
  assert (H3 : rb || sb = true -> m < 2 * K).
  { intros Hb. apply H2. destruct rb, sb; cbn in *; congruence. }
  assert (H4 : forall m' b, loc_of_shr_record (Build_shr_record m' b (rb || sb)) <> loc_Exact ->
                            b = true \/ rb || sb = true).
  { intros m' b Hl. destruct b; [now left|right].
    destruct (rb || sb); [reflexivity|]. exfalso; apply Hl; reflexivity. }
  destruct m as [|[q|q|]|q]; try lia; cbn [shr_1 shr_m];
    (split; [lia|]); (split; [lia|]); intros Hl;
    apply H4 in Hl; destruct Hl as [Hl|Hl]; try discriminate; try lia;
    specialize (H3 Hl); lia.
Qed.

Lemma shr_1_nonneg (r : shr_record) : 0 <= shr_m r -> 0 <= shr_m (shr_1 r).
Proof.
  destruct r as [m rb sb]. cbn [shr_m].
  destruct m as [|[q|q|]|q]; cbn; lia.
Qed.

(** An invariant that one shift halves survives [p] shifts. *)
Lemma iter_shr_1 (I : Z -> shr_record -> Prop) :
  (forall K r, I (2 * K) r -> I K (shr_1 r)) ->
  forall p K r, I (2 ^ Z.pos p * K) r -> I K (SpecFloat.iter_pos shr_1 p r).
Proof.
  intros step. induction p as [p IH | p IH |]; intros K r Hr; cbn [SpecFloat.iter_pos].
  - apply IH, IH, step.
    replace (2 * (2 ^ Z.pos p * (2 ^ Z.pos p * K))) with (2 ^ Z.pos p~1 * K); [exact Hr|].
    replace (Z.pos p~1) with (Z.pos p + Z.pos p + 1) by lia.
    rewrite !Z.pow_add_r, Z.pow_1_r by lia. ring.
  - apply IH, IH.
    replace (2 ^ Z.pos p * (2 ^ Z.pos p * K)) with (2 ^ Z.pos p~0 * K); [exact Hr|].
    replace (Z.pos p~0) with (Z.pos p + Z.pos p) by lia.
    rewrite Z.pow_add_r by lia. ring.
  - apply step. exact Hr.
Qed.

Lemma shr_record_of_loc_below (K m : Z) (l : location) :
  shr_below K (shr_record_of_loc m l) <-> 0 <= m /\ m <= K /\ (l <> loc_Exact -> m < K).
Proof.
  unfold shr_below. destruct l as [|[]]; cbn; tauto.
Qed.

Lemma shr_m_of_loc (m : Z) (l : location) : shr_m (shr_record_of_loc m l) = m.
Proof. destruct l as [|[]]; reflexivity. Qed.


(** The exponent chosen for a mantissa below [2^(53-e)] is not positive. *)
Lemma fexp_nonpos (m e : Z) :
  0 <= m < 2 ^ (53 - e) -> e <= 0 -> SpecFloat.fexp prec emax (Zdigits2 m + e) <= 0.
Proof.
  intros [H0 H1] He. unfold SpecFloat.fexp, SpecFloat.emin, prec, emax.
  destruct m as [|q|q]; cbn [Zdigits2]; try lia.
  pose proof (digits2_pos_lower q) as Hd.
  assert (2 ^ (Z.pos (digits2_pos q) - 1) < 2 ^ (53 - e)) as Hlt by lia.
  apply Z.pow_lt_mono_r_iff in Hlt; lia.
Qed.

(** Normalising a mantissa to the exponent of its format keeps it at or below
    the bound, at an exponent that is still not positive. *)
Lemma shr_fexp_below (B m e : Z) (l : location) :
  0 <= B < 2 ^ 53 -> e <= 0 ->
  shr_below (B * 2 ^ (- e)) (shr_record_of_loc m l) ->
  e <= snd (shr_fexp prec emax m e l) <= 0
  /\ shr_below (B * 2 ^ (- snd (shr_fexp prec emax m e l))) (fst (shr_fexp prec emax m e l)).
Proof.
  intros HB He Hr. unfold shr_fexp, shr.
  assert (Hm : 0 <= m < 2 ^ (53 - e)).
  { destruct (proj1 (shr_record_of_loc_below _ _ _) Hr) as (H0 & H1 & _).
    split; [exact H0|].
    replace (53 - e) with (53 + - e) by lia. rewrite Z.pow_add_r by lia.
    assert (0 < 2 ^ (- e)) by (apply Z.pow_pos_nonneg; lia). nia. }
  pose proof (fexp_nonpos m e Hm He) as Hf.
  destruct (SpecFloat.fexp prec emax (Zdigits2 m + e) - e) as [|p|p] eqn:En; cbn [fst snd].
  - split; [lia|exact Hr].
  - split; [lia|].
    apply (iter_shr_1 shr_below shr_1_below).
    replace (2 ^ Z.pos p * (B * 2 ^ (- (e + Z.pos p)))) with (B * 2 ^ (- e)); [exact Hr|].
    replace (- e) with (Z.pos p + - (e + Z.pos p)) at 1 by lia.
    rewrite Z.pow_add_r by lia. ring.
  - split; [lia|exact Hr].
Qed.

(** Rounding to nearest goes up only from a mantissa strictly below the
    bound, so it does not pass it. *)
Lemma round_nearest_even_below (K : Z) (r : shr_record) :
  shr_below K r ->
  shr_below K (shr_record_of_loc
                 (round_nearest_even (shr_m r) (loc_of_shr_record r)) loc_Exact).
Proof.
  intros (H0 & H1 & H2). apply shr_record_of_loc_below.
  destruct (loc_of_shr_record r) as [|[]] eqn:El; cbn [round_nearest_even].
  - repeat split; [lia|lia|congruence].
  - assert (H3 := H2 ltac:(discriminate)).
    destruct (Z.even (shr_m r)); repeat split; try lia; congruence.
  - repeat split; [lia|lia|congruence].
  - assert (H3 := H2 ltac:(discriminate)). repeat split; try lia; congruence.
Qed.

(** Rounding never passes an integer: a value in [0, B] rounds to a double
    in [0, B], for any integer [B] below [2^53]. *)
Lemma binary_round_aux_within (B m e : Z) (l : location) :
  0 <= B < 2 ^ 53 -> e <= 0 ->
  shr_below (B * 2 ^ (- e)) (shr_record_of_loc m l) ->
  sf_within B (binary_round_aux prec emax false m e l).
Proof.
  intros HB He Hr. unfold binary_round_aux.
  pose proof (shr_fexp_below B m e l HB He Hr) as [He1 Hr1].
  destruct (shr_fexp prec emax m e l) as [r1 e1]. cbn [fst snd] in He1, Hr1.
  apply round_nearest_even_below in Hr1.
  pose proof (shr_fexp_below B _ e1 loc_Exact HB ltac:(lia) Hr1) as [He2 Hr2].
  destruct (shr_fexp prec emax _ e1 loc_Exact) as [r2 e2]. cbn [fst snd] in He2, Hr2.
  destruct Hr2 as (H0 & H1 & _).
  destruct (shr_m r2) as [|q|q]; [exact I| |lia].
  replace (e2 <=? emax - prec) with true; [split; [lia|exact H1]|].
  symmetry. apply Z.leb_le. unfold emax, prec. lia.
Qed.

Lemma shr_fexp_nonneg (m e : Z) (l : location) :
  0 <= m -> 0 <= shr_m (fst (shr_fexp prec emax m e l)).
Proof.
  intros Hm. unfold shr_fexp, shr.
  destruct (SpecFloat.fexp prec emax (Zdigits2 m + e) - e) as [|p|p]; cbn [fst];
    rewrite ?shr_m_of_loc; try exact Hm.
  apply (iter_shr_1 (fun _ r => 0 <= shr_m r) (fun _ => shr_1_nonneg) p 0).
  rewrite shr_m_of_loc. exact Hm.
Qed.

(** Rounding keeps the sign and never yields NaN. *)
Lemma binary_round_aux_signed (s : bool) (m e : Z) (l : location) :
  0 <= m -> sf_signed s (binary_round_aux prec emax s m e l).
Proof.
  intros Hm. unfold binary_round_aux.
  pose proof (shr_fexp_nonneg m e l Hm) as H1.
  destruct (shr_fexp prec emax m e l) as [r1 e1]; cbn [fst] in H1.
  assert (H2 : 0 <= round_nearest_even (shr_m r1) (loc_of_shr_record r1)).
  { destruct (loc_of_shr_record r1) as [|[]]; cbn [round_nearest_even];
      try destruct (Z.even _); lia. }
  pose proof (shr_fexp_nonneg _ e1 loc_Exact H2) as H3.
  destruct (shr_fexp prec emax _ e1 loc_Exact) as [r2 e2]; cbn [fst] in H3.
  destruct (shr_m r2); [reflexivity| destruct (_ <=? _); reflexivity | lia].
Qed.

Lemma shl_align_fst (m : positive) (e e' : Z) :
  e' <= e -> Z.pos (fst (shl_align m e e')) = Z.pos m * 2 ^ (e - e').
Proof.
  intros He. unfold shl_align.
  destruct (e' - e) as [|d|d] eqn:Ed; cbn [fst]; try lia.
  - replace (e - e') with 0 by lia. lia.
  - replace (e - e') with (Z.pos d) by lia.
    change (Pos.iter xO m d) with (shift_pos d m).
    rewrite shift_pos_correct. change (Z.pow_pos 2 d) with (2 ^ Z.pos d). ring.
Qed.

Lemma shl_align_snd (m : positive) (e e' : Z) :
  snd (shl_align m e e') = Z.min e e'.
Proof.
  unfold shl_align. destruct (e' - e) as [|d|d] eqn:Ed; cbn [snd]; lia.
Qed.

Lemma binary_round_within (B : Z) (m : positive) (e : Z) :
  0 <= B < 2 ^ 53 -> e <= 0 -> Z.pos m <= B * 2 ^ (- e) ->
  sf_within B (binary_round prec emax false m e).
Proof.
  intros HB He Hm. unfold binary_round.
  set (e' := SpecFloat.fexp prec emax (Z.pos (digits2_pos m) + e)).
  pose proof (shl_align_snd m e e') as Hs.
  assert (Hf : Z.pos (fst (shl_align m e e')) = Z.pos m * 2 ^ (e - snd (shl_align m e e'))).
  { rewrite Hs. destruct (Z.le_ge_cases e' e) as [L|L].
    - rewrite Z.min_r by lia. apply shl_align_fst, L.
    - rewrite Z.min_l by lia. unfold shl_align.
      destruct (e' - e) as [|d|d] eqn:Ed; cbn [fst]; try lia;
        rewrite Z.sub_diag; lia. }
  destruct (shl_align m e e') as [mz ez]. cbn [fst snd] in Hs, Hf.
  apply binary_round_aux_within; [exact HB|lia|].
  apply shr_record_of_loc_below. split; [lia|]. split; [|congruence].
  rewrite Hf.
  replace (- ez) with (- e + (e - ez)) by lia.
  rewrite Z.pow_add_r by lia.
  assert (0 <= 2 ^ (e - ez)) by (apply Z.pow_nonneg; lia). nia.
Qed.

Lemma binary_round_signed (s : bool) (m : positive) (e : Z) :
  sf_signed s (binary_round prec emax s m e).
Proof.
  unfold binary_round. destruct (shl_align m e _) as [mz ez].
  apply binary_round_aux_signed. lia.
Qed.

Lemma sf_within_below (B : Z) (x : spec_float) : sf_within B x -> sf_below B x.
Proof. destruct x as [| | |[]]; cbn; tauto. Qed.

Lemma sf_negative_below (B : Z) (x : spec_float) : sf_signed true x -> sf_below B x.
Proof. destruct x as [| | |[]]; cbn; try tauto; discriminate. Qed.

Lemma sf_within_mono (B B' : Z) (x : spec_float) :
  B <= B' -> sf_within B x -> sf_within B' x.
Proof.
  intros HB. destruct x as [| | |[] m e]; cbn; try tauto.
  intros [He Hm]. split; [exact He|].
  assert (0 <= 2 ^ (- e)) by (apply Z.pow_nonneg; lia). nia.
Qed.

Lemma binary_normalize_below (B z e : Z) :
  0 <= B < 2 ^ 53 -> e <= 0 -> z <= B * 2 ^ (- e) ->
  sf_below B (binary_normalize prec emax z e false).
Proof.
  intros HB He Hz. destruct z as [|m|m]; cbn [binary_normalize].
  - exact I.
  - apply sf_within_below, binary_round_within; assumption.
  - apply sf_negative_below, binary_round_signed.
Qed.

Lemma binary_normalize_within (B z e : Z) :
  0 <= B < 2 ^ 53 -> e <= 0 -> 0 <= z <= B * 2 ^ (- e) ->
  sf_within B (binary_normalize prec emax z e false).
Proof.
  intros HB He [H0 Hz]. destruct z as [|m|m]; cbn [binary_normalize].
  - exact I.
  - apply binary_round_within; assumption.
  - lia.
Qed.

Lemma binary_normalize_not_nan (z e : Z) :
  binary_normalize prec emax z e false <> S754_nan.
Proof.
  destruct z as [|m|m]; cbn [binary_normalize]; [discriminate| |].
  - pose proof (binary_round_signed false m e) as H. intros E. rewrite E in H. exact H.
  - pose proof (binary_round_signed true m e) as H. intros E. rewrite E in H. exact H.
Qed.

Lemma SFsub_finite (x y : spec_float) :
  sf_finite x -> sf_finite y -> SFsub prec emax x y <> S754_nan.
Proof.
  destruct x as [sx| | |sx mx ex], y as [sy| | |sy my ey]; cbn [sf_finite SFsub];
    try tauto; intros _ _.
  - destruct sx, sy; discriminate.
  - discriminate.
  - discriminate.
  - apply binary_normalize_not_nan.
Qed.

Lemma SFabs_signed (x : spec_float) : x <> S754_nan -> sf_signed false (SFabs x).
Proof. destruct x; cbn; congruence. Qed.

(** [1 - d] is at most 1 for [d] a non-negative double or +infinity. *)
Lemma SFsub_one_below (d : spec_float) :
  sf_signed false d ->
  sf_below 1 (SFsub prec emax (S754_finite false 4503599627370496 (-52)) d).
Proof.
  destruct d as [s|s| |s m e]; cbn [sf_signed SFsub]; try tauto; intros ->.
  - cbn. lia.
  - reflexivity.
  - cbn [cond_Zopp].
    assert (He : Z.min (-52) e <= -52) by lia.
    apply binary_normalize_below; [lia|lia|].
    rewrite shl_align_fst by lia.
    replace (4503599627370496) with (2 ^ 52) by reflexivity.
    rewrite <- Z.pow_add_r by lia.
    replace (52 + (-52 - Z.min (-52) e)) with (- Z.min (-52) e) by lia. lia.
Qed.



Lemma SFeqb_refl (x : spec_float) : x <> S754_nan -> SFeqb x x = true.
Proof.
  unfold SFeqb, SFcompare.
  destruct x as [s|s| |s m e]; intros Hx.
  - reflexivity.
  - destruct s; reflexivity.
  - congruence.
  - rewrite Z.compare_refl, Pos.compare_cont_refl. destruct s; reflexivity.
Qed.

Lemma sf_below_not_nan (B : Z) (x : spec_float) : sf_below B x -> x <> S754_nan.
Proof. destruct x; cbn; congruence. Qed.

(** [Math.max(0, x)] lies in [0,1] for [x] at most 1. *)
Lemma f64_max_zero_within (x : float) :
  sf_below 1 (Prim2SF x) -> sf_within 1 (Prim2SF (f64_max 0 x)).
Proof.
  intros Hx. unfold f64_max, is_nan.
  rewrite !ltb_spec, !FloatAxioms.eqb_spec.
  rewrite (SFeqb_refl (Prim2SF x)) by (eapply sf_below_not_nan, Hx).
  change (Prim2SF 0) with (S754_zero false).
  destruct (Prim2SF x) as [s|s| |s m e] eqn:E; cbn in Hx.
  - cbn. exact I.
  - subst s. cbn. exact I.
  - contradiction.
  - destruct s; cbn.
    + exact I.
    + rewrite E. exact Hx.
Qed.

Lemma scale_bound (m B e ez : Z) :
  ez <= e -> e <= 0 -> m <= B * 2 ^ (- e) -> m * 2 ^ (e - ez) <= B * 2 ^ (- ez).
Proof.
  intros H1 H2 Hm.
  replace (- ez) with (- e + (e - ez)) by lia.
  rewrite Z.pow_add_r by lia.
  assert (0 <= 2 ^ (e - ez)) by (apply Z.pow_nonneg; lia). nia.
Qed.

(** The sum of doubles in [0, B1] and [0, B2] lies in [0, B1 + B2]. *)
Lemma SFadd_within (B1 B2 : Z) (x y : spec_float) :
  0 <= B1 -> 0 <= B2 -> B1 + B2 < 2 ^ 53 ->
  sf_within B1 x -> sf_within B2 y -> sf_within (B1 + B2) (SFadd prec emax x y).
Proof.
  intros H1 H2 HB.
  destruct x as [sx| | |[] mx ex], y as [sy| | |[] my ey]; cbn [SFadd];
    intros Hx Hy; try (exfalso; exact Hx); try (exfalso; exact Hy).
  - destruct sx, sy; exact I.
  - apply (sf_within_mono B2); [lia|exact Hy].
  - apply (sf_within_mono B1); [lia|exact Hx].
  - destruct Hx as [Hex Hmx], Hy as [Hey Hmy]. cbn [cond_Zopp].
    apply binary_normalize_within; [lia|lia|].
    rewrite !shl_align_fst by lia.
    pose proof (scale_bound (Z.pos mx) B1 ex (Z.min ex ey) ltac:(lia) Hex Hmx).
    pose proof (scale_bound (Z.pos my) B2 ey (Z.min ex ey) ltac:(lia) Hey Hmy).
    assert (0 <= 2 ^ (ex - Z.min ex ey)) by (apply Z.pow_nonneg; lia).
    assert (0 <= 2 ^ (ey - Z.min ex ey)) by (apply Z.pow_nonneg; lia).
    split; nia.
Qed.

(** [x * 100] lies in [0,100] for [x] in [0,1]. *)
Lemma SFmul_100_within (x : spec_float) :
  sf_within 1 x ->
  sf_within 100 (SFmul prec emax x (S754_finite false 7036874417766400 (-46))).
Proof.
  destruct x as [s| | |[] m e]; cbn [sf_within SFmul]; try tauto.
  intros [He Hm]. cbn [xorb].
  apply binary_round_aux_within; [lia|lia|].
  apply shr_record_of_loc_below. split; [lia|]. split; [|congruence].
  rewrite Pos2Z.inj_mul.
  replace (- (e + -46)) with (- e + 46) by lia.
  rewrite Z.pow_add_r by lia.
  change (2 ^ 46) with 70368744177664. lia.
Qed.

(** The quotient by 8 of a mantissa of value at most 8, with the location
    of the exact quotient. *)
Lemma SFdiv_core_8 (m : positive) (e : Z) :
  e <= 0 -> Z.pos m <= 8 * 2 ^ (- e) ->
  let '(q, e', l) := SFdiv_core_binary prec emax (Z.pos m) e 4503599627370496 (-49) in
  e' <= 0 /\ shr_below (1 * 2 ^ (- e')) (shr_record_of_loc q l).
Proof.
  intros He Hm. unfold SFdiv_core_binary.
  change (Zdigits2 4503599627370496) with 53. cbn [Zdigits2].
  set (d := Z.pos (digits2_pos m)).
  assert (Hd : d + e <= 4).
  { pose proof (digits2_pos_lower m) as Hl. fold d in Hl.
    assert (Hp : 2 ^ (d - 1) <= 2 ^ (3 - e)).
    { replace (3 - e) with (3 + - e) by lia. rewrite Z.pow_add_r by lia.
      change (2 ^ 3) with 8. lia. }
    apply Z.pow_le_mono_r_iff in Hp; lia. }
  set (e' := Z.min (SpecFloat.fexp prec emax (d + e - (53 + -49))) (e - -49)).
  assert (He' : e' <= 0 /\ e' <= e + 49).
  { unfold e', SpecFloat.fexp, SpecFloat.emin, prec, emax. lia. }
  set (m' := match e - -49 - e' with
             | 0 => Z.pos m
             | Z.pos _ => Z.shiftl (Z.pos m) (e - -49 - e')
             | Z.neg _ => 0
             end).
  assert (Hm' : m' = Z.pos m * 2 ^ (e + 49 - e')).
  { unfold m'. replace (e - -49 - e') with (e + 49 - e') by lia.
    destruct (e + 49 - e') as [|p|p] eqn:Es; try lia.
    rewrite Z.shiftl_mul_pow2 by lia. reflexivity. }
  assert (Hb : 0 <= m' <= 4503599627370496 * 2 ^ (- e')).
  { rewrite Hm'. split; [assert (0 <= 2 ^ (e + 49 - e')) by (apply Z.pow_nonneg; lia); lia|].
    pose proof (scale_bound (Z.pos m) 8 e (e' - 49) ltac:(lia) He Hm) as Hs.
    replace (e - (e' - 49)) with (e + 49 - e') in Hs by lia.
    replace (- (e' - 49)) with (- e' + 49) in Hs by lia.
    rewrite Z.pow_add_r in Hs by lia. change (2 ^ 49) with 562949953421312 in Hs. lia. }
  clearbody m'.
  pose proof (Z_div_mod m' 4503599627370496 ltac:(lia)) as Hq.
  destruct (Z.div_eucl m' 4503599627370496) as [q r]. destruct Hq as [Hq Hr].
  split; [lia|].
  apply shr_record_of_loc_below.
  split; [lia|]. split; [lia|].
  unfold new_location. change (Z.even 4503599627370496) with true. cbv iota.
  unfold new_location_even.
  destruct (r =? 0) eqn:Er; [congruence|]. apply Z.eqb_neq in Er. intros _. lia.
Qed.

(** [x / 8] lies in [0,1] for [x] in [0,8]. *)
Lemma SFdiv_8_within (x : spec_float) :
  sf_within 8 x ->
  sf_within 1 (SFdiv prec emax x (S754_finite false 4503599627370496 (-49))).
Proof.
  destruct x as [s| | |[] m e]; cbn [sf_within SFdiv]; try tauto.
  intros [He Hm]. cbn [xorb].
  pose proof (SFdiv_core_8 m e He Hm) as H.
  destruct (SFdiv_core_binary prec emax (Z.pos m) e 4503599627370496 (-49)) as [[q e'] l].
  destruct H as [He' Hq].
  apply binary_round_aux_within; [lia|exact He'|exact Hq].
Qed.

(** [Math.round] of a double in [0,100] is an integer of 0..100 (or [-0]). *)
Lemma f64_round_within (x : float) :
  sf_within 100 (Prim2SF x) ->
  exists n, 0 <= n <= 100 /\ (f64_round x = f64_ofZ n \/ f64_round x = (-0)%float).
Proof.
  intros Hx. unfold f64_round.
  pose proof (Prim2SF_valid x) as Hv. pose proof (SF2Prim_Prim2SF x) as Hi.
  destruct (Prim2SF x) as [s| | |[] m e]; cbn in Hx; try contradiction.
  - exists 0. split; [lia|]. rewrite <- Hi. destruct s; [right|left]; reflexivity.
  - destruct Hx as [He Hm]. destruct (0 <=? e) eqn:E0.
    + exfalso. apply Z.leb_le in E0. assert (e = 0) as -> by lia.
      cbn [valid_binary] in Hv. unfold bounded, canonical_mantissa in Hv.
      apply andb_prop in Hv. destruct Hv as [Hc _]. apply Z.eqb_eq in Hc.
      unfold SpecFloat.fexp, SpecFloat.emin, prec, emax in Hc.
      pose proof (digits2_pos_lower m) as Hl.
      assert (Z.pos (digits2_pos m) = 53) as Hd by lia. rewrite Hd in Hl.
      change (2 ^ (53 - 1)) with 4503599627370496 in Hl.
      change (2 ^ (- 0)) with 1 in Hm. lia.
    + apply Z.leb_gt in E0. cbn [cond_Zopp].
      set (n := (Z.pos m * 2 + 2 ^ (- e)) / 2 ^ (1 - e)).
      assert (Hp : 0 < 2 ^ (- e)) by (apply Z.pow_pos_nonneg; lia).
      assert (Hq : 2 ^ (1 - e) = 2 * 2 ^ (- e)).
      { replace (1 - e) with (1 + - e) by lia. rewrite Z.pow_add_r by lia. reflexivity. }
      exists n. split.
      * split.
        -- apply Z.div_pos; lia.
        -- apply Z.lt_succ_r. apply Z.div_lt_upper_bound; lia.
      * left. destruct (n =? 0) eqn:En; [|reflexivity].
        apply Z.eqb_eq in En. rewrite En. reflexivity.
Qed.

(** Every hundredth is a double of [0,1]. *)
Lemma f64_hundredth_unit (n : Z) :
  0 <= n <= 100 -> in_unit_f64 (f64_ofZ n / f64_ofZ 100).
Proof.
  intros Hn.
  assert (H : hundredths_in_unit = true) by (vm_compute; reflexivity).
  unfold hundredths_in_unit in H. rewrite forallb_forall in H.
  specialize (H (Z.to_nat n)). rewrite Z2Nat.id in H by lia.
  apply andb_prop. apply H. apply in_seq. lia.
Qed.

(** A double of [0,1] is neither NaN nor an infinity. *)
Lemma in_unit_finite (x : float) : in_unit_f64 x -> sf_finite (Prim2SF x).
Proof.
  intros [H0 H1]. rewrite leb_spec in H0, H1.
  destruct (Prim2SF x) as [s|s| |s m e]; try exact I.
  - destruct s; cbn in H0, H1; discriminate.
  - cbn in H0. discriminate.
Qed.

(** The score of one dimension lies in [0,1]. *)
Lemma f64_score_within (p a : float) :
  in_unit_f64 p -> in_unit_f64 a ->
  sf_within 1 (Prim2SF (f64_max 0 (1 - abs (p - a)))).
Proof.
  intros Hp Ha. apply f64_max_zero_within.
  rewrite sub_spec, abs_spec, sub_spec.
  change (Prim2SF 1) with (S754_finite false 4503599627370496 (-52)).
  apply SFsub_one_below, SFabs_signed, SFsub_finite; apply in_unit_finite; assumption.
Qed.

(** The running total after [length ds] more dimensions. *)
Lemma f64_total_within (P A : VoiceVector float) (ds : list Dimension) (t : float) (n : Z) :
  (forall d, in_unit_f64 (vget P d)) -> (forall d, in_unit_f64 (vget A d)) ->
  0 <= n -> n + Z.of_nat (length ds) < 2 ^ 53 ->
  sf_within n (Prim2SF t) ->
  sf_within (n + Z.of_nat (length ds))
    (Prim2SF (fold_left
                (fun totalScore d =>
                   (totalScore + f64_max 0 (1 - abs (vget P d - vget A d)))%float)
                ds t)).
Proof.
  intros HP HA. revert t n.
  induction ds as [|d ds IH]; intros t n Hn Hb Ht; cbn [fold_left length] in *.
  - rewrite Z.add_0_r. exact Ht.
  - rewrite Nat2Z.inj_succ in *.
    replace (n + Z.succ (Z.of_nat (length ds))) with ((n + 1) + Z.of_nat (length ds)) by lia.
    apply IH; [lia|lia|].
    rewrite add_spec. apply SFadd_within; [lia|lia|lia|exact Ht|].
    apply f64_score_within; [apply HP|apply HA].
Qed.

(** On binary64 the consistency score of vectors with dimensions in [0,1]
    lies in [0,1]. *)
Lemma f64_consistency_range (P A : VoiceVector float) :
  (forall d, in_unit_f64 (vget P d)) -> (forall d, in_unit_f64 (vget A d)) ->
  in_unit_f64 (calculateConsistencyScore P A).
Proof.
  intros HP HA. unfold calculateConsistencyScore.
  cbn [length n_add n_sub n_abs n_max n_ofZ n_div n_mul n_round f64_number].
  change (f64_ofZ 0) with 0%float. change (f64_ofZ 1) with 1%float.
  pose proof (f64_total_within P A all_dimensions 0 0 HP HA ltac:(lia) ltac:(cbn; lia) I)
    as Ht.
  unfold all_dimensions in Ht.
  set (total := fold_left _ _ _) in *. clearbody total.
  assert (Hx : sf_within 100
                 (Prim2SF (total / f64_ofZ (Z.of_nat 8) * f64_ofZ 100))).
  { rewrite mul_spec, div_spec.
    change (Prim2SF (f64_ofZ 100)) with (S754_finite false 7036874417766400 (-46)).
    change (Prim2SF (f64_ofZ (Z.of_nat 8))) with (S754_finite false 4503599627370496 (-49)).
    apply SFmul_100_within, SFdiv_8_within. exact Ht. }
  destruct (f64_round_within _ Hx) as (n & Hn & [E|E]); rewrite E.
  - apply f64_hundredth_unit, Hn.
  - split; vm_compute; reflexivity.
Qed.

End Binary64Bounds.

(** C3 (amended).  In exact arithmetic [calculateConsistencyScore] (the
    specification's computeConsistency) is the mean over the eight
    dimensions of max(0, 1 − |P[d] − A[d]|) rounded to two decimals, it lies
    in [0,1] and the score of P against itself is 1, for all P and A.  On
    binary64, the arithmetic the code runs in, for P and A with dimensions
    in [0,1] the result lies in [0,1] and the score of P against itself is
    1.0; and for P = (formality 0.8, others 0.5) against A = (all 0.5) the
    result is 0.96 in both arithmetics.  But on binary64 the result is not
    always the mean rounded to two decimals: for P = (formality 1, humor 1,
    others 0.5) against A = (formality 0.08, humor 0.2, others 0.5), whose
    mean is 0.785, the code returns 0.78 where the formula gives 0.79. *)
Theorem computeConsistency_mean_range_identity :
  (forall P A : VoiceVector Q, (calculateConsistencyScore P A == exact_consistency P A)%Q)
  /\ (forall P A : VoiceVector float,
        (forall d, in_unit_f64 (vget P d)) -> (forall d, in_unit_f64 (vget A d)) ->
        in_unit_f64 (calculateConsistencyScore P A))
  /\ (forall P : VoiceVector float,
        (forall d, in_unit_f64 (vget P d)) -> calculateConsistencyScore P P = 1%float)
  /\ calculateConsistencyScore
       (vector 0.8 0.5 0.5 0.5 0.5 0.5 0.5 0.5)%float
       (vector 0.5 0.5 0.5 0.5 0.5 0.5 0.5 0.5)%float
     = 0.96%float
  /\ (forall P A : VoiceVector Q, (0 <= calculateConsistencyScore P A <= 1)%Q)
  /\ (forall P : VoiceVector Q, (calculateConsistencyScore P P == 1)%Q)
  /\ (calculateConsistencyScore
        (vector (8 # 10) (1 # 2) (1 # 2) (1 # 2) (1 # 2) (1 # 2) (1 # 2) (1 # 2))
        (vector (1 # 2) (1 # 2) (1 # 2) (1 # 2) (1 # 2) (1 # 2) (1 # 2) (1 # 2))
      == 96 # 100)%Q
  /\ calculateConsistencyScore halfway_profile halfway_analysis = 0.78%float
  /\ (exact_consistency (vector_value halfway_profile) (vector_value halfway_analysis)
      == 79 # 100)%Q.
Proof.
  split; [exact Q_consistency_exact|].
  split; [exact f64_consistency_range|].
  split; [exact f64_consistency_self|].
  split; [vm_compute; reflexivity|].
  split; [exact Q_consistency_range|].
  split; [exact Q_consistency_self|].
  split; [vm_compute; reflexivity|].
  split; vm_compute; reflexivity.
Qed.

(** The binary64 range and identity of C3 at the profile whose dimensions are
    all 0.8, against the analysis (0.1, 0.9, 0.5, 0.33, 1, 0, 0.7, 0.25) and
    against itself. *)
Lemma computeConsistency_witness :
  in_unit_f64
    (calculateConsistencyScore
       (vector 0.8 0.8 0.8 0.8 0.8 0.8 0.8 0.8)%float
       (vector 0.1 0.9 0.5 0.33 1 0 0.7 0.25)%float)
  /\ calculateConsistencyScore
       (vector 0.8 0.8 0.8 0.8 0.8 0.8 0.8 0.8)%float
       (vector 0.8 0.8 0.8 0.8 0.8 0.8 0.8 0.8)%float
     = 1%float.
Proof.
  split.
  - apply (proj1 (proj2 computeConsistency_mean_range_identity));
      intros d; destruct d; split; vm_compute; reflexivity.
  - apply (proj1 (proj2 (proj2 computeConsistency_mean_range_identity))).
    intros d; destruct d; split; vm_compute; reflexivity.
Defined.

(** C3 as stated fails on binary64.  For P = (formality 1, humor 1, others
    0.5) and A = (formality 0.08, humor 0.2, others 0.5), all dimensions in
    [0,1], the per-dimension scores are 0.08, 0.2 and six times 1: their
    mean is 0.785 and rounds to 0.79, taking the dimensions as the decimals
    written or as the doubles they are.  The code returns 0.78: its sum of
    the scores is 6.279999999999999, below 6.28. *)
Lemma consistency_rounding_counterexample :
  (forall d, in_unit_f64 (vget halfway_profile d))
  /\ (forall d, in_unit_f64 (vget halfway_analysis d))
  /\ calculateConsistencyScore halfway_profile halfway_analysis = 0.78%float
  /\ (exact_consistency (vector_value halfway_profile) (vector_value halfway_analysis)
      == 79 # 100)%Q
  /\ (exact_consistency
        (vector 1 1 (1 # 2) (1 # 2) (1 # 2) (1 # 2) (1 # 2) (1 # 2))
        (vector (8 # 100) (2 # 10) (1 # 2) (1 # 2) (1 # 2) (1 # 2) (1 # 2) (1 # 2))
      == 79 # 100)%Q
  /\ ~ (f64_value (calculateConsistencyScore halfway_profile halfway_analysis)
        == exact_consistency (vector_value halfway_profile)
             (vector_value halfway_analysis))%Q.
Proof.
  split; [intros d; destruct d; split; vm_compute; reflexivity|].
  split; [intros d; destruct d; split; vm_compute; reflexivity|].
  split; [vm_compute; reflexivity|].
  split; [vm_compute; reflexivity|].
  split; [vm_compute; reflexivity|].
  intros E. vm_compute in E. discriminate E.
Qed.

(** ** Recommendations *)

Lemma recommendations_fold {num} `{JsNumber num} (P A : VoiceVector num)
  (threshold : num) (ds : list Dimension) (acc : list (Recommendation num)) :
  fold_left
    (fun recommendations d =>
       let profileValue := vget P (key d) in
       let contentValue := vget A (key d) in
       let difference := n_abs (n_sub profileValue contentValue) in
       if n_gt difference threshold then
         let direction : string :=
           if n_gt contentValue profileValue then "more" else "less" in
         recommendations ++
           [ {| dimension := profileLabel d;
                difference := n_round (n_mul difference (n_ofZ 100));
                suggestion :=
                  "Consider making the content " +:+ direction +:+ " "
                    +:+ toLowerCase (contentLabel d)
                    +:+ " to better match your brand voice" |} ]
       else recommendations)
    (map label_of ds) acc
  = acc ++ map (spec_entry P A)
             (List.filter (fun d => n_gt (spec_delta P A d) threshold) ds).
Proof.
  revert acc. induction ds as [|d ds IH]; intros acc.
  - cbn. now rewrite app_nil_r.
  - cbn [map fold_left List.filter]. rewrite IH.
    assert (K : key (label_of d) = d) by (destruct d; reflexivity).
    rewrite K. fold (spec_delta P A d).
    destruct (n_gt (spec_delta P A d) threshold); [|reflexivity].
    rewrite <- app_assoc. reflexivity.
Qed.

Lemma generateConsistencyRecommendations_spec {num} `{JsNumber num}
  (P A : VoiceVector num) :
  generateConsistencyRecommendations P A = spec_recommend P A (n_dec 3 1).
Proof.
  unfold generateConsistencyRecommendations, spec_recommend.
  exact (recommendations_fold P A (n_dec 3 1) all_dimensions []).
Qed.

Lemma profileLabel_injective (d d' : Dimension) :
  profileLabel (label_of d) = profileLabel (label_of d') -> d = d'.
Proof. destruct d, d'; cbn; intros E; try reflexivity; discriminate E. Qed.

Lemma recommendation_present {num} `{JsNumber num} (P A : VoiceVector num) (d : Dimension) :
  (exists r, r ∈ generateConsistencyRecommendations P A
             /\ dimension r = profileLabel (label_of d))
  <-> n_gt (spec_delta P A d) (n_dec 3 1) = true.
Proof.
  rewrite generateConsistencyRecommendations_spec. unfold spec_recommend. split.
  - intros (r & Hin & Hd).
    apply list_elem_of_In, in_map_iff in Hin. destruct Hin as (d' & <- & Hin').
    apply filter_In in Hin'. destruct Hin' as [_ Hgt].
    cbn [dimension spec_entry] in Hd. apply profileLabel_injective in Hd. now subst.
  - intros Hgt. exists (spec_entry P A d). split; [|reflexivity].
    apply list_elem_of_In, in_map, filter_In. split; [|exact Hgt].
    destruct d; cbn; tauto.
Qed.

(** C4 (amended).  [generateConsistencyRecommendations] emits, in the fixed
    order of the dimensions, an entry for exactly those dimensions whose delta
    |profile[d] − analyzed[d]|, as the arithmetic computes it, strictly
    exceeds 0.3, with direction "more" if and only if the analyzed value is
    greater than the profile value.  On binary64 the delta of 0.8 and 0.5 is
    computed as 0.30000000000000004, so for P.formality = 0.8 and
    A.formality = 0.5 (all other dimensions equal) the one entry
    Formality/30/"less" is produced; a delta computed as exactly 0.3
    (P.formality = 0.5, A.formality = 0.2) produces no entry, and neither does
    0.8 against 0.5 in exact arithmetic. *)
Theorem recommend_exceeding_computed_delta :
  (forall num (N : JsNumber num) (P A : VoiceVector num),
      generateConsistencyRecommendations P A = spec_recommend P A (n_dec 3 1))
  /\ (forall num (N : JsNumber num) (P A : VoiceVector num) (d : Dimension),
        (exists r, r ∈ generateConsistencyRecommendations P A
                   /\ dimension r = profileLabel (label_of d))
        <-> n_gt (spec_delta P A d) (n_dec 3 1) = true)
  /\ spec_delta (vector 0.8 0.5 0.5 0.5 0.5 0.5 0.5 0.5)%float
       (vector 0.5 0.5 0.5 0.5 0.5 0.5 0.5 0.5)%float formality
     = 0.30000000000000004%float
  /\ generateConsistencyRecommendations
       (vector 0.8 0.5 0.5 0.5 0.5 0.5 0.5 0.5)%float
       (vector 0.5 0.5 0.5 0.5 0.5 0.5 0.5 0.5)%float
     = [ {| dimension := "Formality";
            difference := 30%float;
            suggestion :=
              "Consider making the content less formal to better match your brand voice" |} ]
  /\ generateConsistencyRecommendations
       (vector 0.5 0.5 0.5 0.5 0.5 0.5 0.5 0.5)%float
       (vector 0.2 0.5 0.5 0.5 0.5 0.5 0.5 0.5)%float
     = []
  /\ generateConsistencyRecommendations
       (vector (8 # 10) (1 # 2) (1 # 2) (1 # 2) (1 # 2) (1 # 2) (1 # 2) (1 # 2))%Q
       (vector (1 # 2) (1 # 2) (1 # 2) (1 # 2) (1 # 2) (1 # 2) (1 # 2) (1 # 2))%Q
     = [].
Proof.
  split; [intros; apply generateConsistencyRecommendations_spec|].
  split; [intros; apply recommendation_present|].
  repeat split; vm_compute; reflexivity.
Qed.

(** C4 as stated fails on the program's arithmetic: with P.formality = 0.8,
    A.formality = 0.5 and all other dimensions equal, binary64 computes the
    delta 0.30000000000000004 > 0.3 and an entry is produced. *)
Lemma recommend_boundary_counterexample :
  (0.3 <? PrimFloat.abs (0.8 - 0.5))%float = true
  /\ generateConsistencyRecommendations
       (vector 0.8 0.5 0.5 0.5 0.5 0.5 0.5 0.5)%float
       (vector 0.5 0.5 0.5 0.5 0.5 0.5 0.5 0.5)%float
     <> [].
Proof. split; [vm_compute; reflexivity|]. vm_compute. discriminate. Qed.

(** ** Phrase lists *)

Lemma trimStart_head (s : jsstring) :
  trimStart s = [] \/ exists c t, trimStart s = c :: t /\ is_ws c = false.
Proof.
  induction s as [|c s IH]; cbn; [now left|].
  destruct (is_ws c) eqn:E; [exact IH|]. right. eauto.
Qed.

Lemma trimStart_fixed (c : N) (t : jsstring) :
  is_ws c = false -> trimStart (c :: t) = c :: t.
Proof. intros E. cbn. now rewrite E. Qed.

Lemma trimStart_snoc (l : jsstring) (c : N) :
  is_ws c = false -> exists u, trimStart (l ++ [c]) = u ++ [c].
Proof.
  intros E. induction l as [|a l IH]; cbn.
  - rewrite E. now exists [].
  - destruct (is_ws a); [exact IH|]. now exists (a :: l).
Qed.

Lemma trimStart_idem (s : jsstring) : trimStart (trimStart s) = trimStart s.
Proof.
  destruct (trimStart_head s) as [-> | (c & t & -> & E)]; [reflexivity|].
  now apply trimStart_fixed.
Qed.

Lemma trimEnd_idem (s : jsstring) : trimEnd (trimEnd s) = trimEnd s.
Proof. unfold trimEnd. now rewrite rev_involutive, trimStart_idem. Qed.

Lemma trimStart_trimEnd (s : jsstring) :
  trimStart s = s -> trimStart (trimEnd s) = trimEnd s.
Proof.
  intros Hs. destruct (trimStart_head s) as [E | (c & t & E & Hc)]; rewrite Hs in E; subst s.
  - reflexivity.
  - unfold trimEnd. cbn [rev]. destruct (trimStart_snoc (rev t) c Hc) as [u ->].
    rewrite rev_app_distr. cbn [rev app]. now apply trimStart_fixed.
Qed.

Lemma trim_idem (s : jsstring) : trim (trim s) = trim s.
Proof.
  unfold trim. rewrite (trimStart_trimEnd (trimStart s) (trimStart_idem s)).
  apply trimEnd_idem.
Qed.

Lemma set_add_NoDup (set : list jsstring) (x : jsstring) :
  NoDup set -> NoDup (set_add set x).
Proof.
  intros Hs. unfold set_add. destruct (decide (x ∈ set)) as [|Hn]; [exact Hs|].
  apply NoDup_app. split; [exact Hs|]. split.
  - intros y Hy Hy'. apply list_elem_of_singleton in Hy'. now subst.
  - apply NoDup_singleton.
Qed.

Lemma merge_step_ok (set : list jsstring) (item : jsstring) :
  NoDup set /\ Forall entry_ok set ->
  NoDup (merge_step set item) /\ Forall entry_ok (merge_step set item).
Proof.
  intros [Hn Hf]. unfold merge_step.
  destruct (str_truthy item && (0 <? length (trim item))%nat) eqn:E; [|now split].
  split; [now apply set_add_NoDup|].
  unfold set_add. destruct (decide (trim item ∈ set)); [exact Hf|].
  apply Forall_app. split; [exact Hf|]. apply Forall_singleton.
  apply andb_true_iff in E as [_ E]. apply Nat.ltb_lt in E.
  split; [apply trim_idem|]. intros Z. rewrite Z in E. cbn in E. lia.
Qed.

Lemma merge_fold_ok (items set : list jsstring) :
  NoDup set /\ Forall entry_ok set ->
  NoDup (fold_left merge_step items set) /\ Forall entry_ok (fold_left merge_step items set).
Proof.
  revert set. induction items as [|i items IH]; intros set H; [exact H|].
  cbn [fold_left]. apply IH. now apply merge_step_ok.
Qed.

Lemma slice0_sublist {A} (l : list A) (e : Z) : exists k, slice0 l e = firstn k l.
Proof. unfold slice0. destruct (e <? 0)%Z; eauto. Qed.

Lemma slice0_length {A} (l : list A) (e : Z) :
  (0 <= e)%Z -> (length (slice0 l e) <= Z.to_nat e)%nat.
Proof.
  intros He. unfold slice0. destruct (e <? 0)%Z eqn:E; [apply Z.ltb_lt in E; lia|].
  rewrite length_firstn. lia.
Qed.

Lemma mergeUniqueLists_within (existing incoming : list jsstring) (limit : Z) :
  (0 <= limit)%Z ->
  phrase_list_within (Z.to_nat limit) (mergeUniqueLists existing incoming limit).
Proof.
  intros Hl. unfold mergeUniqueLists.
  change (fun set item => if str_truthy item && (0 <? length (trim item))%nat
                         then set_add set (trim item) else set) with merge_step.
  destruct (merge_fold_ok (existing ++ incoming) [] (conj (NoDup_nil_2) (Forall_nil_2 _)))
    as [Hn Hf].
  split; [now apply slice0_length|].
  destruct (slice0_sublist (fold_left merge_step (existing ++ incoming) []) limit) as [k ->].
  split.
  - rewrite <- (firstn_skipn k) in Hn. now apply NoDup_app in Hn as [Hn _].
  - apply Forall_take. eapply Forall_impl; [exact Hf|].
    intros e [He1 He2]. now rewrite He1.
Qed.

Lemma mergeLists_eq (a b : list jsstring) (limit : Z) :
  mergeLists a b limit = mergeUniqueLists a b limit.
Proof. reflexivity. Qed.

Section PreferenceColumns.
Context {num : Type} `{JsNumber num}.

(** What an accepted upsert of the preferences writes. *)
Lemma sql_upsert_user_preferences_ok (uid : nat) (nextPrefs : Preferences num)
  (s s' : Store num) (row : PreferencesRow num) :
  sql_upsert_user_preferences uid nextPrefs s = Ok (row, s') ->
  exists tone level length_preference language,
    pg_varchar 50 (preferred_tone nextPrefs) = Some tone
    /\ pg_emoji_level (emoji_level nextPrefs) = Some level
    /\ pg_varchar 20 (caption_length_preference nextPrefs) = Some length_preference
    /\ pg_varchar 10 (language_preference nextPrefs) = Some language
    /\ row = {| up_preferred_tone := Some tone;
                up_emoji_level := Some level;
                up_common_phrases := Some (common_phrases nextPrefs);
                up_disliked_phrases := Some (disliked_phrases nextPrefs);
                up_caption_length_preference := Some length_preference;
                up_language_preference := Some language;
                up_caption_structure := Some (caption_structure nextPrefs) |}
    /\ s' = {| voice_profiles := voice_profiles s;
               content_analysis := content_analysis s;
               voice_feedback := voice_feedback s;
               voice_training_sessions := voice_training_sessions s;
               user_preferences := <[uid := row]> (user_preferences s);
               saved_posts := saved_posts s;
               caption_history := caption_history s |}.
Proof.
  unfold sql_upsert_user_preferences.
  destruct (pg_varchar 50 (preferred_tone nextPrefs)) as [tone|]; [|discriminate].
  destruct (pg_emoji_level (emoji_level nextPrefs)) as [level|]; [|discriminate].
  destruct (pg_varchar 20 (caption_length_preference nextPrefs)) as [len|]; [|discriminate].
  destruct (pg_varchar 10 (language_preference nextPrefs)) as [lang|]; [|discriminate].
  intros [= <- <-]. exists tone, level, len, lang. repeat split.
Qed.

(** A text within the limit of its column is stored as it is. *)
Lemma pg_varchar_within (n : nat) (text : string) :
  (String.length text <= n)%nat -> pg_varchar n text = Some text.
Proof. intros Hn. unfold pg_varchar. apply Nat.leb_le in Hn. now rewrite Hn. Qed.

(** Only the empty text is stored as the empty text. *)
Lemma pg_varchar_empty (n : nat) (text : string) :
  pg_varchar (S n) text = Some ""%string -> text = ""%string.
Proof.
  unfold pg_varchar. destruct (String.length text <=? S n)%nat eqn:L; [congruence|].
  destruct text as [|c text]; [discriminate L|].
  destruct (forallb _ _); discriminate.
Qed.

(** The integers 0..5 are stored as they are. *)
Lemma pg_emoji_level_ofZ (k : Z) :
  (0 <= k <= 5)%Z -> pg_emoji_level (n_ofZ k) = Some (n_ofZ k).
Proof.
  intros Hk. unfold pg_emoji_level. cbn [List.find].
  rewrite !n_le_ofZ by lia.
  assert (E : (k = 0 \/ k = 1 \/ k = 2 \/ k = 3 \/ k = 4 \/ k = 5)%Z) by lia.
  destruct E as [-> | [-> | [-> | [-> | [-> | ->]]]]]; reflexivity.
Qed.

(** What the column stores is one of the integers 0..5. *)
Lemma pg_emoji_level_stored (x level : num) :
  pg_emoji_level x = Some level ->
  exists k, (0 <= k <= 5)%Z /\ level = n_ofZ k
            /\ n_le x (n_ofZ k) = true /\ n_le (n_ofZ k) x = true.
Proof.
  unfold pg_emoji_level.
  destruct (List.find _ _) as [k|] eqn:F; [|discriminate].
  intros [= <-]. apply List.find_some in F as [Hk Hb].
  apply andb_prop in Hb as [H1 H2]. exists k. repeat split; try assumption;
    cbn in Hk; lia.
Qed.

End PreferenceColumns.

Section PreferenceLists.
Context {num : Type} `{JsNumber num} (detectors : MemoryDetectors num).

Lemma phrase_list_within_nil : phrase_list_within 10 [].
Proof. split; [cbn; lia|]. split; constructor. Qed.

Lemma getPreferences_lists (userId : option nat) (w : World num) r w' :
  store_lists_ok (store w) ->
  getPreferences userId w = (r, w') ->
  store w' = store w
  /\ forall p, r = Ok p ->
       phrase_list_within 10 (common_phrases p)
       /\ phrase_list_within 10 (disliked_phrases p).
Proof.
  intros Hs. unfold getPreferences.
  destruct userId as [[|uid]|]; cbn.
  1,3: intros [= <- <-]; split; [reflexivity|]; intros p [= <-]; split;
       apply phrase_list_within_nil.
  unfold bind, external.
  destruct (next_fault w) as [e|]; cbn;
    [intros [= <- <-]; split; [reflexivity|discriminate]|].
  destruct (user_preferences (store w) !! S uid) as [row|] eqn:E; cbn;
    intros [= <- <-]; (split; [reflexivity|]); intros p [= <-].
  - cbn. exact (Hs _ _ E).
  - split; apply phrase_list_within_nil.
Qed.

Lemma updatePreferences_lists (userId : option nat) (u : PreferenceUpdates num)
  (w : World num) r w' :
  store_lists_ok (store w) ->
  updatePreferences userId u w = (r, w') ->
  store_lists_ok (store w')
  /\ forall p, r = Ok p ->
       phrase_list_within 10 (common_phrases p)
       /\ phrase_list_within 10 (disliked_phrases p).
Proof.
  intros Hs. unfold updatePreferences.
  destruct userId as [[|uid]|]; cbn; try (intros [= <- <-]; split; [exact Hs|discriminate]).
  unfold bind at 1.
  destruct (getPreferences (Some (S uid)) w) as [[current|e] w1] eqn:G.
  2:{ intros [= <- <-]. apply (getPreferences_lists _ _ _ _ Hs) in G as [G _].
      split; [|discriminate]. unfold store_lists_ok. now rewrite G. }
  apply (getPreferences_lists _ _ _ _ Hs) in G as [Hst Hp].
  destruct (Hp current eq_refl) as [Hc Hd]. clear Hp.
  unfold bind, external.
  destruct (next_fault w1) as [e|]; cbn.
  { intros [= <- <-]. split; [|discriminate]. unfold store_lists_ok. cbn. now rewrite Hst. }
  assert (Hc' : phrase_list_within 10
                  (mergeUniqueLists (common_phrases current) (default [] (u_common_phrases u)) 10))
    by (apply (mergeUniqueLists_within _ _ 10); lia).
  assert (Hd' : phrase_list_within 10
                  match u_disliked_phrases u with
                  | Some incoming => mergeUniqueLists (disliked_phrases current) incoming 10
                  | None => disliked_phrases current
                  end).
  { destruct (u_disliked_phrases u); [apply (mergeUniqueLists_within _ _ 10); lia|exact Hd]. }
  match goal with
  | |- context [sql_upsert_user_preferences ?i ?n ?s] =>
      destruct (sql_upsert_user_preferences i n s) as [[row s']|e] eqn:Q
  end.
  2:{ intros [= <- <-]. split; [|discriminate]. unfold store_lists_ok. cbn. now rewrite Hst. }
  apply sql_upsert_user_preferences_ok in Q
    as (tone & level & len & lang & _ & _ & _ & _ & -> & ->).
  intros [= <- <-]. split.
  - intros uid' row'. cbn. rewrite Hst. destruct (decide (S uid = uid')) as [<-|Hne].
    + rewrite lookup_insert_eq. intros [= <-]. cbn. now split.
    + rewrite lookup_insert_ne by exact Hne. apply Hs.
  - intros p [= <-]. cbn. now split.
Qed.

Lemma getPreferences_store (userId : option nat) (w : World num) :
  store (snd (getPreferences userId w)) = store w.
Proof.
  unfold getPreferences. destruct userId as [[|uid]|]; cbn; try reflexivity.
  unfold bind, external. destruct (next_fault w); cbn; [reflexivity|].
  destruct (user_preferences (store w) !! S uid); reflexivity.
Qed.

Lemma learnFromCaption_lists (userId : option nat) (caption : option jsstring)
  (context : LearnContext) (w : World num) r w' :
  learnFromCaption detectors userId caption context w = (r, w') ->
  store w' = store w
  /\ forall u, r = Ok (Some u) ->
       phrase_list_within 10 (default [] (u_common_phrases u))
       /\ u_disliked_phrases u = None.
Proof.
  unfold learnFromCaption.
  destruct (negb (uid_truthy userId) || negb (caption_truthy caption)); cbn;
    [intros [= <- <-]; split; [reflexivity|discriminate]|].
  unfold bind. pose proof (getPreferences_store userId w) as Hst.
  destruct (getPreferences userId w) as [[existing|e] w1]; cbn in Hst |- *;
    intros [= <- <-]; (split; [exact Hst|]); [|discriminate].
  intros u [= <-]; cbn. split; [|reflexivity].
  rewrite mergeLists_eq. apply (mergeUniqueLists_within _ _ 10); lia.
Qed.


Lemma memoryBlock_lists (uid : nat) (caption : option jsstring) (lang : option string)
  (prefs : Preferences num) (w : World num) :
  store_lists_ok (store w) ->
  store_lists_ok (store (snd (memoryBlock detectors uid caption lang prefs w))).
Proof.
  intros Hs. unfold memoryBlock, try_catch, bind at 1.
  destruct (learnFromCaption detectors (Some uid) caption {| language := lang |} w)
    as [[[learned|]|e] w1] eqn:L;
    apply learnFromCaption_lists in L as [Hst _].
  - destruct (updatePreferences (Some uid) learned w1) as [[p|e] w2] eqn:U;
      eapply updatePreferences_lists in U as [Hs2 _];
      try (unfold store_lists_ok; rewrite Hst; exact Hs); exact Hs2.
  - cbn. unfold store_lists_ok. now rewrite Hst.
  - cbn. unfold store_lists_ok. now rewrite Hst.
Qed.

End PreferenceLists.

(** C9.  The table of preferences starts within the invariant (it is empty),
    and from any world within it: [updatePreferences] leaves every stored
    profile, and the profile it returns, with at most 10 common and 10
    disliked phrases, none blank and none twice; [learnFromCaption] writes
    nothing and returns at most 10 common phrases, none blank and none twice
    (and no disliked phrases at all); the route's memory update, which chains
    the two, keeps the invariant.  And
    [mergeUniqueLists(["a","b","a"], ["b","c"], 2)] is exactly ["a","b"]. *)
Theorem preference_lists_stay_clean :
  forall num (N : JsNumber num) (detectors : MemoryDetectors num) (w : World num),
    store_lists_ok (store w) ->
    store_lists_ok (@empty_store num)
    /\ (forall userId updates,
          store_lists_ok (store (snd (updatePreferences userId updates w)))
          /\ forall p, fst (updatePreferences userId updates w) = Ok p ->
               phrase_list_within 10 (common_phrases p)
               /\ phrase_list_within 10 (disliked_phrases p))
    /\ (forall userId finalCaption context,
          store (snd (learnFromCaption detectors userId finalCaption context w)) = store w
          /\ forall u,
               fst (learnFromCaption detectors userId finalCaption context w) = Ok (Some u) ->
               phrase_list_within 10 (default [] (u_common_phrases u))
               /\ u_disliked_phrases u = None)
    /\ (forall uid caption lang prefs,
          store_lists_ok (store (snd (memoryBlock detectors uid caption lang prefs w))))
    /\ mergeUniqueLists [js "a"; js "b"; js "a"] [js "b"; js "c"] 2 = [js "a"; js "b"].
Proof.
  intros num N detectors w Hs.
  split; [intros uid row E; cbn in E; rewrite lookup_empty in E; discriminate|].
  split.
  { intros userId updates.
    destruct (updatePreferences userId updates w) as [r w'] eqn:U.
    exact (updatePreferences_lists userId updates w r w' Hs U). }
  split.
  { intros userId finalCaption context.
    destruct (learnFromCaption detectors userId finalCaption context w) as [r w'] eqn:L.
    exact (learnFromCaption_lists detectors userId finalCaption context w r w' L). }
  split; [intros; now apply memoryBlock_lists|].
  vm_compute. reflexivity.
Qed.

(** C9 at the world whose store is empty. *)
Lemma preference_lists_witness :
  store_lists_ok (store (snd (updatePreferences (Some 1%nat)
      {| u_preferred_tone := None; u_emoji_level := None;
         u_common_phrases := Some [js " sunset "; js "sunset"; js "  "];
         u_disliked_phrases := Some [js "vibes"];
         u_caption_length_preference := None; u_language_preference := None;
         u_caption_structure := None |}
      (world_of (@empty_store Q) [])))).
Proof.
  refine (proj1 (proj1 (proj2 (preference_lists_stay_clean Q Q_number plain_detectors
            (world_of empty_store []) _)) _ _)).
  intros uid row E. cbn in E. rewrite lookup_empty in E. discriminate.
Defined.

(** C10.  [learnFromCaption] returns null and leaves the world as it was —
    no call to the store is made — whenever the user id is missing or 0 or
    the caption is missing or the empty string; and with such a caption the
    route's memory update hands back the preferences read before and leaves
    the world, hence the stored profile, as it was. *)
Theorem learnFromCaption_skips_missing_input :
  forall num (N : JsNumber num) (detectors : MemoryDetectors num) (w : World num)
         (finalCaption : option jsstring),
    (forall userId context,
        userId = None \/ userId = Some 0%nat
        \/ finalCaption = None \/ finalCaption = Some [] ->
        learnFromCaption detectors userId finalCaption context w = (Ok None, w))
    /\ (finalCaption = None \/ finalCaption = Some [] ->
        forall uid lang prefs,
          memoryBlock detectors uid finalCaption lang prefs w = (Ok prefs, w)).
Proof.
  intros num N detectors w finalCaption.
  assert (L : forall userId context,
             userId = None \/ userId = Some 0%nat
             \/ finalCaption = None \/ finalCaption = Some [] ->
             learnFromCaption detectors userId finalCaption context w = (Ok None, w)).
  { intros userId context Hc. unfold learnFromCaption.
    destruct Hc as [-> | [-> | [-> | ->]]]; cbn; try reflexivity;
      destruct (uid_truthy userId); reflexivity. }
  split; [exact L|].
  intros Hc uid lang prefs. unfold memoryBlock, try_catch, bind.
  rewrite L by tauto. reflexivity.
Qed.

(** C10 at an empty caption. *)
Lemma learnFromCaption_skips_witness :
  memoryBlock plain_detectors 1 (Some []) (Some "en"%string) DEFAULT_PREFERENCES
    (world_of (@empty_store Q) [])
  = (Ok DEFAULT_PREFERENCES, world_of (@empty_store Q) []).
Proof.
  apply (proj2 (learnFromCaption_skips_missing_input Q Q_number plain_detectors
                  (world_of empty_store []) (Some []))).
  now right.
Defined.

(** ** Refinement *)

Section Refinement.
Context {num : Type} `{JsNumber num} (cols : ColumnTypes num) (oracle : Oracle num).

Lemma triggerVoiceRefinement_total (userId : nat) (w : World num) :
  fst (triggerVoiceRefinement cols oracle userId w) = Ok tt.
Proof.
  unfold triggerVoiceRefinement, try_catch.
  match goal with
  | |- context [match ?b w with _ => _ end] => destruct (b w) as [[[]|e] w1]
  end; reflexivity.
Qed.

Lemma triggerVoiceRefinement_few (userId : nat) (w : World num) :
  (length (List.filter (fun r => Nat.eqb (ca_user_id r) userId)
             (content_analysis (store w))) < 5)%nat ->
  store (snd (triggerVoiceRefinement cols oracle userId w)) = store w
  /\ exists l,
      calls (snd (triggerVoiceRefinement cols oracle userId w)) = calls w ++ l
      /\ Forall (fun c => fst c = GetContentAnalysisHistory userId 20
                          \/ fst c = GetVoiceFeedbackHistory userId 10) l.
Proof.
  intros Hn.
  unfold triggerVoiceRefinement, try_catch, bind, getContentAnalysisHistory,
    getVoiceFeedbackHistory, external.
  destruct (next_fault w) as [e|] eqn:F1; cbn [fst snd].
  { cbn. split; [reflexivity|]. eexists; split; [reflexivity|].
    repeat (constructor; [cbn; tauto|]); constructor. }
  destruct (next_fault (after_call w _ _ _)) as [e|] eqn:F2; cbn [fst snd].
  { cbn. split; [reflexivity|]. eexists; split; [now rewrite <- app_assoc|].
    repeat (constructor; [cbn; tauto|]); constructor. }
  assert (L : (length (firstn 20
                 (List.filter (fun r : ContentAnalysisRow num => Nat.eqb (ca_user_id r) userId)
                    (content_analysis (store w)))) <? 5)%nat = true).
  { apply Nat.ltb_lt. rewrite length_firstn. lia. }
  rewrite L. cbn. split; [reflexivity|]. eexists; split; [now rewrite <- app_assoc|].
  repeat (constructor; [cbn; tauto|]); constructor.
Qed.

(** A read leaves the store and the console as they were and logs one
    call. *)
Lemma read_frame {A} (c : Call) (f : Store num -> A) (w w1 : World num) (r : Outcome A) :
  external c (fun s => Ok (f s, s)) w = (r, w1) ->
  store w1 = store w /\ console w1 = console w
  /\ exists o, calls w1 = calls w ++ [(c, o)].
Proof.
  unfold external. destruct (next_fault w); intros [= <- <-]; cbn; eauto.
Qed.

(** With samples to show, the prompt cannot be built: [refineVoiceProfile]
    throws before it asks anything of the generative model. *)
Lemma refineVoiceProfile_samples (sample : ContentAnalysisRow num)
  (hist : list (ContentAnalysisRow num)) (fb : list (VoiceFeedbackRow num))
  (profile : VoiceProfileRow num) (w : World num) :
  refineVoiceProfile oracle (sample :: hist) fb profile w
  = (Throw (if textModel oracle
            then "Cannot read properties of undefined (reading 'substring')"
            else "Gemini text client not initialized. Please check your API key."),
     w).
Proof.
  unfold refineVoiceProfile, buildVoiceRefinementPrompt, bind, throw.
  destruct (textModel oracle); reflexivity.
Qed.

(** [refineVoiceProfile] writes nothing, and asks at most the generative
    model. *)
Lemma refineVoiceProfile_frame (hist : list (ContentAnalysisRow num))
  (fb : list (VoiceFeedbackRow num)) (profile : VoiceProfileRow num) (w : World num) :
  store (snd (refineVoiceProfile oracle hist fb profile w)) = store w
  /\ exists l,
      calls (snd (refineVoiceProfile oracle hist fb profile w)) = calls w ++ l
      /\ Forall (fun c => fst c = GenerateContent) l.
Proof.
  destruct hist as [|sample hist].
  - unfold refineVoiceProfile, buildVoiceRefinementPrompt, try_catch, bind, external,
      console_log, throw, ret.
    destruct (textModel oracle); cbn.
    + destruct (next_fault w); cbn; (split; [reflexivity|]);
        eexists; (split; [reflexivity|]); repeat constructor.
    + split; [reflexivity|]. exists []. split; [now rewrite app_nil_r|constructor].
  - rewrite refineVoiceProfile_samples. cbn. split; [reflexivity|].
    exists []. split; [now rewrite app_nil_r|constructor].
Qed.

(** A failure of [refineVoiceProfile] inside [triggerVoiceRefinement]: the
    run, from the three reads to the handler. *)
Lemma triggerVoiceRefinement_swallows (userId : nat) (w w1 w2 w3 : World num)
  (hist : list (ContentAnalysisRow num)) (fb : list (VoiceFeedbackRow num))
  (profile : VoiceProfileRow num) (e : string) :
  getContentAnalysisHistory userId 20 w = (Ok hist, w1) ->
  getVoiceFeedbackHistory userId 10 w1 = (Ok fb, w2) ->
  (5 <= length hist)%nat ->
  getVoiceProfile userId w2 = (Ok (Some profile), w3) ->
  fst (refineVoiceProfile oracle hist fb profile
         (snd (console_log "Voice Engine: Triggering ML refinement" w3))) = Throw e ->
  triggerVoiceRefinement cols oracle userId w
  = (Ok tt,
     snd (console_log "Voice Engine: Refinement error:"
            (snd (refineVoiceProfile oracle hist fb profile
                    (snd (console_log "Voice Engine: Triggering ML refinement" w3)))))).
Proof.
  intros H1 H2 H5 H3 HR.
  unfold triggerVoiceRefinement, try_catch, bind at 1. rewrite H1.
  unfold bind at 1. rewrite H2.
  assert (L : (length hist <? 5)%nat = false) by (apply Nat.ltb_ge; exact H5).
  rewrite L. unfold bind at 1. rewrite H3.
  unfold bind at 1. unfold console_log at 1. cbn [snd] in HR |- *.
  unfold console_log at 1 in HR. cbn [snd] in HR.
  unfold bind at 1.
  destruct (refineVoiceProfile oracle hist fb profile _) as [[r|e'] w5]; [discriminate HR|].
  reflexivity.
Qed.

(** POST /voice-feedback answers 200 once the feedback is stored. *)
Lemma postVoiceFeedback_success (userId : nat) (body : FeedbackBody num) (w w1 : World num)
  (feedback : VoiceFeedbackRow num) :
  text_truthy (fb_contentType body) = true ->
  text_truthy (fb_feedbackType body) = true ->
  storeVoiceFeedback cols userId (default ""%string (fb_contentType body))
    (default ""%string (fb_feedbackType body)) body w = (Ok feedback, w1) ->
  fst (postVoiceFeedback cols oracle userId body w) = Ok {| status := 200; success := true |}.
Proof.
  intros Hc Hf Hs. unfold postVoiceFeedback, try_catch, bind at 1.
  destruct (fb_contentType body) as [ct|]; [|discriminate].
  destruct (fb_feedbackType body) as [ft|]; [|discriminate].
  cbn in Hc, Hf, Hs. rewrite Hc, Hf. cbn [andb]. rewrite Hs.
  unfold bind. pose proof (triggerVoiceRefinement_total userId w1) as T.
  destruct (triggerVoiceRefinement cols oracle userId w1) as [r w2].
  cbn in T. subst r. reflexivity.
Qed.

End Refinement.

(** C5.  When the user has fewer than 5 stored analysis records,
    [triggerVoiceRefinement] completes normally, leaves the store as it was,
    and the only calls it makes are the two history reads: no call to the
    generative model, no upsert of the profile, no training session, no
    other write. *)
Theorem refine_noop_below_five_records :
  forall num (N : JsNumber num) (cols : ColumnTypes num) (oracle : Oracle num)
         (userId : nat) (w : World num),
    (length (List.filter (fun r => Nat.eqb (ca_user_id r) userId)
               (content_analysis (store w))) < 5)%nat ->
    fst (triggerVoiceRefinement cols oracle userId w) = Ok tt
    /\ store (snd (triggerVoiceRefinement cols oracle userId w)) = store w
    /\ exists l,
        calls (snd (triggerVoiceRefinement cols oracle userId w)) = calls w ++ l
        /\ Forall (fun c => fst c = GetContentAnalysisHistory userId 20
                            \/ fst c = GetVoiceFeedbackHistory userId 10) l
        /\ Forall (fun c => fst c <> GenerateContent /\ is_write (fst c) = false) l.
Proof.
  intros num N cols oracle userId w Hn.
  split; [apply triggerVoiceRefinement_total|].
  destruct (triggerVoiceRefinement_few cols oracle userId w Hn) as (Hs & l & Hl & Hr).
  split; [exact Hs|]. exists l. split; [exact Hl|]. split; [exact Hr|].
  eapply Forall_impl; [exact Hr|]. intros [c o] [E | E]; cbn in E; subst c; cbn; split;
    (discriminate || reflexivity).
Qed.

(** C5 on a store that holds an active profile and four analysis records of
    the user: one record short of a refinement. *)
Lemma refine_noop_witness :
  (length (List.filter (fun r => Nat.eqb (ca_user_id r) 1)
             (content_analysis (store (world_of novice_store [])))) < 5)%nat
  /\ fst (triggerVoiceRefinement exact_columns steady_oracle 1 (world_of novice_store []))
     = Ok tt
  /\ store (snd (triggerVoiceRefinement exact_columns steady_oracle 1
                   (world_of novice_store [])))
     = store (world_of novice_store [])
  /\ exists l,
      calls (snd (triggerVoiceRefinement exact_columns steady_oracle 1
                    (world_of novice_store [])))
      = calls (world_of novice_store []) ++ l
      /\ Forall (fun c => fst c = GetContentAnalysisHistory 1 20
                          \/ fst c = GetVoiceFeedbackHistory 1 10) l
      /\ Forall (fun c => fst c <> GenerateContent /\ is_write (fst c) = false) l.
Proof.
  assert (Hn : (length (List.filter (fun r => Nat.eqb (ca_user_id r) 1)
                          (content_analysis (store (world_of novice_store [])))) < 5)%nat)
    by (cbn; lia).
  split; [exact Hn|].
  exact (refine_noop_below_five_records Q Q_number exact_columns steady_oracle 1
           (world_of novice_store []) Hn).
Defined.

(** C6.  If [refineVoiceProfile] fails during [triggerVoiceRefinement] —
    the three reads succeeded, there are at least 5 analysis records and an
    active profile, and the call to [refineVoiceProfile] throws, whatever the
    cause — the error is caught: [triggerVoiceRefinement] completes normally,
    the failure is logged, the store is as it was (the voice profile is
    unchanged and no training session is written) and no write was sent to
    the store.  The route that calls it, POST /voice-feedback, answers 200
    once the feedback itself is stored, whatever the refinement did. *)
Theorem refine_swallows_oracle_failure :
  forall num (N : JsNumber num) (cols : ColumnTypes num) (oracle : Oracle num)
         (userId : nat) (w : World num),
    (forall hist fb profile w1 w2 w3 e,
        getContentAnalysisHistory userId 20 w = (Ok hist, w1) ->
        getVoiceFeedbackHistory userId 10 w1 = (Ok fb, w2) ->
        (5 <= length hist)%nat ->
        getVoiceProfile userId w2 = (Ok (Some profile), w3) ->
        fst (refineVoiceProfile oracle hist fb profile
               (snd (console_log "Voice Engine: Triggering ML refinement" w3))) = Throw e ->
        fst (triggerVoiceRefinement cols oracle userId w) = Ok tt
        /\ voice_profiles (store (snd (triggerVoiceRefinement cols oracle userId w)))
           = voice_profiles (store w)
        /\ voice_training_sessions (store (snd (triggerVoiceRefinement cols oracle userId w)))
           = voice_training_sessions (store w)
        /\ store (snd (triggerVoiceRefinement cols oracle userId w)) = store w
        /\ last (console (snd (triggerVoiceRefinement cols oracle userId w)))
           = Some "Voice Engine: Refinement error:"%string
        /\ Forall (fun c => is_write (fst c) = false)
             (new_calls w (snd (triggerVoiceRefinement cols oracle userId w))))
    /\ (forall body feedback w1,
          text_truthy (fb_contentType body) = true ->
          text_truthy (fb_feedbackType body) = true ->
          storeVoiceFeedback cols userId (default ""%string (fb_contentType body))
            (default ""%string (fb_feedbackType body)) body w = (Ok feedback, w1) ->
          fst (postVoiceFeedback cols oracle userId body w)
          = Ok {| status := 200; success := true |}).
Proof.
  intros num N cols oracle userId w. split.
  - intros hist fb profile w1 w2 w3 e H1 H2 H5 H3 HR.
    rewrite (triggerVoiceRefinement_swallows cols oracle userId w w1 w2 w3 hist fb profile e
               H1 H2 H5 H3 HR).
    cbn [fst snd].
    apply read_frame in H1 as (S1 & _ & o1 & C1).
    apply read_frame in H2 as (S2 & _ & o2 & C2).
    apply read_frame in H3 as (S3 & _ & o3 & C3).
    destruct (refineVoiceProfile_frame oracle hist fb profile
                (snd (console_log "Voice Engine: Triggering ML refinement" w3)))
      as (S4 & l & C4 & G).
    set (w5 := snd (refineVoiceProfile oracle hist fb profile _)) in *.
    assert (S : store w5 = store w).
    { rewrite S4. cbn. congruence. }
    cbn [console_log snd store console calls]. rewrite S.
    split; [reflexivity|]. split; [reflexivity|]. split; [reflexivity|].
    split; [reflexivity|]. split; [apply last_snoc|].
    unfold new_calls. cbn [calls]. rewrite C4. cbn [console_log snd calls].
    rewrite C3, C2, C1, <- !app_assoc, drop_app_length.
    cbn [app]. repeat (constructor; [first [destruct o1 | idtac]; reflexivity|]).
    eapply Forall_impl; [exact G|]. intros [c o] E. cbn in E |- *. now subst c.
  - intros body feedback w1 Hc Hf Hs.
    exact (postVoiceFeedback_success cols oracle userId body w w1 feedback Hc Hf Hs).
Qed.

(** C6 on a store with six analysis records and an active profile, with a
    store and a generative model that do not fail: the prompt cannot be
    built from the records, and the failure is swallowed. *)
Lemma refine_swallows_witness :
  fst (triggerVoiceRefinement exact_columns steady_oracle 1 (world_of seasoned_store []))
  = Ok tt
  /\ store (snd (triggerVoiceRefinement exact_columns steady_oracle 1
                   (world_of seasoned_store [])))
     = seasoned_store
  /\ console (snd (triggerVoiceRefinement exact_columns steady_oracle 1
                     (world_of seasoned_store [])))
     = [ "Voice Engine: Triggering ML refinement"%string;
         "Voice Engine: Refinement error:"%string ].
Proof.
  edestruct (proj1 (refine_swallows_oracle_failure Q Q_number exact_columns steady_oracle 1
                      (world_of seasoned_store [])))
    as (Hr & _ & _ & Hs & _ & _).
  - vm_compute. reflexivity.
  - vm_compute. reflexivity.
  - cbn. lia.
  - vm_compute. reflexivity.
  - vm_compute. reflexivity.
  - split; [exact Hr|]. split; [exact Hs|]. vm_compute. reflexivity.
Defined.

(** ** Language advisor *)

Lemma Q_share_laws : share_laws Q.
Proof.
  split; [reflexivity|]. intros s Hs. cbn in Hs |- *.
  apply negb_false_iff, Qeq_bool_iff in Hs.
  apply not_true_is_false. intros E.
  apply Qle_bool_iff in E. rewrite Hs in E. vm_compute in E. now apply E.
Qed.

Lemma f64_share_laws : share_laws float.
Proof.
  split; [vm_compute; reflexivity|]. intros s Hs.
  cbn in Hs. apply negb_false_iff in Hs.
  unfold n_ge, n_le, f64_number. rewrite FloatAxioms.leb_spec.
  unfold is_nan, is_zero in Hs. rewrite !FloatAxioms.eqb_spec in Hs.
  destruct (Prim2SF s) as [b|b| |b m e] eqn:E.
  - destruct b; vm_compute; reflexivity.
  - destruct b; cbn in Hs; discriminate.
  - reflexivity.
  - exfalso. cbn in Hs. rewrite Z.compare_refl, Pos.compare_refl in Hs.
    destruct b; cbn in Hs; discriminate.
Qed.

Section Ranking.
Context {num : Type} `{JsNumber num} (identifier : LanguageIdentifier).

Lemma insert_by_index_elem {V} (x y : N * (string * V)) sorted :
  y ∈ insert_by_index x sorted <-> y = x \/ y ∈ sorted.
Proof.
  induction sorted as [|z sorted IH]; cbn.
  - rewrite list_elem_of_singleton, elem_of_nil. tauto.
  - destruct (fst x <? fst z)%N; rewrite !elem_of_cons; [tauto|]. rewrite IH. tauto.
Qed.

Lemma indexed_fold_elem {V} (props : list (string * V)) acc (y : N * (string * V)) :
  y ∈ fold_left
        (fun acc p =>
           match array_index (fst p) with
           | Some i => insert_by_index (i, p) acc
           | None => acc
           end) props acc
  <-> y ∈ acc \/ (snd y ∈ props /\ array_index (fst (snd y)) = Some (fst y)).
Proof.
  revert acc. induction props as [|p props IH]; intros acc; cbn [fold_left].
  - rewrite elem_of_nil. tauto.
  - rewrite IH, elem_of_cons. destruct (array_index (fst p)) as [i|] eqn:E.
    + rewrite insert_by_index_elem. split.
      * intros [[-> | Hy] | [Hy Hi]]; cbn; auto.
      * intros [Hy | [[Hy | Hy] Hi]]; auto.
        left; left. destruct y as [j q]; cbn in *; subst q. congruence.
    + split.
      * intros [Hy | [Hy Hi]]; auto.
      * intros [Hy | [[Hy | Hy] Hi]]; auto. subst p. congruence.
Qed.

Lemma object_entries_elem {V} (props : list (string * V)) (x : string * V) :
  x ∈ object_entries props <-> x ∈ props.
Proof.
  unfold object_entries. rewrite elem_of_app, list_elem_of_fmap.
  setoid_rewrite indexed_fold_elem. rewrite list_elem_of_In, filter_In, <- list_elem_of_In.
  split.
  - intros [(y & -> & [Hy | [Hy _]]) | [Hx _]]; auto. now apply elem_of_nil in Hy.
  - intros Hx. destruct (array_index (fst x)) as [i|] eqn:E.
    + left. exists (i, x). cbn. auto.
    + right. auto.
Qed.

Lemma insert_ranked_elem (x y : string * num) sorted :
  y ∈ insert_ranked x sorted <-> y = x \/ y ∈ sorted.
Proof.
  induction sorted as [|z sorted IH]; cbn.
  - rewrite list_elem_of_singleton, elem_of_nil. tauto.
  - destruct (n_gt (n_sub (snd x) (snd z)) (n_ofZ 0)); rewrite !elem_of_cons; [tauto|].
    rewrite IH. tauto.
Qed.

Lemma ranked_fold_elem (l acc : list (string * num)) (y : string * num) :
  y ∈ fold_left (fun sorted x => insert_ranked x sorted) l acc <-> y ∈ acc \/ y ∈ l.
Proof.
  revert acc. induction l as [|x l IH]; intros acc; cbn [fold_left].
  - rewrite elem_of_nil. tauto.
  - rewrite IH, insert_ranked_elem, elem_of_cons. tauto.
Qed.

Lemma ranked_entries_elem (distribution : list (string * num)) (x : string * num) :
  x ∈ ranked_entries distribution <-> x ∈ distribution.
Proof.
  unfold ranked_entries. rewrite ranked_fold_elem, object_entries_elem, elem_of_nil. tauto.
Qed.

Lemma ranked_entries_nonempty (distribution : list (string * num)) :
  distribution <> [] -> ranked_entries distribution <> [].
Proof.
  destruct distribution as [|x l]; [congruence|]. intros _ E.
  assert (Hx : x ∈ ranked_entries (x :: l)) by (apply ranked_entries_elem; left).
  rewrite E in Hx. now apply elem_of_nil in Hx.
Qed.

Lemma ranked_entries_nil : ranked_entries (num := num) [] = [].
Proof. reflexivity. Qed.

Lemma recommendLanguage_history_stage (request : LanguageRequest) (w w' : World num)
  (distribution : list (string * num)) :
  share_laws num ->
  text_truthy (preferredLanguage request) = false ->
  caption_stage identifier request = None ->
  text_truthy (imageLanguageHint request) = false ->
  detectLanguageDistributionForUser identifier (req_userId request) 50 w
  = (Ok (Some distribution), w') ->
  distribution <> [] ->
  exists top rest,
    ranked_entries distribution = top :: rest
    /\ recommendLanguage identifier request w
       = (Ok (spec_history_stage top (hd_error rest) ["history"%string]), w').
Proof.
  intros [L0 Lf] Hp Hc Hi Hd Hne.
  pose proof (ranked_entries_nonempty distribution Hne) as Hr.
  destruct (ranked_entries distribution) as [|[topLang topShare] rest] eqn:R; [congruence|].
  exists (topLang, topShare), rest. split; [reflexivity|].
  unfold caption_stage in Hc.
  unfold recommendLanguage. rewrite Hp, Hc. unfold bind. rewrite Hd, Hi, R.
  unfold spec_history_stage. cbn [fst snd app].
  destruct (n_ge topShare (n_dec 7 1)); [reflexivity|].
  destruct (n_ge topShare (n_dec 5 1)); [|reflexivity]. cbn [andb].
  destruct rest as [|[secondLang secondShare] rest']; cbn [hd_error option_map fst snd].
  - rewrite L0. reflexivity.
  - destruct (n_truthy secondShare) eqn:T.
    + destruct (n_ge secondShare (n_dec 2 1)); reflexivity.
    + rewrite L0, (Lf _ T). reflexivity.
Qed.

(** At the history stage a distribution without a property has no top entry
    to destructure. *)
Lemma recommendLanguage_no_entry (request : LanguageRequest) (w w' : World num) :
  text_truthy (preferredLanguage request) = false ->
  caption_stage identifier request = None ->
  text_truthy (imageLanguageHint request) = false ->
  detectLanguageDistributionForUser identifier (req_userId request) 50 w
  = (Ok (Some []), w') ->
  recommendLanguage identifier request w
  = (Throw "undefined is not iterable (cannot read property Symbol(Symbol.iterator))", w').
Proof.
  intros Hp Hc Hi Hd. unfold caption_stage in Hc.
  unfold recommendLanguage. rewrite Hp, Hc. unfold bind. rewrite Hd, Hi. reflexivity.
Qed.
End Ranking.

Lemma Q_gt_sub (x y : Q) : n_gt (n_sub x y) (n_ofZ 0) = true <-> (y < x)%Q.
Proof.
  cbn. rewrite negb_true_iff. split.
  - intros E. apply Qnot_le_lt. intros L. 
    assert (Qle_bool (x - y) (inject_Z 0) = true); [|congruence].
    apply Qle_bool_iff. change (inject_Z 0) with 0%Q. lra.
  - intros L. apply not_true_is_false. intros E. apply Qle_bool_iff in E.
    change (inject_Z 0) with 0%Q in E. lra.
Qed.

Lemma Q_insert_ranked_sorted (x : string * Q) (sorted : list (string * Q)) :
  StronglySorted share_ge sorted -> StronglySorted share_ge (insert_ranked x sorted).
Proof.
  induction sorted as [|y sorted IH]; intros Hs; cbn [insert_ranked].
  - repeat constructor.
  - apply StronglySorted_inv in Hs as [Hs Hy].
    destruct (n_gt (n_sub (snd x) (snd y)) (n_ofZ 0)) eqn:E.
    + apply Q_gt_sub in E. constructor; [constructor; assumption|].
      constructor; [unfold share_ge; lra|].
      eapply List.Forall_impl; [|exact Hy]. unfold share_ge. intros z Hz. lra.
    + assert (L : (snd x <= snd y)%Q).
      { apply Qnot_lt_le. intros L. apply Q_gt_sub in L. congruence. }
      constructor; [now apply IH|].
      apply List.Forall_forall. intros z Hz.
      apply list_elem_of_In, insert_ranked_elem in Hz as [-> | Hz]; [exact L|].
      rewrite List.Forall_forall in Hy. apply Hy. now apply list_elem_of_In.
Qed.

Lemma Q_ranked_sorted (distribution : list (string * Q)) :
  StronglySorted share_ge (ranked_entries distribution).
Proof.
  unfold ranked_entries.
  assert (G : forall l acc, StronglySorted share_ge acc ->
              StronglySorted share_ge
                (fold_left (fun sorted x => insert_ranked x sorted) l acc)).
  { induction l as [|x l IH]; intros acc Ha; cbn; [exact Ha|].
    apply IH. now apply Q_insert_ranked_sorted. }
  apply G. constructor.
Qed.

Lemma Q_top_is_largest (distribution : list (string * Q)) top rest :
  ranked_entries distribution = top :: rest ->
  top ∈ distribution
  /\ (forall x, x ∈ distribution -> (snd x <= snd top)%Q)
  /\ (forall second, hd_error rest = Some second ->
        second ∈ distribution
        /\ forall x, x ∈ rest -> (snd x <= snd second)%Q).
Proof.
  intros R. pose proof (Q_ranked_sorted distribution) as S. rewrite R in S.
  apply StronglySorted_inv in S as [S Ht]. rewrite List.Forall_forall in Ht.
  split; [apply ranked_entries_elem; rewrite R; left|].
  split.
  - intros x Hx. apply ranked_entries_elem in Hx. rewrite R in Hx.
    apply elem_of_cons in Hx as [-> | Hx]; [apply Qle_refl|].
    apply Ht. now apply list_elem_of_In.
  - intros second Hs. destruct rest as [|s rest']; [discriminate|]. injection Hs as ->.
    split; [apply ranked_entries_elem; rewrite R; right; left|].
    apply StronglySorted_inv in S as [_ S]. rewrite List.Forall_forall in S.
    intros x Hx. apply elem_of_cons in Hx as [-> | Hx]; [apply Qle_refl|].
    apply S. now apply list_elem_of_In.
Qed.

Section PriorityChain.
Context {num : Type} `{JsNumber num} (identifier : LanguageIdentifier).

Lemma recommendLanguage_preference (request : LanguageRequest) (w : World num) :
  text_truthy (preferredLanguage request) = true ->
  recommendLanguage identifier request w
  = (Ok {| mode := "single"; primary := default ""%string (preferredLanguage request);
           secondary := None; reason := "user-preference";
           sources := ["preference"%string] |}, w).
Proof. intros Hp. unfold recommendLanguage. rewrite Hp. reflexivity. Qed.

Lemma recommendLanguage_reads_history (request : LanguageRequest) (w : World num) uid :
  text_truthy (preferredLanguage request) = false ->
  req_userId request = Some (S uid) ->
  exists outcome,
    calls (snd (recommendLanguage identifier request w))
    = calls w ++ [(GetSavedPosts (S uid) (Some 50%nat), outcome)].
Proof.
  intros Hp Hu.
  assert (D : exists outcome,
             calls (snd (detectLanguageDistributionForUser identifier (Some (S uid)) 50 w))
             = calls w ++ [(GetSavedPosts (S uid) (Some 50%nat), outcome)]).
  { unfold detectLanguageDistributionForUser, getSavedPosts, bind, ret, external.
    destruct (next_fault w) as [e|]; cbn [fst snd]; [eexists; reflexivity|].
    exists None. repeat case_match; reflexivity. }
  destruct D as [outcome D]. exists outcome. rewrite <- D.
  unfold recommendLanguage. rewrite Hp, Hu. unfold bind, ret, throw.
  destruct (detectLanguageDistributionForUser identifier (Some (S uid)) 50 w)
    as [[distribution|e] w1]; [|reflexivity].
  repeat case_match; reflexivity.
Qed.

(** The run of [recommendLanguage] without a preferred language: the
    distribution is computed first, and the stages are then tried in
    order. *)
Lemma recommendLanguage_stages (request : LanguageRequest) (w w1 : World num)
  (outcome : Outcome (option (list (string * num)))) :
  text_truthy (preferredLanguage request) = false ->
  detectLanguageDistributionForUser identifier (req_userId request) 50 w = (outcome, w1) ->
  snd (recommendLanguage identifier request w) = w1
  /\ match outcome with
     | Throw e => fst (recommendLanguage identifier request w) = Throw e
     | Ok distribution =>
         let history : list string :=
           match distribution with Some _ => ["history"%string] | None => [] end in
         match caption_stage identifier request with
         | Some detection =>
             fst (recommendLanguage identifier request w)
             = Ok {| mode := "single"; primary := isoCode detection; secondary := None;
                     reason := "caption-detected";
                     sources := "caption"%string :: history |}
         | None =>
             if text_truthy (imageLanguageHint request)
             then fst (recommendLanguage identifier request w)
                  = Ok {| mode := "single";
                          primary := default ""%string (imageLanguageHint request);
                          secondary := None; reason := "image-detected";
                          sources := history ++ ["image"%string] |}
             else
               match distribution with
               | Some distribution =>
                   match ranked_entries distribution with
                   | top :: rest =>
                       exists r,
                         fst (recommendLanguage identifier request w) = Ok r
                         /\ primary r = fst top
                         /\ sources r = ["history"%string]
                         /\ (reason r = "audience-majority"%string
                             \/ reason r = "audience-mixed"%string
                             \/ reason r = "audience-default"%string)
                   | [] =>
                       fst (recommendLanguage identifier request w)
                       = Throw "undefined is not iterable (cannot read property Symbol(Symbol.iterator))"
                   end
               | None =>
                   fst (recommendLanguage identifier request w)
                   = Ok {| mode := "single";
                           primary := default DEFAULT_LANGUAGE (fallbackLanguage request);
                           secondary := None; reason := "fallback"; sources := [] |}
               end
         end
     end.
Proof.
  intros Hp Hd. unfold recommendLanguage. rewrite Hp.
  fold (caption_stage identifier request). unfold bind. rewrite Hd.
  destruct outcome as [distribution|e]; [|split; reflexivity].
  destruct (caption_stage identifier request) as [detection|].
  { split; [reflexivity|]. destruct distribution; reflexivity. }
  destruct (text_truthy (imageLanguageHint request)).
  { split; [reflexivity|]. destruct distribution; reflexivity. }
  destruct distribution as [distribution|]; [|split; reflexivity].
  destruct (ranked_entries distribution) as [|[topLang topShare] rest];
    [split; reflexivity|].
  cbv zeta. unfold ret.
  repeat case_match; (split; [reflexivity|]); eexists; (split; [reflexivity|]);
    cbn; auto.
Qed.
End PriorityChain.

(** C2.  The history stage has a case the threshold rule does not cover.  A
    post saved with the language ["__proto__"] and a caption in which no
    language is detected is counted, so the distribution is not null, but
    the assignment of its share creates no property: the distribution is the
    empty object.  At the history stage — no preferred language, no language
    detected in the caption, no image hint — [recommendLanguage] then has no
    top-ranked entry and throws a TypeError instead of returning one of the
    three results.  This is so in general, and for user 1 with the single
    saved post (caption "ok", language "__proto__") on binary64 and on exact
    rationals. *)
Theorem history_stage_fails_without_entries :
  (forall num (N : JsNumber num) (identifier : LanguageIdentifier)
          (request : LanguageRequest) (w w' : World num),
      text_truthy (preferredLanguage request) = false ->
      caption_stage identifier request = None ->
      text_truthy (imageLanguageHint request) = false ->
      detectLanguageDistributionForUser identifier (req_userId request) 50 w
      = (Ok (Some []), w') ->
      recommendLanguage identifier request w
      = (Throw "undefined is not iterable (cannot read property Symbol(Symbol.iterator))",
         w'))
  /\ fst (detectLanguageDistributionForUser (num := float) english_identifier (Some 1%nat) 50
            (world_of (store_with_posts [proto_post]) []))
     = Ok (Some [])
  /\ fst (recommendLanguage (num := float) english_identifier (request_of None)
            (world_of (store_with_posts [proto_post]) []))
     = Throw "undefined is not iterable (cannot read property Symbol(Symbol.iterator))"
  /\ fst (detectLanguageDistributionForUser (num := Q) english_identifier (Some 1%nat) 50
            (world_of (store_with_posts [proto_post]) []))
     = Ok (Some [])
  /\ fst (recommendLanguage (num := Q) english_identifier (request_of None)
            (world_of (store_with_posts [proto_post]) []))
     = Throw "undefined is not iterable (cannot read property Symbol(Symbol.iterator))".
Proof.
  split; [intros; now apply recommendLanguage_no_entry|].
  repeat split; vm_compute; reflexivity.
Qed.

(** C8 (amended).  [recommendLanguage] decides in the order preference →
    caption detection → image hint → history → fallback, and the first stage
    that produces a result decides it: the history stage when the
    distribution is not null, the fallback when it is null.  A preferred
    language returns at once, with no access to the store.  Without one, the
    post-history distribution is computed first — one read of the saved
    posts, for a user id that is given — before the caption and image
    results are looked at: the world the run ends in is the one that
    computation leaves, whichever stage decides, a failure of it fails the
    run, and the result lists "history" among its sources exactly when the
    distribution is not null (after "caption", before "image"). *)
Theorem recommendLanguage_priority_chain :
  forall num (N : JsNumber num) (identifier : LanguageIdentifier)
         (request : LanguageRequest) (w : World num),
    (text_truthy (preferredLanguage request) = true ->
     recommendLanguage identifier request w
     = (Ok {| mode := "single"; primary := default ""%string (preferredLanguage request);
              secondary := None; reason := "user-preference";
              sources := ["preference"%string] |}, w))
    /\ (text_truthy (preferredLanguage request) = false ->
        forall uid, req_userId request = Some (S uid) ->
        exists outcome,
          calls (snd (recommendLanguage identifier request w))
          = calls w ++ [(GetSavedPosts (S uid) (Some 50%nat), outcome)])
    /\ (text_truthy (preferredLanguage request) = false ->
        forall outcome w1,
          detectLanguageDistributionForUser identifier (req_userId request) 50 w
          = (outcome, w1) ->
          snd (recommendLanguage identifier request w) = w1
          /\ match outcome with
             | Throw e => fst (recommendLanguage identifier request w) = Throw e
             | Ok distribution =>
                 let history : list string :=
                   match distribution with Some _ => ["history"%string] | None => [] end in
                 match caption_stage identifier request with
                 | Some detection =>
                     fst (recommendLanguage identifier request w)
                     = Ok {| mode := "single"; primary := isoCode detection;
                             secondary := None; reason := "caption-detected";
                             sources := "caption"%string :: history |}
                 | None =>
                     if text_truthy (imageLanguageHint request)
                     then fst (recommendLanguage identifier request w)
                          = Ok {| mode := "single";
                                  primary := default ""%string (imageLanguageHint request);
                                  secondary := None; reason := "image-detected";
                                  sources := history ++ ["image"%string] |}
                     else
                       match distribution with
                       | Some distribution =>
                           match ranked_entries distribution with
                           | top :: rest =>
                               exists r,
                                 fst (recommendLanguage identifier request w) = Ok r
                                 /\ primary r = fst top
                                 /\ sources r = ["history"%string]
                                 /\ (reason r = "audience-majority"%string
                                     \/ reason r = "audience-mixed"%string
                                     \/ reason r = "audience-default"%string)
                           | [] =>
                               fst (recommendLanguage identifier request w)
                               = Throw "undefined is not iterable (cannot read property Symbol(Symbol.iterator))"
                           end
                       | None =>
                           fst (recommendLanguage identifier request w)
                           = Ok {| mode := "single";
                                   primary :=
                                     default DEFAULT_LANGUAGE (fallbackLanguage request);
                                   secondary := None; reason := "fallback";
                                   sources := [] |}
                       end
                 end
             end).
Proof.
  intros num N identifier request w.
  split; [apply recommendLanguage_preference|].
  split; [intros Hp uid Hu; now apply recommendLanguage_reads_history|].
  intros Hp outcome w1 Hd.
  exact (recommendLanguage_stages identifier request w w1 outcome Hp Hd).
Qed.

(** C8 at a request that carries only a preferred language. *)
Lemma recommendLanguage_priority_witness :
  recommendLanguage english_identifier
    {| req_userId := Some 1%nat; captionText := Some (js "hello world");
       preferredLanguage := Some "ta"%string; imageLanguageHint := None;
       fallbackLanguage := None |}
    (world_of (@empty_store Q) [])
  = (Ok {| mode := "single"; primary := "ta"; secondary := None;
           reason := "user-preference"; sources := ["preference"%string] |},
     world_of (@empty_store Q) []).
Proof.
  apply (proj1 (recommendLanguage_priority_chain Q Q_number english_identifier
                  {| req_userId := Some 1%nat; captionText := Some (js "hello world");
                     preferredLanguage := Some "ta"%string; imageLanguageHint := None;
                     fallbackLanguage := None |}
                  (world_of empty_store []))).
  reflexivity.
Defined.

(** C8 as stated fails: for a caption whose language is detected the result
    is "caption-detected", yet the saved posts were read to compute the
    distribution (and the result lists "history" among its sources); and when
    that read fails, the run fails although caption detection had a result. *)
Lemma distribution_computed_before_caption_result :
  recommendLanguage english_identifier (request_of (Some (js "hello world")))
    (world_of (store_with_posts (repeat (post_in "hi") 4)) [])
  = (Ok {| mode := "single"; primary := "en"; secondary := None;
           reason := "caption-detected";
           sources := ["caption"%string; "history"%string] |},
     {| store := store_with_posts (repeat (post_in "hi") 4);
        calls := [(GetSavedPosts 1 (Some 50%nat), None)];
        faults := []; console := []; random30 := [] |})
  /\ fst (recommendLanguage english_identifier (request_of (Some (js "hello world")))
            (world_of (@store_with_posts Q (repeat (post_in "hi") 4))
               [Some "connection refused"%string]))
     = Throw "connection refused".
Proof. split; vm_compute; reflexivity. Qed.

(** ** Upserting a voice profile *)

Section Upsert.
Context {num : Type} `{JsNumber num} (cols : ColumnTypes num).

Lemma bind_vector_get (values : VoiceProfileValues num) (v : VoiceVector num) :
  bind_vector cols values = Some v ->
  forall d, pg_decimal_3_2 cols (value_of values d) = Some (vget v d).
Proof.
  unfold bind_vector. intros E d.
  repeat case_match; try discriminate. injection E as <-.
  destruct d; cbn; assumption.
Qed.

Lemma value_of_values (voiceData : gmap string (JsVal num)) (d : Dimension) :
  value_of (upsertVoiceProfile_values voiceData) d
  = js_or (voiceData !! data_key d) (VNum (n_dec 5 1)).
Proof. destruct d; reflexivity. Qed.

Lemma upsertVoiceProfile_stores (userId : nat) (voiceData : gmap string (JsVal num))
  (w : World num) row w' :
  upsertVoiceProfile cols userId voiceData w = (Ok row, w') ->
  voice_profiles (store w') !! userId = Some row
  /\ (forall d, pg_decimal_3_2 cols (js_or (voiceData !! data_key d) (VNum (n_dec 5 1)))
                = Some (vget (vp_vector row) d))
  /\ (forall other, other <> userId ->
        voice_profiles (store w') !! other = voice_profiles (store w) !! other).
Proof.
  unfold upsertVoiceProfile, external, sql_upsert_voice_profile.
  destruct (next_fault w); [discriminate|].
  destruct (pg_varchar_100 cols _) as [name|]; [|discriminate].
  destruct (bind_vector cols _) as [v|] eqn:B; [|discriminate].
  intros [= <- <-]. cbn. split; [apply lookup_insert_eq|]. split.
  - intros d. rewrite <- value_of_values. now apply bind_vector_get.
  - intros other Hne. now apply lookup_insert_ne.
Qed.

Lemma upsertVoiceProfile_succeeds (userId : nat) (voiceData : gmap string (JsVal num))
  (w : World num) :
  next_fault w = None ->
  is_Some (pg_varchar_100 cols (js_or (voiceData !! "profileName") (VStr "Default Profile"))) ->
  (forall d, is_Some (pg_decimal_3_2 cols (js_or (voiceData !! data_key d) (VNum (n_dec 5 1))))) ->
  exists row w', upsertVoiceProfile cols userId voiceData w = (Ok row, w').
Proof.
  intros Hn [name Hname] Hd.
  unfold upsertVoiceProfile, external, sql_upsert_voice_profile. rewrite Hn.
  cbn [val_profile_name upsertVoiceProfile_values]. rewrite Hname.
  unfold bind_vector.
  pose proof (Hd formality) as [? E1]. pose proof (Hd humor) as [? E2].
  pose proof (Hd enthusiasm) as [? E3]. pose proof (Hd professionalism) as [? E4].
  pose proof (Hd creativity) as [? E5]. pose proof (Hd emotional_tone) as [? E6].
  pose proof (Hd confidence) as [? E7]. pose proof (Hd warmth) as [? E8].
  cbn [data_key] in *.
  cbn [upsertVoiceProfile_values val_formality val_humor val_enthusiasm val_professionalism
       val_creativity val_emotional_tone val_confidence val_warmth].
  rewrite E1, E2, E3, E4, E5, E6, E7, E8. eauto.
Qed.
End Upsert.

Lemma Q_decimal_unit (q y : Q) :
  (0 <= q <= 1)%Q -> Q_decimal_3_2 q = Some y -> (0 <= y <= 1)%Q.
Proof.
  intros Hq. unfold Q_decimal_3_2, Q_round2.
  assert (L : Qle_bool 0 q = true) by (apply Qle_bool_iff; lra). rewrite L.
  assert (H0 : (Qfloor 0 <= Qfloor (q * 100 + (1 # 2)))%Z)
    by (apply Qfloor_resp_le; lra).
  assert (H1 : (Qfloor (q * 100 + (1 # 2)) <= Qfloor (100 + (1 # 2)))%Z)
    by (apply Qfloor_resp_le; lra).
  change (Qfloor 0) with 0%Z in H0. change (Qfloor (100 + (1 # 2))) with 100%Z in H1.
  set (r := Qfloor (q * 100 + (1 # 2))) in *. clearbody r.
  destruct (Z.abs r <? 1000)%Z; [|discriminate]. intros [= <-].
  unfold Qle; cbn. lia.
Qed.

Lemma Q_decimal_half : Q_decimal_3_2 (n_dec 5 1) = Some (50 # 100)%Q.
Proof. reflexivity. Qed.

Lemma exact_upsert_unit (userId : nat) (voiceData : gmap string (JsVal Q))
  (w : World Q) row w' :
  upsertVoiceProfile exact_columns userId voiceData w = (Ok row, w') ->
  forall d,
    (voiceData !! data_key d = None -> (vget (vp_vector row) d == 1 # 2)%Q)
    /\ (forall q, voiceData !! data_key d = Some (VNum q) -> (0 <= q <= 1)%Q ->
          (0 <= vget (vp_vector row) d <= 1)%Q).
Proof.
  intros U d. apply upsertVoiceProfile_stores in U as (_ & U & _). specialize (U d).
  split.
  - intros E. rewrite E in U. cbn in U. injection U as <-. reflexivity.
  - intros q E Hq. rewrite E in U. cbn [js_or truthy] in U.
    destruct (n_truthy q); cbn in U.
    + now apply (Q_decimal_unit q).
    + injection U as <-. split; apply Qle_bool_iff; reflexivity.
Qed.

(** C1 (amended).  [upsertVoiceProfile] replaces all eight dimensions of the
    user's row, on first creation and on update alike: each stored dimension
    is what the column makes of the supplied value when a truthy one is
    supplied, and of 0.5 otherwise, whatever the row held before; the stored
    row is the one returned, and the rows of other users are untouched.  The
    upsert succeeds when the call does not fail and the store accepts the
    parameters.  With the columns read exactly, a dimension missing from the
    partial vector is stored as 0.5, and a supplied dimension that lies in
    [0,1] is stored within [0,1]. *)
Theorem upsertVoiceProfile_replaces_dimensions :
  (forall num (N : JsNumber num) (cols : ColumnTypes num) (userId : nat)
          (voiceData : gmap string (JsVal num)) (w : World num) row w',
      upsertVoiceProfile cols userId voiceData w = (Ok row, w') ->
      voice_profiles (store w') !! userId = Some row
      /\ (forall d,
            pg_decimal_3_2 cols (js_or (voiceData !! data_key d) (VNum (n_dec 5 1)))
            = Some (vget (vp_vector row) d))
      /\ (forall other, other <> userId ->
            voice_profiles (store w') !! other = voice_profiles (store w) !! other))
  /\ (forall num (N : JsNumber num) (cols : ColumnTypes num) (userId : nat)
            (voiceData : gmap string (JsVal num)) (w : World num),
        next_fault w = None ->
        is_Some (pg_varchar_100 cols
                   (js_or (voiceData !! "profileName") (VStr "Default Profile"))) ->
        (forall d,
            is_Some (pg_decimal_3_2 cols
                       (js_or (voiceData !! data_key d) (VNum (n_dec 5 1))))) ->
        exists row w', upsertVoiceProfile cols userId voiceData w = (Ok row, w'))
  /\ (forall (userId : nat) (voiceData : gmap string (JsVal Q)) (w : World Q) row w',
        upsertVoiceProfile exact_columns userId voiceData w = (Ok row, w') ->
        forall d,
          (voiceData !! data_key d = None -> (vget (vp_vector row) d == 1 # 2)%Q)
          /\ (forall q, voiceData !! data_key d = Some (VNum q) -> (0 <= q <= 1)%Q ->
                (0 <= vget (vp_vector row) d <= 1)%Q)).
Proof.
  split; [intros; now apply upsertVoiceProfile_stores|].
  split; [intros; now apply upsertVoiceProfile_succeeds|].
  intros; now apply (exact_upsert_unit userId voiceData w row w').
Qed.

(** C1 at the first upsert of user 1 with the partial vector
    [{formality: 0.8}]. *)
Lemma upsertVoiceProfile_witness :
  exists row w',
    upsertVoiceProfile exact_columns 1 {[ "formality"%string := VNum (8 # 10)%Q ]}
      (world_of empty_store []) = (Ok row, w')
    /\ voice_profiles (store w') !! 1%nat = Some row
    /\ (v_formality (vp_vector row) == 8 # 10)%Q
    /\ (v_humor (vp_vector row) == 1 # 2)%Q.
Proof.
  eexists _, _. split; [vm_compute; reflexivity|].
  split; [|split; reflexivity].
  refine (proj1 (proj1 upsertVoiceProfile_replaces_dimensions Q Q_number exact_columns 1
                   {[ "formality"%string := VNum (8 # 10)%Q ]} (world_of empty_store [])
                   _ _ _)).
  vm_compute. reflexivity.
Defined.

(** C1 as stated fails twice.  On an update, a dimension missing from the
    partial vector does not keep its stored value: user 1 holds humor 0.9,
    and after PUT /voice-profiles/:id with [{formality: 0.8}] the stored
    humor is 0.5.  And a supplied value is not clamped: [{formality: 1.7}]
    is stored as 1.7, beyond 1. *)
Lemma upsert_neither_retains_nor_clamps :
  (exists old, voice_profiles seasoned_store !! 1%nat = Some old
               /\ (v_humor (vp_vector old) == 9 # 10)%Q)
  /\ (exists row w',
        putVoiceProfile exact_columns 1 {[ "formality"%string := VNum (8 # 10)%Q ]}
          (world_of seasoned_store [])
        = (Ok ({| status := 200; success := true |}, Some row), w')
        /\ voice_profiles (store w') !! 1%nat = Some row
        /\ (v_humor (vp_vector row) == 1 # 2)%Q
        /\ ~ (v_humor (vp_vector row) == 9 # 10)%Q)
  /\ (exists row w',
        putVoiceProfile exact_columns 1 {[ "formality"%string := VNum (17 # 10)%Q ]}
          (world_of seasoned_store [])
        = (Ok ({| status := 200; success := true |}, Some row), w')
        /\ voice_profiles (store w') !! 1%nat = Some row
        /\ (v_formality (vp_vector row) == 17 # 10)%Q
        /\ ~ (v_formality (vp_vector row) <= 1)%Q).
Proof.
  split.
  { eexists. split; [vm_compute; reflexivity|]. reflexivity. }
  split.
  - eexists _, _. split; [vm_compute; reflexivity|].
    split; [vm_compute; reflexivity|]. split; [reflexivity|]. discriminate.
  - eexists _, _. split; [vm_compute; reflexivity|].
    split; [vm_compute; reflexivity|]. split; [reflexivity|].
    intros L. apply Qle_bool_iff in L. discriminate L.
Qed.

(** ** Failures of the store *)

Section Propagation.
Context {num : Type} `{JsNumber num} (cols : ColumnTypes num) (oracle : Oracle num)
  (detectors : MemoryDetectors num) (identifier : LanguageIdentifier).

Lemma upsertVoiceProfile_propagates userId voiceData (w : World num) c e :
  (c, Some e) ∈ new_calls w (snd (upsertVoiceProfile cols userId voiceData w)) ->
  fst (upsertVoiceProfile cols userId voiceData w) = Throw e.
Proof.
  unfold new_calls, upsertVoiceProfile, external.
  exec_calls; intros He; failed_call_is_thrown He.
Qed.

Lemma getPreferences_propagates userId (w : World num) c e :
  (c, Some e) ∈ new_calls w (snd (getPreferences userId w)) ->
  fst (getPreferences userId w) = Throw e.
Proof.
  unfold new_calls, getPreferences, bind, ret, external.
  destruct userId as [[|uid]|];
    exec_calls; intros He; failed_call_is_thrown He.
Qed.

Lemma updatePreferences_propagates userId updates (w : World num) c e :
  (c, Some e) ∈ new_calls w (snd (updatePreferences userId updates w)) ->
  fst (updatePreferences userId updates w) = Throw e.
Proof.
  unfold new_calls, updatePreferences, getPreferences, sql_upsert_user_preferences,
    bind, ret, throw, external.
  destruct userId as [[|uid]|];
    exec_calls; intros He; failed_call_is_thrown He.
Qed.

Lemma learnFromCaption_propagates userId caption context (w : World num) c e :
  (c, Some e) ∈ new_calls w (snd (learnFromCaption detectors userId caption context w)) ->
  fst (learnFromCaption detectors userId caption context w) = Throw e.
Proof.
  unfold new_calls, learnFromCaption, getPreferences, bind, ret, external.
  destruct (negb (uid_truthy userId) || negb (caption_truthy caption));
    [intros He; failed_call_is_thrown He|].
  destruct userId as [[|uid]|];
    exec_calls; intros He; failed_call_is_thrown He.
Qed.

Lemma distribution_propagates userId limit (w : World num) c e :
  (c, Some e)
  ∈ new_calls w (snd (detectLanguageDistributionForUser identifier userId limit w)) ->
  fst (detectLanguageDistributionForUser identifier userId limit w) = Throw e.
Proof.
  unfold new_calls, detectLanguageDistributionForUser, getSavedPosts, bind, ret, external.
  destruct userId as [[|uid]|]; try (intros He; failed_call_is_thrown He).
  destruct (next_fault w); cbn [fst snd]; [intros He; failed_call_is_thrown He|].
  repeat case_match; cbn [fst snd calls after_call]; intros He; failed_call_is_thrown He.
Qed.

Lemma recommendLanguage_propagates request (w : World num) c e :
  (c, Some e) ∈ new_calls w (snd (recommendLanguage identifier request w)) ->
  fst (recommendLanguage identifier request w) = Throw e.
Proof.
  unfold recommendLanguage.
  destruct (text_truthy (preferredLanguage request));
    [unfold new_calls; intros He; failed_call_is_thrown He|].
  unfold bind.
  pose proof (distribution_propagates (req_userId request) 50 w c e) as D.
  destruct (detectLanguageDistributionForUser identifier (req_userId request) 50 w)
    as [[distribution|e'] w1]; cbn [fst snd] in D |- *;
    [|intros He; apply D in He; injection He as <-; reflexivity].
  intros He. assert (X : @Ok (option (list (string * num))) distribution = Throw e);
    [|discriminate X].
  apply D. revert He. unfold ret, throw. repeat case_match; cbn [snd]; exact id.
Qed.

Lemma triggerVoiceRefinement_logs userId (w : World num) c e :
  (c, Some e) ∈ new_calls w (snd (triggerVoiceRefinement cols oracle userId w)) ->
  last (console (snd (triggerVoiceRefinement cols oracle userId w)))
  = Some "Voice Engine: Refinement error:"%string.
Proof.
  unfold new_calls, triggerVoiceRefinement, try_catch, bind, getContentAnalysisHistory,
    getVoiceFeedbackHistory, getVoiceProfile, refineVoiceProfile, buildVoiceRefinementPrompt,
    upsertVoiceProfile, recordTrainingSession, math_random30, console_log, throw, ret,
    try_catch, bind, external.
  exec_calls; intros He; try (exfalso; no_such_call He);
    cbn [fst snd console]; apply last_snoc.
Qed.

Lemma memoryBlock_total uid caption lang prefs (w : World num) :
  exists p, fst (memoryBlock detectors uid caption lang prefs w) = Ok p.
Proof.
  unfold memoryBlock, try_catch.
  match goal with
  | |- context [match ?b w with _ => _ end] => destruct (b w) as [[p|e] w1]
  end; eexists; reflexivity.
Qed.

Lemma memoryBlock_logs uid caption lang prefs (w : World num) c e :
  (c, Some e) ∈ new_calls w (snd (memoryBlock detectors uid caption lang prefs w)) ->
  fst (memoryBlock detectors uid caption lang prefs w) = Ok prefs
  /\ last (console (snd (memoryBlock detectors uid caption lang prefs w)))
     = Some "Generate Route: Memory engine update failed (non-critical):"%string.
Proof.
  unfold new_calls, memoryBlock, try_catch, learnFromCaption, updatePreferences,
    getPreferences, bind, ret, throw, console_log, external.
  destruct (negb (uid_truthy (Some uid)) || negb (caption_truthy caption)) eqn:G;
    [intros He; exfalso; no_such_call He|].
  destruct uid as [|uid]; [discriminate G|].
  repeat (cbn [fst snd store calls faults console random30 after_call negb];
          match goal with
          | |- context [next_fault ?x] => destruct (next_fault x) eqn:?
          | |- context [sql_upsert_user_preferences ?u ?n ?s] =>
              destruct (sql_upsert_user_preferences u n s) as [[? ?]|?] eqn:?
          | |- context [user_preferences ?s !! ?u] => destruct (user_preferences s !! u) eqn:?
          end);
    intros He; try (exfalso; no_such_call He);
    cbn [fst snd console]; (split; [reflexivity|apply last_snoc]).
Qed.

Lemma historyBlock_total uid caption (w : World num) :
  exists h, fst (historyBlock uid caption w) = Ok h.
Proof.
  unfold historyBlock, try_catch.
  match goal with
  | |- context [match ?b w with _ => _ end] => destruct (b w) as [[p|e] w1]
  end; eexists; reflexivity.
Qed.

Lemma historyBlock_logs uid caption (w : World num) c e :
  (c, Some e) ∈ new_calls w (snd (historyBlock uid caption w)) ->
  fst (historyBlock uid caption w) = Ok None
  /\ last (console (snd (historyBlock uid caption w)))
     = Some "Generate Route: Caption history save failed (non-critical):"%string.
Proof.
  unfold new_calls, historyBlock, try_catch, saveEntry, bind, ret, console_log, external.
  destruct (next_fault w); cbn [fst snd store calls faults console after_call];
    intros He; try (exfalso; no_such_call He).
  split; [reflexivity|apply last_snoc].
Qed.

End Propagation.

(** C7 (amended).  A failure of the store is surfaced unchanged — the same
    error is thrown to the caller — by the operations that have no handler of
    their own: [upsertVoiceProfile], [getPreferences], [updatePreferences],
    [learnFromCaption] and [recommendLanguage].  [triggerVoiceRefinement] and
    the best-effort blocks of the generation route (memory update, caption
    history) catch every error raised inside them and complete normally;
    when a call to the store failed inside them, the failure is logged (the
    last line of the console is the handler's) and the blocks hand back
    what they had before: the preferences read earlier, no history entry. *)
Theorem store_failures_surfaced_or_swallowed :
  forall num (N : JsNumber num) (cols : ColumnTypes num) (oracle : Oracle num)
         (detectors : MemoryDetectors num) (identifier : LanguageIdentifier)
         (w : World num),
    (forall userId voiceData c e,
        (c, Some e) ∈ new_calls w (snd (upsertVoiceProfile cols userId voiceData w)) ->
        fst (upsertVoiceProfile cols userId voiceData w) = Throw e)
    /\ (forall userId c e,
          (c, Some e) ∈ new_calls w (snd (getPreferences userId w)) ->
          fst (getPreferences userId w) = Throw e)
    /\ (forall userId updates c e,
          (c, Some e) ∈ new_calls w (snd (updatePreferences userId updates w)) ->
          fst (updatePreferences userId updates w) = Throw e)
    /\ (forall userId caption context c e,
          (c, Some e)
          ∈ new_calls w (snd (learnFromCaption detectors userId caption context w)) ->
          fst (learnFromCaption detectors userId caption context w) = Throw e)
    /\ (forall request c e,
          (c, Some e) ∈ new_calls w (snd (recommendLanguage identifier request w)) ->
          fst (recommendLanguage identifier request w) = Throw e)
    /\ (forall userId,
          fst (triggerVoiceRefinement cols oracle userId w) = Ok tt
          /\ forall c e,
               (c, Some e)
               ∈ new_calls w (snd (triggerVoiceRefinement cols oracle userId w)) ->
               last (console (snd (triggerVoiceRefinement cols oracle userId w)))
               = Some "Voice Engine: Refinement error:"%string)
    /\ (forall uid caption lang prefs,
          (exists p, fst (memoryBlock detectors uid caption lang prefs w) = Ok p)
          /\ forall c e,
               (c, Some e)
               ∈ new_calls w (snd (memoryBlock detectors uid caption lang prefs w)) ->
               fst (memoryBlock detectors uid caption lang prefs w) = Ok prefs
               /\ last (console (snd (memoryBlock detectors uid caption lang prefs w)))
                  = Some "Generate Route: Memory engine update failed (non-critical):"%string)
    /\ (forall uid caption,
          (exists h, fst (historyBlock uid caption w) = Ok h)
          /\ forall c e,
               (c, Some e) ∈ new_calls w (snd (historyBlock uid caption w)) ->
               fst (historyBlock uid caption w) = Ok None
               /\ last (console (snd (historyBlock uid caption w)))
                  = Some "Generate Route: Caption history save failed (non-critical):"%string).
Proof.
  intros num N cols oracle detectors identifier w.
  split; [intros; eapply upsertVoiceProfile_propagates; eassumption|].
  split; [intros; eapply getPreferences_propagates; eassumption|].
  split; [intros; eapply updatePreferences_propagates; eassumption|].
  split; [intros; eapply learnFromCaption_propagates; eassumption|].
  split; [intros; eapply recommendLanguage_propagates; eassumption|].
  split.
  { intros userId. split; [apply triggerVoiceRefinement_total|].
    intros c e He. eapply triggerVoiceRefinement_logs, He. }
  split.
  { intros uid caption lang prefs. split; [apply memoryBlock_total|].
    intros c e He. eapply memoryBlock_logs, He. }
  intros uid caption. split; [apply historyBlock_total|].
  intros c e He. eapply historyBlock_logs, He.
Qed.

(** C7 at an upsert whose query the store refuses. *)
Lemma store_failure_surfaced_witness :
  fst (upsertVoiceProfile exact_columns 1 {[ "formality"%string := VNum (8 # 10)%Q ]}
         (world_of empty_store [Some "connection refused"%string]))
  = Throw "connection refused".
Proof.
  apply (proj1 (store_failures_surfaced_or_swallowed Q Q_number exact_columns steady_oracle
                  plain_detectors silent_identifier
                  (world_of empty_store [Some "connection refused"%string]))
           1%nat {[ "formality"%string := VNum (8 # 10)%Q ]} (UpsertVoiceProfile 1)).
  vm_compute. apply list_elem_of_In. cbn. tauto.
Defined.

(** C7 as stated fails: store failures inside [triggerVoiceRefinement] and
    inside the memory update are caught.  When the first history read fails,
    the refinement logs the error and returns normally; so it does when the
    read of the profile fails; POST /voice-feedback, whose refinement met a
    failing store, answers 200; and a memory update whose write the store
    refuses hands back the preferences read before, as if nothing had
    happened. *)
Lemma store_failure_swallowed_by_refinement :
  triggerVoiceRefinement exact_columns steady_oracle 1
    (world_of seasoned_store [Some "connection refused"%string])
  = (Ok tt,
     {| store := seasoned_store;
        calls := [(GetContentAnalysisHistory 1 20, Some "connection refused"%string)];
        faults := [];
        console := ["Voice Engine: Refinement error:"%string];
        random30 := [] |})
  /\ fst (triggerVoiceRefinement exact_columns steady_oracle 1
            (world_of seasoned_store [None; None; Some "deadlock detected"%string]))
     = Ok tt
  /\ calls (snd (triggerVoiceRefinement exact_columns steady_oracle 1
                   (world_of seasoned_store [None; None; Some "deadlock detected"%string])))
     = [ (GetContentAnalysisHistory 1 20, None); (GetVoiceFeedbackHistory 1 10, None);
         (GetVoiceProfile 1, Some "deadlock detected"%string) ]
  /\ fst (postVoiceFeedback exact_columns steady_oracle 1
            {| fb_generatedContentId := None;
               fb_contentType := Some "caption"%string;
               fb_feedbackType := Some "positive"%string;
               fb_feedbackComment := None;
               fb_expected := fun _ => None |}
            (world_of seasoned_store [None; Some "connection refused"%string]))
     = Ok {| status := 200; success := true |}
  /\ memoryBlock plain_detectors 1 (Some (js "Sunny day")) (Some "hi"%string)
       DEFAULT_PREFERENCES
       (world_of empty_store [None; None; Some "connection refused"%string])
     = (Ok DEFAULT_PREFERENCES,
        {| store := empty_store;
           calls := [ (SelectUserPreferences 1, None); (SelectUserPreferences 1, None);
                      (UpsertUserPreferences 1, Some "connection refused"%string) ];
           faults := [];
           console := ["Generate Route: Memory engine update failed (non-critical):"%string];
           random30 := [] |}).
Proof. repeat split; vm_compute; reflexivity. Qed.

(* ===================================================================== *)
(** * Further properties of the code *)
(* ===================================================================== *)

(** ** Merging phrase lists *)

(** The test of the loop is that the trimmed item is not empty. *)
Lemma merge_step_trim (set : list jsstring) (item : jsstring) :
  merge_step set item = if decide (trim item = []) then set else set_add set (trim item).
Proof.
  unfold merge_step. destruct item as [|c item]; [reflexivity|].
  cbn [str_truthy andb]. destruct (trim (c :: item)) as [|d t]; reflexivity.
Qed.

Lemma merge_fold_snoc (items set : list jsstring) (item : jsstring) :
  fold_left merge_step (items ++ [item]) set
  = merge_step (fold_left merge_step items set) item.
Proof. now rewrite fold_left_app. Qed.

(** What the loop collects: the trimmed items that are not empty. *)
Lemma merge_fold_elem (x : jsstring) (items set : list jsstring) :
  x ∈ fold_left merge_step items set
  <-> x ∈ set \/ (x <> [] /\ exists item, item ∈ items /\ trim item = x).
Proof.
  revert set. induction items as [|i items IH]; intros set; cbn [fold_left].
  - split; [now left|]. intros [Hx|(_ & item & Hi & _)]; [exact Hx|].
    now apply elem_of_nil in Hi.
  - rewrite IH, merge_step_trim. unfold set_add.
    destruct (decide (trim i = [])) as [E|E].
    + split.
      * intros [Hx|(Hn & item & Hi & Ht)]; [now left|right].
        split; [exact Hn|]. exists item. split; [now apply elem_of_cons; right|exact Ht].
      * intros [Hx|(Hn & item & Hi & Ht)]; [now left|].
        apply elem_of_cons in Hi as [->|Hi]; [congruence|].
        right. split; [exact Hn|]. now exists item.
    + destruct (decide (trim i ∈ set)) as [Hin|Hin].
      * split.
        -- intros [Hx|(Hn & item & Hi & Ht)]; [now left|right].
           split; [exact Hn|]. exists item. split; [now apply elem_of_cons; right|exact Ht].
        -- intros [Hx|(Hn & item & Hi & Ht)]; [now left|].
           apply elem_of_cons in Hi as [->|Hi]; [left; now rewrite <- Ht|].
           right. split; [exact Hn|]. now exists item.
      * split.
        -- intros [Hx|(Hn & item & Hi & Ht)].
           ++ apply elem_of_app in Hx as [Hx|Hx]; [now left|].
              apply list_elem_of_singleton in Hx. subst x. right.
              split; [exact E|]. exists i. split; [now apply elem_of_cons; left|reflexivity].
           ++ right. split; [exact Hn|]. exists item.
              split; [now apply elem_of_cons; right|exact Ht].
        -- intros [Hx|(Hn & item & Hi & Ht)].
           ++ left. apply elem_of_app. now left.
           ++ apply elem_of_cons in Hi as [->|Hi].
              ** left. apply elem_of_app. right. apply list_elem_of_singleton. now symmetry.
              ** right. split; [exact Hn|]. now exists item.
Qed.

(** Started from a set, the loop keeps the set and appends to it what it
    would have collected from scratch, less what the set holds already. *)
Lemma merge_fold_from (items set : list jsstring) :
  fold_left merge_step items set
  = set ++ filter (fun x => x ∉ set) (fold_left merge_step items []).
Proof.
  induction items as [|i items IH] using rev_ind; [cbn; now rewrite app_nil_r|].
  rewrite !merge_fold_snoc, IH, !merge_step_trim.
  destruct (decide (trim i = [])) as [E|E]; [reflexivity|].
  set (C := fold_left merge_step items []).
  unfold set_add.
  destruct (decide (trim i ∈ C)) as [HC|HC].
  - destruct (decide (trim i ∈ set ++ filter (fun x => x ∉ set) C)) as [H1|H1];
      [reflexivity|].
    exfalso. apply H1. destruct (decide (trim i ∈ set)) as [Hs|Hs].
    + apply elem_of_app. now left.
    + apply elem_of_app. right. apply list_elem_of_filter. now split.
  - rewrite filter_app.
    destruct (decide (trim i ∈ set)) as [Hs|Hs].
    + destruct (decide (trim i ∈ set ++ filter (fun x => x ∉ set) C)) as [H1|H1].
      * rewrite filter_cons_False by (intros Hn; now apply Hn).
        rewrite filter_nil. now rewrite app_nil_r.
      * exfalso. apply H1, elem_of_app. now left.
    + destruct (decide (trim i ∈ set ++ filter (fun x => x ∉ set) C)) as [H1|H1].
      * exfalso. apply elem_of_app in H1 as [H1|H1]; [now apply Hs|].
        apply list_elem_of_filter in H1 as [_ H1]. now apply HC.
      * rewrite filter_cons_True by exact Hs. rewrite filter_nil.
        now rewrite app_assoc.
Qed.

(** A list of trimmed, non-empty, distinct entries goes through the loop
    unchanged. *)
Lemma merge_fold_clean (l set : list jsstring) :
  NoDup (set ++ l) -> Forall entry_ok l -> fold_left merge_step l set = set ++ l.
Proof.
  revert set. induction l as [|x l IH]; intros set Hn Hf; cbn [fold_left].
  - now rewrite app_nil_r.
  - apply Forall_cons in Hf as [[Hx1 Hx2] Hf].
    rewrite merge_step_trim, Hx1. destruct (decide (x = [])) as [E|_]; [contradiction|].
    unfold set_add. destruct (decide (x ∈ set)) as [Hin|Hin].
    + exfalso. apply NoDup_app in Hn as (_ & Hd & _). apply (Hd x Hin).
      apply elem_of_cons. now left.
    + rewrite IH; [now rewrite <- app_assoc| |exact Hf].
      now rewrite <- app_assoc.
Qed.

(** What the loop collects is clean. *)
Lemma merge_collected_clean (items : list jsstring) :
  NoDup (fold_left merge_step items []) /\ Forall entry_ok (fold_left merge_step items []).
Proof. apply merge_fold_ok. split; [apply NoDup_nil_2|apply Forall_nil_2]. Qed.

Lemma slice0_take {A} (l : list A) (e : Z) :
  (0 <= e)%Z -> slice0 l e = take (Z.to_nat e) l.
Proof.
  intros He. unfold slice0. destruct (e <? 0)%Z eqn:E; [apply Z.ltb_lt in E; lia|reflexivity].
Qed.

Lemma mergeUniqueLists_take (existing incoming : list jsstring) (limit : Z) :
  (0 <= limit)%Z ->
  mergeUniqueLists existing incoming limit
  = take (Z.to_nat limit) (fold_left merge_step (existing ++ incoming) []).
Proof. intros Hl. unfold mergeUniqueLists. now rewrite slice0_take. Qed.

Lemma take_clean (n : nat) (l : list jsstring) :
  NoDup l /\ Forall entry_ok l -> NoDup (take n l) /\ Forall entry_ok (take n l).
Proof.
  intros [Hn Hf]. split; [|now apply Forall_take].
  rewrite <- (take_drop n l) in Hn. now apply NoDup_app in Hn as [Hn _].
Qed.

Lemma filter_absorbed (set l : list jsstring) :
  (forall x, x ∈ l -> x ∈ set) -> filter (fun x => x ∉ set) l = [].
Proof.
  induction l as [|a l IH]; intros Hin; [reflexivity|].
  rewrite filter_cons_False.
  - apply IH. intros x Hx. apply Hin, elem_of_cons. now right.
  - intros Hn. apply Hn, Hin, elem_of_cons. now left.
Qed.

(** With a clean set to start from, what the loop would add beyond a full
    list is cut off, and below a full list nothing is left to add. *)
Lemma merge_again_take (n : nat) (D items : list jsstring) :
  NoDup D /\ Forall entry_ok D ->
  (forall x, x ∈ fold_left merge_step items [] -> x ∈ D) ->
  take n (fold_left merge_step items (take n D)) = take n D.
Proof.
  intros HD Hin. rewrite merge_fold_from.
  destruct (decide (n <= length D)%nat) as [L|L].
  - rewrite take_app_le by (rewrite length_take; lia).
    rewrite take_take. f_equal. lia.
  - rewrite (take_ge D) by lia.
    rewrite (filter_absorbed D) by exact Hin.
    rewrite app_nil_r. apply take_ge. lia.
Qed.

(** X1.  Merging the same incoming phrases a second time changes nothing:
    [mergeUniqueLists(mergeUniqueLists(existing, incoming), incoming)] is
    [mergeUniqueLists(existing, incoming)], for any non-negative limit. *)
Theorem mergeUniqueLists_idempotent (existing incoming : list jsstring) (limit : Z) :
  (0 <= limit)%Z ->
  mergeUniqueLists (mergeUniqueLists existing incoming limit) incoming limit
  = mergeUniqueLists existing incoming limit.
Proof.
  intros Hl. rewrite !mergeUniqueLists_take by exact Hl.
  set (n := Z.to_nat limit). set (D := fold_left merge_step (existing ++ incoming) []).
  pose proof (merge_collected_clean (existing ++ incoming)) as HD. fold D in HD.
  rewrite fold_left_app.
  rewrite (merge_fold_clean (take n D) []) by (cbn; apply (take_clean n D HD)).
  cbn [app]. apply merge_again_take; [exact HD|].
  intros x Hx. apply merge_fold_elem in Hx as [Hx|(Hx & item & Hi & Ht)];
    [now apply elem_of_nil in Hx|].
  apply merge_fold_elem. right. split; [exact Hx|]. exists item.
  split; [apply elem_of_app; now right|exact Ht].
Qed.

(** X1 at a list of two phrases merged with three, one of them padded and
    one blank. *)
Lemma mergeUniqueLists_idempotent_witness :
  mergeUniqueLists
    (mergeUniqueLists [js "good vibes"; js "sunset"] [js " sunset "; js "   "; js "coffee"] 10)
    [js " sunset "; js "   "; js "coffee"] 10
  = mergeUniqueLists [js "good vibes"; js "sunset"] [js " sunset "; js "   "; js "coffee"] 10.
Proof. apply mergeUniqueLists_idempotent. lia. Defined.

(** X2.  Stored phrases have priority over incoming ones.  When [existing]
    is clean (its entries trimmed, not empty and distinct, as every list
    [mergeUniqueLists] returns), a list that already fills the limit comes
    back as its first [limit] entries whatever is merged into it — once ten
    phrases are stored no new phrase is ever added — and a shorter one is a
    prefix of the result. *)
Theorem mergeUniqueLists_keeps_existing (existing incoming : list jsstring) (limit : Z) :
  (0 <= limit)%Z -> NoDup existing -> Forall entry_ok existing ->
  ((Z.to_nat limit <= length existing)%nat ->
   mergeUniqueLists existing incoming limit = take (Z.to_nat limit) existing)
  /\ ((length existing <= Z.to_nat limit)%nat ->
      existing `prefix_of` mergeUniqueLists existing incoming limit).
Proof.
  intros Hl Hn Hf. rewrite mergeUniqueLists_take by exact Hl.
  rewrite fold_left_app, (merge_fold_clean existing []) by assumption.
  cbn [app]. rewrite merge_fold_from. split; intros L.
  - now rewrite take_app_le.
  - rewrite take_app_ge by exact L. now eexists.
Qed.

(** X2 at a full list of ten phrases and at a list of one. *)
Lemma mergeUniqueLists_keeps_existing_witness :
  mergeUniqueLists
    [js "a"; js "b"; js "c"; js "d"; js "e"; js "f"; js "g"; js "h"; js "i"; js "j"]
    [js "new phrase"] 10
  = [js "a"; js "b"; js "c"; js "d"; js "e"; js "f"; js "g"; js "h"; js "i"; js "j"]
  /\ [js "a"] `prefix_of` mergeUniqueLists [js "a"] [js "new phrase"] 10.
Proof.
  split.
  - apply (proj1 (mergeUniqueLists_keeps_existing
                    [js "a"; js "b"; js "c"; js "d"; js "e"; js "f"; js "g"; js "h";
                     js "i"; js "j"] [js "new phrase"] 10 ltac:(lia)
                    ltac:(apply (bool_decide_unpack (NoDup _)); vm_compute; exact I)
                    ltac:(repeat (constructor; [split; [vm_compute; reflexivity|discriminate]|]);
                          constructor))).
    vm_compute. lia.
  - apply (proj2 (mergeUniqueLists_keeps_existing [js "a"] [js "new phrase"] 10 ltac:(lia)
                    ltac:(apply (bool_decide_unpack (NoDup _)); vm_compute; exact I)
                    ltac:(repeat (constructor; [split; [vm_compute; reflexivity|discriminate]|]);
                          constructor))).
    vm_compute. lia.
Defined.

(** X3.  What a merged list holds.  Every entry is the trimmed form of an
    item of [existing] or [incoming], and is not empty; and a result that
    stays below the limit holds the trimmed form of every item that is not
    blank. *)
Theorem mergeUniqueLists_members (existing incoming : list jsstring) (limit : Z) :
  (0 <= limit)%Z ->
  (forall x, x ∈ mergeUniqueLists existing incoming limit ->
     x <> [] /\ exists item, item ∈ existing ++ incoming /\ trim item = x)
  /\ ((length (mergeUniqueLists existing incoming limit) < Z.to_nat limit)%nat ->
      forall item, item ∈ existing ++ incoming -> trim item <> [] ->
        trim item ∈ mergeUniqueLists existing incoming limit).
Proof.
  intros Hl. rewrite mergeUniqueLists_take by exact Hl.
  set (D := fold_left merge_step (existing ++ incoming) []). split.
  - intros x Hx. apply elem_of_take in Hx as (i & Hx & _).
    apply list_elem_of_lookup_2 in Hx.
    apply merge_fold_elem in Hx as [Hx|Hx]; [now apply elem_of_nil in Hx|exact Hx].
  - intros L item Hi Ht. rewrite length_take in L.
    rewrite take_ge by lia. apply merge_fold_elem. right.
    split; [exact Ht|]. now exists item.
Qed.

(** X3 at a merge of padded and blank items: the entry "coffee". *)
Lemma mergeUniqueLists_members_witness :
  js "coffee" <> []
  /\ exists item, item ∈ [js " sunset "] ++ [js "   "; js "coffee"] /\ trim item = js "coffee".
Proof.
  apply (proj1 (mergeUniqueLists_members [js " sunset "] [js "   "; js "coffee"] 10
                  ltac:(lia)) (js "coffee")).
  apply list_elem_of_In. vm_compute. tauto.
Defined.

(** Merging the stored list with the first [n] entries of a merge of it
    gives these entries again. *)
Lemma merge_twice_take (existing extracted : list jsstring) (n : nat) :
  take n (fold_left merge_step
            (existing ++ take n (fold_left merge_step (existing ++ extracted) [])) [])
  = take n (fold_left merge_step (existing ++ extracted) []).
Proof.
  rewrite !fold_left_app.
  set (E := fold_left merge_step existing []).
  pose proof (merge_collected_clean existing) as HE. fold E in HE.
  rewrite (merge_fold_from extracted E).
  set (T := filter (fun x => x ∉ E) (fold_left merge_step extracted [])).
  assert (HD : NoDup (E ++ T) /\ Forall entry_ok (E ++ T)).
  { unfold T. rewrite <- merge_fold_from. apply merge_fold_ok, HE. }
  rewrite (merge_fold_from (take n (E ++ T)) E).
  rewrite (merge_fold_clean (take n (E ++ T)) []) by (cbn; apply take_clean, HD).
  cbn [app].
  destruct (decide (n <= length E)%nat) as [L|L].
  - rewrite (take_app_le E T) by exact L.
    rewrite (filter_absorbed E) by (intros x Hx; apply elem_of_take in Hx as (i & Hx & _);
                                    now apply list_elem_of_lookup_2 in Hx).
    now rewrite app_nil_r.
  - rewrite (take_app_ge E T) by lia.
    rewrite filter_app, (filter_absorbed E E) by auto. cbn [app].
    assert (HT : filter (fun x => x ∉ E) (take (n - length E) T) = take (n - length E) T).
    { destruct HD as [HD _]. apply NoDup_app in HD as (_ & Hd & _).
      assert (G : forall l : list jsstring,
                 (forall x, x ∈ l -> x ∉ E) -> filter (fun x => x ∉ E) l = l).
      { induction l as [|a l IH]; intros Hl'; [reflexivity|].
        rewrite filter_cons_True by (apply Hl', elem_of_cons; now left).
        f_equal. apply IH. intros x Hx. apply Hl', elem_of_cons. now right. }
      apply G. intros x Hx HxE. apply (Hd x HxE).
      apply elem_of_take in Hx as (i & Hx & _). now apply list_elem_of_lookup_2 in Hx. }
    rewrite HT. apply take_ge. rewrite length_app, length_take. lia.
Qed.

Lemma merge_twice (existing extracted : list jsstring) (limit : Z) :
  (0 <= limit)%Z ->
  mergeUniqueLists existing (mergeLists existing extracted limit) limit
  = mergeLists existing extracted limit.
Proof.
  intros Hl.
  change (mergeLists existing extracted limit)
    with (mergeUniqueLists existing extracted limit).
  rewrite !mergeUniqueLists_take by exact Hl. apply merge_twice_take.
Qed.

(** X4.  The memory update merges twice — [learnFromCaption] merges the
    stored phrases with the extracted ones ([mergeLists]) and
    [updatePreferences] merges the stored phrases with that result
    ([mergeUniqueLists]) — and the second merge changes nothing: what is
    stored is the list [learnFromCaption] computed. *)
Theorem merge_of_merged (existing extracted : list jsstring) (limit : Z) :
  (0 <= limit)%Z ->
  mergeUniqueLists existing (mergeLists existing extracted limit) limit
  = mergeLists existing extracted limit.
Proof.
  intros Hl.
  assert (E : mergeLists existing extracted limit
              = take (Z.to_nat limit) (fold_left merge_step (existing ++ extracted) [])).
  { change (mergeLists existing extracted limit)
      with (mergeUniqueLists existing extracted limit).
    now apply mergeUniqueLists_take. }
  rewrite E, mergeUniqueLists_take by exact Hl.
  apply merge_twice_take.
Qed.

(** X4 at a stored list and three extracted phrases. *)
Lemma merge_of_merged_witness :
  mergeUniqueLists [js "sunset"; js " coffee"]
    (mergeLists [js "sunset"; js " coffee"] [js "coffee"; js "morning"; js "sunset"] 10) 10
  = mergeLists [js "sunset"; js " coffee"] [js "coffee"; js "morning"; js "sunset"] 10.
Proof. apply merge_of_merged. lia. Defined.

(** ** Reading and writing the preferences *)


Section MemoryUpdate.
Context {num : Type} `{JsNumber num} (detectors : MemoryDetectors num).

Lemma detectTone_truthy (text : jsstring) : String.eqb (detectTone text) "" = false.
Proof. unfold detectTone. repeat case_match; reflexivity. Qed.

Lemma text_or_truthy (s : option string) (d : string) :
  String.eqb d "" = false -> String.eqb (text_or s d) "" = false.
Proof.
  intros Hd. unfold text_or. destruct s as [x|]; [|exact Hd].
  destruct (String.eqb x "") eqn:E; [exact Hd|exact E].
Qed.

Lemma stored_language_truthy (s : Store num) (uid : nat) :
  String.eqb (language_preference (stored_preferences s uid)) "" = false.
Proof.
  unfold stored_preferences. destruct (user_preferences s !! uid); cbn; [|reflexivity].
  now apply text_or_truthy.
Qed.

Lemma no_faults_next (w : World num) : faults w = [] -> next_fault w = None.
Proof. unfold next_fault. now intros ->. Qed.

(** A read of the preferences that the store answers. *)
Lemma getPreferences_run (uid : nat) (w : World num) :
  next_fault w = None ->
  getPreferences (Some (S uid)) w
  = (Ok (stored_preferences (store w) (S uid)),
     after_call w (SelectUserPreferences (S uid)) None (store w)).
Proof.
  intros Hf. unfold getPreferences, bind, external, stored_preferences. rewrite Hf.
  destruct (user_preferences (store w) !! S uid); reflexivity.
Qed.

(** The row [updatePreferences] writes over the preferences it read, and
    what it returns, when the columns accept the parameters. *)
Lemma updatePreferences_run (uid : nat) (u : PreferenceUpdates num) (w : World num)
  (tone length_preference language : string) (level : num) :
  faults w = [] ->
  let current := stored_preferences (store w) (S uid) in
  let next :=
    {| preferred_tone := default (preferred_tone current) (u_preferred_tone u);
       emoji_level := default (emoji_level current) (u_emoji_level u);
       common_phrases :=
         mergeUniqueLists (common_phrases current) (default [] (u_common_phrases u)) 10;
       disliked_phrases :=
         match u_disliked_phrases u with
         | Some incoming => mergeUniqueLists (disliked_phrases current) incoming 10
         | None => disliked_phrases current
         end;
       caption_length_preference :=
         default (caption_length_preference current) (u_caption_length_preference u);
       language_preference :=
         default (language_preference current) (u_language_preference u);
       caption_structure := default (caption_structure current) (u_caption_structure u) |} in
  pg_varchar 50 (preferred_tone next) = Some tone ->
  pg_emoji_level (emoji_level next) = Some level ->
  pg_varchar 20 (caption_length_preference next) = Some length_preference ->
  pg_varchar 10 (language_preference next) = Some language ->
  let row :=
    {| up_preferred_tone := Some tone;
       up_emoji_level := Some level;
       up_common_phrases := Some (common_phrases next);
       up_disliked_phrases := Some (disliked_phrases next);
       up_caption_length_preference := Some length_preference;
       up_language_preference := Some language;
       up_caption_structure := Some (caption_structure next) |} in
  exists w',
    updatePreferences (Some (S uid)) u w
    = (Ok {| preferred_tone := tone;
             emoji_level := level;
             common_phrases := common_phrases next;
             disliked_phrases := disliked_phrases next;
             caption_length_preference := length_preference;
             language_preference := text_or (Some language) (language_preference next);
             caption_structure := caption_structure next |}, w')
    /\ user_preferences (store w') = <[S uid := row]> (user_preferences (store w))
    /\ faults w' = [].
Proof.
  intros Hf current next Ht Hl Hc Hg row. unfold updatePreferences, bind.
  rewrite getPreferences_run by now apply no_faults_next.
  fold current. fold next. unfold external, next_fault, after_call. cbn [faults tl].
  rewrite Hf. cbn [tl store]. unfold sql_upsert_user_preferences.
  rewrite Ht, Hl, Hc, Hg. fold row.
  eexists. split; [reflexivity|]. cbn [store faults user_preferences]. split; reflexivity.
Qed.

(** An update the columns reject throws and leaves the store as it was. *)
Lemma updatePreferences_rejected (uid : nat) (u : PreferenceUpdates num) (w : World num) :
  faults w = [] ->
  let current := stored_preferences (store w) (S uid) in
  pg_varchar 50 (default (preferred_tone current) (u_preferred_tone u)) = None
  \/ pg_emoji_level (default (emoji_level current) (u_emoji_level u)) = None
  \/ pg_varchar 20
       (default (caption_length_preference current) (u_caption_length_preference u)) = None
  \/ pg_varchar 10 (default (language_preference current) (u_language_preference u)) = None ->
  fst (updatePreferences (Some (S uid)) u w)
  = Throw "store: parameter rejected by user_preferences"
  /\ store (snd (updatePreferences (Some (S uid)) u w)) = store w.
Proof.
  intros Hf current Hr. unfold updatePreferences, bind.
  rewrite getPreferences_run by now apply no_faults_next.
  fold current. unfold external, next_fault, after_call. cbn [faults tl].
  rewrite Hf. cbn [tl store].
  match goal with
  | |- context [sql_upsert_user_preferences ?i ?n ?s] =>
      assert (E : sql_upsert_user_preferences i n s
                  = Throw "store: parameter rejected by user_preferences")
  end.
  { unfold sql_upsert_user_preferences.
    cbn [preferred_tone emoji_level caption_length_preference language_preference].
    destruct Hr as [-> | [-> | [-> | ->]]]; repeat case_match; reflexivity. }
  rewrite E. split; reflexivity.
Qed.

Lemma detectTone_stored (text : jsstring) :
  pg_varchar 50 (detectTone text) = Some (detectTone text).
Proof. unfold detectTone. repeat case_match; reflexivity. Qed.

Lemma detectLengthPreference_stored (text : jsstring) :
  pg_varchar 20 (detectLengthPreference text) = Some (detectLengthPreference text).
Proof. unfold detectLengthPreference. repeat case_match; reflexivity. Qed.

(** X5.  What the memory update of the generation route stores.  With no
    failure of the connection to the store and a caption that is not empty,
    the update is written only if the columns accept it: the new emoji level
    — the mean of the level read (2 when none is stored) and the detected
    one, through [toFixed(2)] — has to be one of the integers 0..5, and the
    language at most 10 characters.  Then the user's row of user_preferences
    becomes: the tone, the length class and the structure detected in the
    caption (the stored tone is never kept); that emoji level; the common
    phrases read merged with the phrases extracted from the caption; the
    disliked phrases as they were read; and the language of the request, or
    else the language read (["en"] when none is stored).  Otherwise — a mean
    that is not an integer, for one — the store rejects the update, nothing
    is written and the route keeps the preferences it read before. *)
Theorem memory_update_stores (uid : nat) (caption : jsstring) (lang : option string)
  (prefs : Preferences num) (w : World num) :
  faults w = [] -> str_truthy caption = true ->
  let existing := stored_preferences (store w) (S uid) in
  let level :=
    toFixed2 detectors
      (n_div (n_add (emoji_level existing)
                    (n_ofZ (Z.of_nat (detectEmojiLevel detectors caption))))
             (n_ofZ 2)) in
  let chosen :=
    if text_truthy lang then default ""%string lang else language_preference existing in
  let run := memoryBlock detectors (S uid) (Some caption) lang prefs w in
  match pg_emoji_level level, pg_varchar 10 chosen with
  | Some stored_level, Some stored_language =>
      user_preferences (store (snd run)) !! S uid
      = Some
          {| up_preferred_tone := Some (detectTone caption);
             up_emoji_level := Some stored_level;
             up_common_phrases :=
               Some (mergeLists (common_phrases existing)
                       (extractPhrases detectors caption) 10);
             up_disliked_phrases := Some (disliked_phrases existing);
             up_caption_length_preference := Some (detectLengthPreference caption);
             up_language_preference := Some stored_language;
             up_caption_structure := Some (detectStructure detectors caption) |}
  | _, _ => store (snd run) = store w /\ fst run = Ok prefs
  end.
Proof.
  intros Hf Hc existing level chosen run.
  set (w1 := after_call w (SelectUserPreferences (S uid)) None (store w)).
  assert (Hf1 : faults w1 = []) by (cbn; now rewrite Hf).
  pose (learned :=
          {| u_preferred_tone :=
               Some (if String.eqb (detectTone caption) "" then preferred_tone existing
                     else detectTone caption);
             u_emoji_level := Some level;
             u_common_phrases :=
               Some (mergeLists (common_phrases existing)
                       (extractPhrases detectors caption) 10);
             u_disliked_phrases := None;
             u_caption_length_preference := Some (detectLengthPreference caption);
             u_language_preference :=
               Some (if String.eqb chosen "" then language_preference existing
                     else chosen);
             u_caption_structure := Some (detectStructure detectors caption) |}).
  assert (Hrun : run
                 = try_catch (updatePreferences (Some (S uid)) learned)
                     (fun _ =>
                        console_log
                          "Generate Route: Memory engine update failed (non-critical):" ;;;
                        ret prefs) w1).
  { unfold run, memoryBlock, try_catch, learnFromCaption.
    cbn [uid_truthy caption_truthy negb orb]. rewrite Hc. cbn [negb orb].
    unfold bind at 1. unfold bind at 1.
    rewrite getPreferences_run by now apply no_faults_next.
    reflexivity. }
  clearbody run. subst run.
  assert (El : (if String.eqb chosen "" then language_preference existing else chosen)
               = chosen).
  { unfold chosen. destruct (text_truthy lang) eqn:T.
    - destruct lang as [l|]; [|discriminate T]. cbn in T |- *.
      apply negb_true_iff in T. now rewrite T.
    - unfold existing. now rewrite stored_language_truthy. }
  assert (Eu : u_language_preference learned = Some chosen).
  { unfold learned. cbn [u_language_preference]. now rewrite El. }
  assert (Et : u_preferred_tone learned = Some (detectTone caption)).
  { unfold learned. cbn [u_preferred_tone]. now rewrite detectTone_truthy. }
  unfold try_catch.
  destruct (pg_emoji_level level) as [stored_level|] eqn:Pl.
  2:{ destruct (updatePreferences_rejected uid learned w1 Hf1) as [Hr Hs].
      { right; left. exact Pl. }
      destruct (updatePreferences (Some (S uid)) learned w1) as [[p|e] w2];
        [discriminate Hr|]. cbn in Hs |- *. split; [exact Hs|reflexivity]. }
  destruct (pg_varchar 10 chosen) as [stored_language|] eqn:Pg.
  2:{ destruct (updatePreferences_rejected uid learned w1 Hf1) as [Hr Hs].
      { right; right; right. rewrite Eu. exact Pg. }
      destruct (updatePreferences (Some (S uid)) learned w1) as [[p|e] w2];
        [discriminate Hr|]. cbn in Hs |- *. split; [exact Hs|reflexivity]. }
  destruct (updatePreferences_run uid learned w1 (detectTone caption)
              (detectLengthPreference caption) stored_language stored_level Hf1)
    as (w2 & -> & Hst & _).
  { rewrite Et. apply detectTone_stored. }
  { exact Pl. }
  { apply detectLengthPreference_stored. }
  { rewrite Eu. exact Pg. }
  cbn [fst snd]. rewrite Hst, lookup_insert_eq.
  change (stored_preferences (store w1) (S uid)) with existing.
  unfold learned.
  cbn [default u_common_phrases u_disliked_phrases u_caption_structure
       common_phrases disliked_phrases caption_structure].
  unfold id. now rewrite (merge_twice (common_phrases existing)) by lia.
Qed.

(** X6.  Round trip of the preferences.  When the connection to the store
    does not fail and [updatePreferences] succeeds — the columns accepted
    the update — a [getPreferences] that follows it returns what
    [updatePreferences] returned: the same emoji level, phrase lists and
    structure, and the same tone, length class and language unless they are
    empty, which read as the defaults "casual", "medium" and "en". *)
Theorem preferences_round_trip (uid : nat) (u : PreferenceUpdates num) (w : World num)
  (p : Preferences num) :
  faults w = [] ->
  fst (updatePreferences (Some (S uid)) u w) = Ok p ->
  fst (getPreferences (Some (S uid)) (snd (updatePreferences (Some (S uid)) u w)))
  = Ok {| preferred_tone := text_or (Some (preferred_tone p)) "casual";
          emoji_level := emoji_level p;
          common_phrases := common_phrases p;
          disliked_phrases := disliked_phrases p;
          caption_length_preference :=
            text_or (Some (caption_length_preference p)) "medium";
          language_preference := text_or (Some (language_preference p)) "en";
          caption_structure := caption_structure p |}.
Proof.
  intros Hf Hp.
  set (current := stored_preferences (store w) (S uid)).
  destruct (pg_varchar 50 (default (preferred_tone current) (u_preferred_tone u)))
    as [tone|] eqn:Pt.
  2:{ destruct (updatePreferences_rejected uid u w Hf) as [Hr _]; [now left|congruence]. }
  destruct (pg_emoji_level (default (emoji_level current) (u_emoji_level u)))
    as [level|] eqn:Pl.
  2:{ destruct (updatePreferences_rejected uid u w Hf) as [Hr _];
        [right; now left|congruence]. }
  destruct (pg_varchar 20
              (default (caption_length_preference current) (u_caption_length_preference u)))
    as [len|] eqn:Pc.
  2:{ destruct (updatePreferences_rejected uid u w Hf) as [Hr _];
        [right; right; now left|congruence]. }
  destruct (pg_varchar 10 (default (language_preference current) (u_language_preference u)))
    as [language|] eqn:Pg.
  2:{ destruct (updatePreferences_rejected uid u w Hf) as [Hr _];
        [right; right; now right|congruence]. }
  destruct (updatePreferences_run uid u w tone len language level Hf Pt Pl Pc Pg)
    as (w' & E & Hst & Hf').
  rewrite E in Hp |- *. cbn [fst snd] in Hp |- *. injection Hp as <-.
  rewrite getPreferences_run by now apply no_faults_next.
  cbn [fst]. unfold stored_preferences at 1. rewrite Hst, lookup_insert_eq.
  cbn [default up_preferred_tone up_emoji_level up_common_phrases up_disliked_phrases
       up_caption_length_preference up_language_preference up_caption_structure
       preferred_tone emoji_level common_phrases disliked_phrases
       caption_length_preference language_preference caption_structure].
  unfold id. f_equal. f_equal.
  unfold text_or. destruct (String.eqb language "") eqn:El; [|now rewrite El].
  apply String.eqb_eq in El. subst language. apply pg_varchar_empty in Pg.
  change (from_option (fun x : string => x)
            (language_preference (stored_preferences (store w) (S uid)))
            (u_language_preference u))
    with (default (language_preference current) (u_language_preference u)).
  rewrite Pg. reflexivity.
Qed.

(** X7.  [initPreferences] does not clear the phrases a user has learnt.  On
    a user who has a row it resets the tone, the emoji level, the length
    class, the language and the structure to the defaults, and writes both
    phrase lists back as [mergeUniqueLists(stored, [])]: the stored phrases
    themselves whenever they are clean (trimmed, not empty, distinct) and at
    most ten, as every list written by [updatePreferences] is. *)
Theorem initPreferences_keeps_phrases (uid : nat) (w : World num) :
  faults w = [] ->
  let current := stored_preferences (store w) (S uid) in
  user_preferences (store (snd (initPreferences (Some (S uid)) w))) !! S uid
  = Some {| up_preferred_tone := Some "casual"%string;
            up_emoji_level := Some (n_ofZ 2);
            up_common_phrases := Some (mergeUniqueLists (common_phrases current) [] 10);
            up_disliked_phrases := Some (mergeUniqueLists (disliked_phrases current) [] 10);
            up_caption_length_preference := Some "medium"%string;
            up_language_preference := Some "en"%string;
            up_caption_structure := Some DEFAULT_STRUCTURE |}
  /\ (forall l : list jsstring,
        NoDup l -> Forall entry_ok l -> (length l <= 10)%nat ->
        mergeUniqueLists l [] 10 = l).
Proof.
  intros Hf current. split.
  - unfold initPreferences.
    match goal with
    | |- context [updatePreferences ?i ?u w] =>
        destruct (updatePreferences_run uid u w "casual" "medium" "en" (n_ofZ 2) Hf)
          as (w' & -> & Hst & _)
    end; try reflexivity.
    { cbn [default u_emoji_level emoji_level DEFAULT_PREFERENCES].
      apply pg_emoji_level_ofZ. lia. }
    cbn [snd]. rewrite Hst, lookup_insert_eq. reflexivity.
  - intros l Hn Hl Hlen. rewrite mergeUniqueLists_take by lia.
    rewrite app_nil_r, (merge_fold_clean l []) by assumption.
    cbn [app]. apply take_ge. change (Z.to_nat 10) with 10%nat. lia.
Qed.

End MemoryUpdate.

(** X5 at a first caption of a user without a row, on exact numbers: the
    mean of the default level 2 and of no emoji is 1, which is stored; and
    at a caption of a user whose stored level is 1: the mean 0.5 is rejected
    and nothing is written. *)
Lemma memory_update_stores_witness :
  user_preferences
    (store (snd (memoryBlock plain_detectors 1 (Some (js "Sunny day!")) (Some "hi"%string)
                   DEFAULT_PREFERENCES (world_of empty_store [])))) !! 1%nat
  = Some {| up_preferred_tone := Some "energetic"%string;
            up_emoji_level := Some 1%Q;
            up_common_phrases := Some [];
            up_disliked_phrases := Some [];
            up_caption_length_preference := Some "short"%string;
            up_language_preference := Some "hi"%string;
            up_caption_structure := Some DEFAULT_STRUCTURE |}
  /\ store (snd (memoryBlock plain_detectors 1 (Some (js "Sunny day!")) (Some "hi"%string)
                   DEFAULT_PREFERENCES (world_of (store_with_emoji_level 1) [])))
     = store_with_emoji_level 1.
Proof.
  split.
  - refine (eq_trans
              (memory_update_stores plain_detectors 0 (js "Sunny day!") (Some "hi"%string)
                 DEFAULT_PREFERENCES (world_of empty_store []) eq_refl eq_refl) _).
    vm_compute. reflexivity.
  - exact (proj1
             (memory_update_stores plain_detectors 0 (js "Sunny day!") (Some "hi"%string)
                DEFAULT_PREFERENCES (world_of (store_with_emoji_level 1) [])
                eq_refl eq_refl)).
Defined.

(** X6 at an update of the tone of a user without a row. *)
Lemma preferences_round_trip_witness :
  fst (getPreferences (Some 1%nat)
         (snd (updatePreferences (Some 1%nat)
                 {| u_preferred_tone := Some "witty"%string; u_emoji_level := None;
                    u_common_phrases := Some [js " sunset "]; u_disliked_phrases := None;
                    u_caption_length_preference := None; u_language_preference := None;
                    u_caption_structure := None |}
                 (world_of (@empty_store Q) []))))
  = Ok {| preferred_tone := "witty"; emoji_level := 2%Q;
          common_phrases := [js "sunset"]; disliked_phrases := [];
          caption_length_preference := "medium"; language_preference := "en";
          caption_structure := DEFAULT_STRUCTURE |}.
Proof.
  refine (eq_trans
            (preferences_round_trip 0
               {| u_preferred_tone := Some "witty"%string; u_emoji_level := None;
                  u_common_phrases := Some [js " sunset "]; u_disliked_phrases := None;
                  u_caption_length_preference := None; u_language_preference := None;
                  u_caption_structure := None |}
               (world_of (@empty_store Q) [])
               {| preferred_tone := "witty"; emoji_level := 2%Q;
                  common_phrases := [js "sunset"]; disliked_phrases := [];
                  caption_length_preference := "medium"; language_preference := "en";
                  caption_structure := DEFAULT_STRUCTURE |}
               eq_refl _) _).
  - vm_compute. reflexivity.
  - vm_compute. reflexivity.
Defined.

(** X7 at a user whose row holds two phrases. *)
Lemma initPreferences_keeps_phrases_witness :
  user_preferences
    (store (snd (initPreferences (Some 1%nat)
                   (world_of
                      {| voice_profiles := ∅; content_analysis := []; voice_feedback := [];
                         voice_training_sessions := [];
                         user_preferences :=
                           {[ 1%nat :=
                                {| up_preferred_tone := Some "witty"%string;
                                   up_emoji_level := Some 4%Q;
                                   up_common_phrases := Some [js "sunset"; js "coffee"];
                                   up_disliked_phrases := Some [js "synergy"];
                                   up_caption_length_preference := Some "long"%string;
                                   up_language_preference := Some "hi"%string;
                                   up_caption_structure := None |} ]};
                         saved_posts := []; caption_history := [] |} [])))) !! 1%nat
  = Some {| up_preferred_tone := Some "casual"%string;
            up_emoji_level := Some 2%Q;
            up_common_phrases := Some [js "sunset"; js "coffee"];
            up_disliked_phrases := Some [js "synergy"];
            up_caption_length_preference := Some "medium"%string;
            up_language_preference := Some "en"%string;
            up_caption_structure := Some DEFAULT_STRUCTURE |}.
Proof.
  refine (eq_trans (proj1 (initPreferences_keeps_phrases 0 (world_of _ []) eq_refl)) _).
  vm_compute. reflexivity.
Defined.

(** ** The language advisor *)

Lemma tally_incr_keys (lang : string) (tally : list (string * nat)) :
  map fst (tally_incr lang tally)
  = if decide (lang ∈ map fst tally) then map fst tally else map fst tally ++ [lang].
Proof.
  induction tally as [|[l c] t IH]; cbn [tally_incr map fst]; [reflexivity|].
  destruct (String.eqb l lang) eqn:E.
  - apply String.eqb_eq in E. subst l. cbn [map fst].
    destruct (decide (lang ∈ lang :: map fst t)) as [_|Hn]; [reflexivity|].
    exfalso. apply Hn. now left.
  - apply String.eqb_neq in E. cbn [map fst]. rewrite IH.
    destruct (decide (lang ∈ map fst t)) as [Hin|Hin].
    + destruct (decide (lang ∈ l :: map fst t)) as [_|Hn]; [reflexivity|].
      exfalso. apply Hn. now right.
    + destruct (decide (lang ∈ l :: map fst t)) as [Hy|_]; [|reflexivity].
      exfalso. apply elem_of_cons in Hy as [Hy|Hy]; [congruence|contradiction].
Qed.

Lemma tally_incr_NoDup (lang : string) (tally : list (string * nat)) :
  NoDup (map fst tally) -> NoDup (map fst (tally_incr lang tally)).
Proof.
  intros Hn. rewrite tally_incr_keys.
  destruct (decide (lang ∈ map fst tally)) as [Hin|Hin]; [exact Hn|].
  apply NoDup_app. split; [exact Hn|]. split; [|apply NoDup_singleton].
  intros x Hx Hx'. apply list_elem_of_singleton in Hx'. now subst.
Qed.

Lemma tally_incr_sum (lang : string) (tally : list (string * nat)) :
  list_sum (map snd (tally_incr lang tally)) = S (list_sum (map snd tally)).
Proof.
  induction tally as [|[l c] t IH]; cbn [tally_incr map snd]; [reflexivity|].
  destruct (String.eqb l lang); cbn [map snd];
    change (list_sum (?a :: ?l)) with (a + list_sum l)%nat; [reflexivity|].
  rewrite IH. lia.
Qed.

Lemma tally_incr_positive (lang : string) (tally : list (string * nat)) :
  Forall (fun e => (0 < snd e)%nat) tally ->
  Forall (fun e => (0 < snd e)%nat) (tally_incr lang tally).
Proof.
  induction tally as [|[l c] t IH]; intros Hf; cbn [tally_incr].
  - repeat constructor.
  - apply Forall_cons in Hf as [Hc Hf].
    destruct (String.eqb l lang); constructor; cbn in *; auto; lia.
Qed.

Section Distribution.
Context {num : Type} `{JsNumber num} (identifier : LanguageIdentifier).

(** The language a post counts for is never the empty string. *)
Lemma post_language_truthy (post : SavedPost) (lang : string) :
  post_language identifier post = Some lang -> lang <> ""%string.
Proof.
  unfold post_language.
  destruct (detectLanguageFromCaption identifier (Some (default [] (sp_caption post))))
    as [d|] eqn:D.
  - intros [= <-]. unfold detectLanguageFromCaption in D.
    repeat case_match; try discriminate. injection D as <-. cbn.
    intros E. subst. discriminate.
  - destruct (text_truthy (sp_language post)) eqn:T; [|discriminate].
    intros E. rewrite E in T. cbn in T. apply negb_true_iff in T.
    now apply String.eqb_neq.
Qed.

(** The tally kept by the loop of [detectLanguageDistributionForUser]:
    distinct languages, none empty, every count positive, and the counts add
    up to the number of posts counted. *)
Lemma tally_fold_invariant (posts : list SavedPost) (acc : list (string * nat) * nat) :
  let Inv (acc : list (string * nat) * nat) :=
    NoDup (map fst (fst acc))
    /\ Forall (fun e => fst e <> ""%string /\ (0 < snd e)%nat) (fst acc)
    /\ list_sum (map snd (fst acc)) = snd acc in
  Inv acc ->
  Inv (fold_left
         (fun (acc : list (string * nat) * nat) post =>
            match post_language identifier post with
            | None => acc
            | Some lang => (tally_incr lang (fst acc), S (snd acc))
            end) posts acc).
Proof.
  intros Inv. revert acc. induction posts as [|p posts IH]; intros acc Hacc; [exact Hacc|].
  cbn [fold_left]. apply IH.
  destruct (post_language identifier p) as [lang|] eqn:E; [|exact Hacc].
  destruct Hacc as (Hn & Hf & Hs). unfold Inv. cbn [fst snd].
  split; [now apply tally_incr_NoDup|]. split; [|now rewrite tally_incr_sum, Hs].
  apply post_language_truthy in E.
  clear -Hf E. induction (fst acc) as [|[l c] t IHt]; cbn [tally_incr].
  - constructor; [split; [exact E|cbn; lia]|constructor].
  - apply Forall_cons in Hf as [[Hl Hc] Hf]. cbn in Hl, Hc.
    destruct (String.eqb l lang); constructor; auto; split; cbn; auto; lia.
Qed.

(** The languages of the tally are languages of the posts. *)
Lemma tally_fold_languages (P : string -> Prop) (posts : list SavedPost)
  (acc : list (string * nat) * nat) :
  (forall post lang, post ∈ posts -> post_language identifier post = Some lang -> P lang) ->
  Forall (fun e => P (fst e)) (fst acc) ->
  Forall (fun e => P (fst e))
    (fst (fold_left
            (fun (acc : list (string * nat) * nat) post =>
               match post_language identifier post with
               | None => acc
               | Some lang => (tally_incr lang (fst acc), S (snd acc))
               end) posts acc)).
Proof.
  revert acc. induction posts as [|p posts IH]; intros acc Hp Hacc; [exact Hacc|].
  cbn [fold_left]. apply IH; [intros post lang Hin; apply Hp; now right|].
  destruct (post_language identifier p) as [lang|] eqn:E; [|exact Hacc].
  cbn [fst]. specialize (Hp p lang ltac:(now left) E).
  clear -Hacc Hp. induction (fst acc) as [|[l c] t IHt]; cbn [tally_incr].
  - now repeat constructor.
  - apply Forall_cons in Hacc as [Hl Hacc].
    destruct (String.eqb l lang); constructor; auto.
Qed.

(** A distribution is the tally without the language ["__proto__"], every
    count divided by the total. *)
Lemma distribution_of_tally userId limit (w w' : World num) distribution :
  detectLanguageDistributionForUser identifier userId limit w = (Ok (Some distribution), w') ->
  exists (tally : list (string * nat)) (total : nat),
    distribution
    = map (fun entry =>
             (fst entry, n_div (n_ofZ (Z.of_nat (snd entry))) (n_ofZ (Z.of_nat total))))
        (List.filter (fun entry => negb (String.eqb (fst entry) "__proto__")) tally)
    /\ NoDup (map fst tally)
    /\ Forall (fun e => fst e <> ""%string /\ (0 < snd e)%nat) tally
    /\ list_sum (map snd tally) = total
    /\ total <> 0%nat
    /\ ((forall post, post ∈ saved_posts (store w) ->
           post_language identifier post <> Some "__proto__"%string) ->
        Forall (fun e => fst e <> "__proto__"%string) tally).
Proof.
  unfold detectLanguageDistributionForUser, bind, ret.
  destruct userId as [[|uid]|]; try discriminate.
  destruct (getSavedPosts (S uid) (Some limit) w) as [[posts|e] w1] eqn:G; cbv beta iota;
    [|discriminate].
  assert (Hposts : forall post, post ∈ posts -> post ∈ saved_posts (store w)).
  { revert G. unfold getSavedPosts, external.
    destruct (next_fault w); [discriminate|]. intros [= <- _] post Hin.
    assert (Hf : post ∈ List.filter (fun p => Nat.eqb (sp_user_id p) (S uid))
                          (saved_posts (store w))).
    { destruct limit; [exact Hin|].
      rewrite <- (take_drop (S limit) (List.filter _ _)). apply elem_of_app. now left. }
    apply list_elem_of_In, filter_In in Hf as [Hf _]. now apply list_elem_of_In. }
  destruct posts as [|p posts]; [discriminate|].
  pose proof (tally_fold_invariant (p :: posts) ([], 0%nat)) as Hinv.
  cbn zeta in Hinv. specialize (Hinv ltac:(cbn; repeat split; constructor)).
  pose proof (tally_fold_languages (fun lang => lang <> "__proto__"%string)
                (p :: posts) ([], 0%nat)) as Hlang.
  match goal with
  | |- context [Nat.eqb (snd ?r) 0] => destruct (Nat.eqb (snd r) 0) eqn:E; set (res := r) in *
  end; [discriminate|].
  apply Nat.eqb_neq in E. destruct Hinv as (Hn & Hf & Hs).
  intros [= <- <-]. exists (fst res), (snd res). repeat split; try assumption.
  intros Hproto. apply Hlang; [|constructor].
  intros post lang Hin Hl ->. exact (Hproto post (Hposts post Hin) Hl).
Qed.

End Distribution.



Lemma list_sum_filter (f : string * nat -> bool) (tally : list (string * nat)) :
  (list_sum (map snd (List.filter f tally)) <= list_sum (map snd tally))%nat.
Proof.
  induction tally as [|x t IH]; cbn [List.filter map]; [lia|].
  change (list_sum (snd x :: map snd t)) with (snd x + list_sum (map snd t))%nat.
  destruct (f x); cbn [map];
    [change (list_sum (snd x :: ?l)) with (snd x + list_sum l)%nat|]; lia.
Qed.

Lemma filter_all {A} (f : A -> bool) (l : list A) :
  Forall (fun x => f x = true) l -> List.filter f l = l.
Proof.
  induction 1 as [|x l Hx _ IH]; cbn [List.filter]; [reflexivity|].
  now rewrite Hx, IH.
Qed.

(** The counts behind a distribution. *)
Lemma distribution_counts {num} `{JsNumber num} (identifier : LanguageIdentifier)
  (userId : option nat) (limit : nat) (w w' : World num)
  (distribution : list (string * num)) :
  detectLanguageDistributionForUser identifier userId limit w
  = (Ok (Some distribution), w') ->
  exists (counts : list (string * nat)) (total : nat),
    distribution
    = map (fun entry =>
             (fst entry,
              n_div (n_ofZ (Z.of_nat (snd entry))) (n_ofZ (Z.of_nat total)))) counts
    /\ NoDup (map fst counts)
    /\ Forall (fun e => fst e <> ""%string /\ fst e <> "__proto__"%string
                        /\ (0 < snd e)%nat) counts
    /\ (list_sum (map snd counts) <= total)%nat
    /\ (0 < total)%nat
    /\ ((forall post, post ∈ saved_posts (store w) ->
           post_language identifier post <> Some "__proto__"%string) ->
        list_sum (map snd counts) = total).
Proof.
  intros Hd.
  apply distribution_of_tally in Hd as (tally & total & -> & Hn & Hf & Hs & Ht & Hp).
  set (kept := fun entry : string * nat => negb (String.eqb (fst entry) "__proto__")).
  exists (List.filter kept tally), total.
  split; [reflexivity|]. split.
  { apply NoDup_ListNoDup.
    assert (Hm : forall l : list (string * nat),
               List.NoDup (map fst l) -> List.NoDup (map fst (List.filter kept l))).
    { induction l as [|x l IH]; cbn [List.filter map]; [auto|].
      intros Hl. apply List.NoDup_cons_iff in Hl as [Hx Hl].
      destruct (kept x); [|now apply IH]. cbn [map]. constructor; [|now apply IH].
      intros Hin. apply Hx. apply in_map_iff in Hin as (y & Ey & Hy).
      apply filter_In in Hy as [Hy _]. apply in_map_iff. now exists y. }
    apply Hm. now apply NoDup_ListNoDup. }
  split.
  { apply Forall_forall. intros e He. apply list_elem_of_In, filter_In in He as [He Hk].
    rewrite Forall_forall in Hf. destruct (Hf e) as [H1 H2]; [now apply list_elem_of_In|].
    split; [exact H1|]. split; [|exact H2].
    unfold kept in Hk. apply negb_true_iff in Hk. now apply String.eqb_neq. }
  split; [rewrite <- Hs; apply list_sum_filter|]. split; [lia|].
  intros Hproto. rewrite filter_all; [exact Hs|].
  eapply Forall_impl; [exact (Hp Hproto)|].
  intros e He. unfold kept. apply negb_true_iff. now apply String.eqb_neq.
Qed.



Section RankingOrder.
Context {num : Type} `{JsNumber num}.

Lemma insert_by_index_perm {V} (x : N * (string * V)) sorted :
  insert_by_index x sorted ≡ₚ x :: sorted.
Proof.
  induction sorted as [|y sorted IH]; cbn; [reflexivity|].
  destruct (fst x <? fst y)%N; [reflexivity|]. rewrite IH. apply perm_swap.
Qed.

Lemma indexed_fold_perm {V} (props : list (string * V)) acc :
  map snd
    (fold_left
       (fun acc p =>
          match array_index (fst p) with
          | Some i => insert_by_index (i, p) acc
          | None => acc
          end) props acc)
  ≡ₚ map snd acc
     ++ List.filter (fun p => match array_index (fst p) with Some _ => true | None => false end)
          props.
Proof.
  revert acc. induction props as [|p props IH]; intros acc; cbn [fold_left List.filter].
  - now rewrite app_nil_r.
  - rewrite IH. destruct (array_index (fst p)) as [i|]; [|reflexivity].
    rewrite (Permutation_map snd (insert_by_index_perm (i, p) acc)). cbn [map snd app].
    apply Permutation_middle.
Qed.

Lemma filter_partition_perm {A} (f g : A -> bool) (l : list A) :
  (forall x, g x = negb (f x)) -> List.filter f l ++ List.filter g l ≡ₚ l.
Proof.
  intros Hg. induction l as [|a l IH]; cbn [List.filter]; [reflexivity|].
  rewrite Hg. destruct (f a); cbn [negb app].
  - now rewrite IH.
  - rewrite <- Permutation_middle. now rewrite IH.
Qed.

(** [Object.entries] lists every property once. *)
Lemma object_entries_perm {V} (props : list (string * V)) : object_entries props ≡ₚ props.
Proof.
  unfold object_entries. rewrite indexed_fold_perm. cbn [map app].
  apply filter_partition_perm. intros x. now destruct (array_index (fst x)).
Qed.

Lemma insert_ranked_perm (x : string * num) sorted : insert_ranked x sorted ≡ₚ x :: sorted.
Proof.
  induction sorted as [|y sorted IH]; cbn; [reflexivity|].
  destruct (n_gt (n_sub (snd x) (snd y)) (n_ofZ 0)); [reflexivity|].
  rewrite IH. apply perm_swap.
Qed.

Lemma ranked_fold_perm (l acc : list (string * num)) :
  fold_left (fun sorted x => insert_ranked x sorted) l acc ≡ₚ l ++ acc.
Proof.
  revert acc. induction l as [|x l IH]; intros acc; cbn [fold_left app]; [reflexivity|].
  rewrite IH, insert_ranked_perm. symmetry. apply Permutation_middle.
Qed.

(** Ranking reorders the distribution and nothing more. *)
Lemma ranked_entries_perm (distribution : list (string * num)) :
  ranked_entries distribution ≡ₚ distribution.
Proof.
  unfold ranked_entries. now rewrite ranked_fold_perm, app_nil_r, object_entries_perm.
Qed.

End RankingOrder.

Section Recommendation.
Context {num : Type} `{JsNumber num} (identifier : LanguageIdentifier).

Lemma detection_code_truthy (text : option jsstring) (d : Detection) :
  detectLanguageFromCaption identifier text = Some d -> isoCode d <> ""%string.
Proof.
  unfold detectLanguageFromCaption. repeat case_match; try discriminate.
  intros [= <-]. cbn. intros E. subst. discriminate.
Qed.

(** The keys of a distribution: distinct and not empty. *)
Lemma distribution_keys userId limit (w w' : World num) distribution :
  detectLanguageDistributionForUser identifier userId limit w = (Ok (Some distribution), w') ->
  NoDup (map fst distribution) /\ Forall (fun e => fst e <> ""%string) distribution.
Proof.
  intros Hd. apply distribution_counts in Hd as (counts & total & -> & Hn & Hf & _).
  split; [rewrite map_map; exact Hn|].
  apply Forall_forall. intros e He. apply list_elem_of_In, in_map_iff in He.
  destruct He as (x & <- & Hx). rewrite Forall_forall in Hf.
  apply (Hf x). now apply list_elem_of_In.
Qed.

(** X9.  The shape of a recommendation, in any arithmetic in which neither
    zero nor a falsy share reaches 0.2 (binary64 and exact rationals are
    such).  Whenever [recommendLanguage] returns, either the mode is
    "bilingual", the reason is "audience-mixed" and the secondary language
    is a language of the user's history, not empty and different from the
    primary one; or the mode is "single" and there is no secondary
    language.  The primary language is empty only if the reason is
    "fallback" (an empty fallback language was passed). *)
Theorem recommendation_shape (request : LanguageRequest) (w w' : World num)
  (r : LanguageRecommendation) :
  share_laws num ->
  recommendLanguage identifier request w = (Ok r, w') ->
  ((mode r = "bilingual"%string /\ reason r = "audience-mixed"%string
    /\ exists s, secondary r = Some s /\ s <> ""%string /\ s <> primary r)
   \/ (mode r = "single"%string /\ secondary r = None))
  /\ (reason r <> "fallback"%string -> primary r <> ""%string).
Proof.
  intros [L0 Lf]. unfold recommendLanguage.
  destruct (text_truthy (preferredLanguage request)) eqn:P.
  { intros [= <- <-]. cbn. split; [now right|]. intros _.
    destruct (preferredLanguage request) as [l|]; [|discriminate P].
    cbn in P |- *. apply negb_true_iff in P. now apply String.eqb_neq. }
  unfold bind.
  destruct (detectLanguageDistributionForUser identifier (req_userId request) 50 w)
    as [[distribution|e] w1] eqn:D; [|discriminate].
  destruct (if caption_truthy (captionText request)
            then detectLanguageFromCaption identifier (captionText request)
            else None) as [detection|] eqn:C.
  { intros [= <- <-]. cbn. split; [now right|]. intros _.
    destruct (caption_truthy (captionText request)); [|discriminate C].
    eapply detection_code_truthy, C. }
  destruct (text_truthy (imageLanguageHint request)) eqn:I.
  { intros [= <- <-]. cbn. split; [now right|]. intros _.
    destruct (imageLanguageHint request) as [l|]; [|discriminate I].
    cbn in I |- *. apply negb_true_iff in I. now apply String.eqb_neq. }
  destruct distribution as [distribution|].
  2:{ intros [= <- <-]. cbn. split; [now right|]. congruence. }
  apply distribution_keys in D as [Hn Hk].
  pose proof (ranked_entries_perm distribution) as Hp.
  destruct (ranked_entries distribution) as [|[topLang topShare] rest] eqn:R; [discriminate|].
  assert (Hn' : NoDup (map fst ((topLang, topShare) :: rest))).
  { apply NoDup_ListNoDup. eapply Permutation_NoDup; [|apply NoDup_ListNoDup, Hn].
    apply Permutation_map. now symmetry. }
  assert (Hk' : Forall (fun e => fst e <> ""%string) ((topLang, topShare) :: rest)).
  { rewrite Hp. exact Hk. }
  apply Forall_cons in Hk' as [Htop Hrest]. cbn in Htop.
  cbv zeta.
  destruct (n_ge topShare (n_dec 7 1)).
  { intros [= <- <-]. cbn. split; [now right|]. now intros _. }
  destruct (n_ge topShare (n_dec 5 1)); cbn [andb].
  2:{ intros [= <- <-]. cbn. split; [now right|]. now intros _. }
  destruct rest as [|[secondLang secondShare] rest']; cbn [hd_error option_map fst snd].
  { rewrite L0. intros [= <- <-]. cbn. split; [now right|]. now intros _. }
  destruct (n_truthy secondShare) eqn:T.
  2:{ rewrite L0. intros [= <- <-]. cbn. split; [now right|]. now intros _. }
  destruct (n_ge secondShare (n_dec 2 1)).
  2:{ intros [= <- <-]. cbn. split; [now right|]. now intros _. }
  intros [= <- <-]. cbn. split; [|now intros _]. left.
  split; [reflexivity|]. split; [reflexivity|]. exists secondLang.
  split; [reflexivity|]. apply Forall_cons in Hrest as [Hs _]. cbn in Hs.
  split; [exact Hs|]. cbn [map fst] in Hn'. apply NoDup_cons in Hn' as [Hni _].
  intros E. apply Hni. subst. now left.
Qed.

End Recommendation.

(** X9 at a history of 11 posts in "en", 5 in "hi" and 4 in "ta", on
    binary64. *)
Lemma recommendation_shape_witness :
  exists s, Some "hi"%string = Some s /\ s <> ""%string /\ s <> "en"%string.
Proof.
  pose (w := world_of (num := float)
               (store_with_posts
                  (repeat (post_in "en") 11 ++ repeat (post_in "hi") 5
                     ++ repeat (post_in "ta") 4)) []).
  destruct (proj1 (@recommendation_shape float f64_number silent_identifier (request_of None) w
                     (snd (@recommendLanguage float f64_number silent_identifier
                             (request_of None) w))
                     {| mode := "bilingual"; primary := "en"; secondary := Some "hi"%string;
                        reason := "audience-mixed"; sources := ["history"%string] |}
                     f64_share_laws ltac:(vm_compute; reflexivity)))
    as [(_ & _ & Hs)|[Hm _]]; [exact Hs|discriminate Hm].
Defined.

Section ReadOnly.
Context {num : Type} `{JsNumber num} (identifier : LanguageIdentifier).

Lemma new_calls_none (w : World num) : new_calls w w = [].
Proof. unfold new_calls. apply drop_all. Qed.

Lemma new_calls_one (w : World num) (c : Call) (o : option string) (s : Store num) :
  new_calls w (after_call w c o s) = [(c, o)].
Proof. unfold new_calls, after_call. cbn [calls]. apply drop_app_length. Qed.

(** One read of the saved posts, or none at all. *)
Lemma distribution_reads_once (userId : option nat) (limit : nat) (w : World num) :
  let run := detectLanguageDistributionForUser identifier userId limit w in
  store (snd run) = store w
  /\ ((uid_truthy userId = false /\ snd run = w /\ fst run = Ok None)
      \/ exists uid outcome,
           userId = Some (S uid)
           /\ new_calls w (snd run) = [(GetSavedPosts (S uid) (Some limit), outcome)]
           /\ outcome = next_fault w
           /\ forall e, fst run = Throw e <-> outcome = Some e).
Proof.
  unfold detectLanguageDistributionForUser.
  destruct userId as [[|uid]|]; cbn [uid_truthy]; try (split; [reflexivity|left; now repeat split]).
  unfold bind, getSavedPosts, external.
  destruct (next_fault w) as [e|] eqn:F; cbn [fst snd].
  - split; [reflexivity|]. right. exists uid, (Some e).
    split; [reflexivity|]. split; [apply new_calls_one|]. split; [reflexivity|].
    intros e'. split; congruence.
  - match goal with
    | |- context [after_call w ?c None ?s] => set (w1 := after_call w c None s)
    end.
    assert (G : forall r : Outcome (option (list (string * num))) * World num,
               snd r = w1 -> (forall e, fst r <> Throw e) ->
               store (snd r) = store w
               /\ ((true = false /\ snd r = w /\ fst r = Ok None)
                   \/ exists uid0 outcome,
                        Some (S uid) = Some (S uid0)
                        /\ new_calls w (snd r) = [(GetSavedPosts (S uid0) (Some limit), outcome)]
                        /\ outcome = None
                        /\ forall e, fst r = Throw e <-> outcome = Some e)).
    { intros r -> Hr. split; [reflexivity|]. right. exists uid, None.
      split; [reflexivity|]. split; [apply new_calls_one|]. split; [reflexivity|].
      intros e. split; [intros E; now apply Hr in E|discriminate]. }
    unfold ret. repeat case_match; apply G; cbn; try reflexivity; discriminate.
Qed.

(** X10.  [recommendLanguage] only reads.  It leaves the store as it was; it
    makes no call at all when a preferred language is given or the user id
    is missing, and otherwise exactly one — the read of the user's saved
    posts, limited to 50.  It throws in two cases only: when that read
    fails, with the error of the read; and when, at the history stage, the
    distribution has no property, with a TypeError. *)
Theorem recommendLanguage_reads_once (request : LanguageRequest) (w : World num) :
  let run := recommendLanguage identifier request w in
  store (snd run) = store w
  /\ (new_calls w (snd run) = []
      \/ exists uid outcome,
           text_truthy (preferredLanguage request) = false
           /\ req_userId request = Some (S uid)
           /\ new_calls w (snd run) = [(GetSavedPosts (S uid) (Some 50%nat), outcome)])
  /\ (text_truthy (preferredLanguage request) = true
      \/ uid_truthy (req_userId request) = false -> new_calls w (snd run) = [])
  /\ forall e,
       fst run = Throw e ->
       next_fault w = Some e
       \/ (e = "undefined is not iterable (cannot read property Symbol(Symbol.iterator))"%string
           /\ fst (detectLanguageDistributionForUser identifier (req_userId request) 50 w)
              = Ok (Some [])
           /\ caption_stage identifier request = None
           /\ text_truthy (imageLanguageHint request) = false).
Proof.
  unfold recommendLanguage.
  destruct (text_truthy (preferredLanguage request)) eqn:P.
  { cbn. split; [reflexivity|]. rewrite new_calls_none.
    split; [now left|]. split; [reflexivity|discriminate]. }
  unfold bind. fold (caption_stage identifier request).
  pose proof (distribution_reads_once (req_userId request) 50 w) as D. cbv zeta in D.
  destruct (detectLanguageDistributionForUser identifier (req_userId request) 50 w)
    as [[distribution|e] w1]; cbn [fst snd] in D.
  2:{ cbn [fst snd]. destruct D as (Hs & [(_ & _ & E)|(uid & o & Hu & Hc & Ho & He)]);
        [discriminate E|].
      split; [exact Hs|]. split; [right; now exists uid, o|]. split.
      - intros [E|E]; [discriminate E|]. rewrite Hu in E. discriminate E.
      - intros e' [= <-]. left. rewrite <- Ho. now apply He. }
  assert (F : forall r : Outcome LanguageRecommendation * World num,
             snd r = w1 ->
             store (snd r) = store w
             /\ (new_calls w (snd r) = []
                 \/ exists uid outcome,
                      false = false /\ req_userId request = Some (S uid)
                      /\ new_calls w (snd r) = [(GetSavedPosts (S uid) (Some 50%nat), outcome)])
             /\ (false = true \/ uid_truthy (req_userId request) = false ->
                 new_calls w (snd r) = [])).
  { intros r ->. destruct D as (Hs & [(Hu & -> & _)|(uid & o & Hu & Hc & _)]).
    - split; [reflexivity|]. rewrite new_calls_none. split; [now left|]. reflexivity.
    - split; [exact Hs|]. split; [right; now exists uid, o|].
      intros [E|E]; [discriminate E|]. rewrite Hu in E. discriminate E. }
  assert (G : forall r : Outcome LanguageRecommendation * World num,
             snd r = w1 -> (forall e, fst r <> Throw e) ->
             store (snd r) = store w
             /\ (new_calls w (snd r) = []
                 \/ exists uid outcome,
                      false = false /\ req_userId request = Some (S uid)
                      /\ new_calls w (snd r) = [(GetSavedPosts (S uid) (Some 50%nat), outcome)])
             /\ (false = true \/ uid_truthy (req_userId request) = false ->
                 new_calls w (snd r) = [])
             /\ forall e,
                  fst r = Throw e ->
                  next_fault w = Some e
                  \/ (e = "undefined is not iterable (cannot read property Symbol(Symbol.iterator))"%string
                      /\ Ok distribution = Ok (Some [])
                      /\ caption_stage identifier request = None
                      /\ text_truthy (imageLanguageHint request) = false)).
  { intros r Hr Hn. destruct (F r Hr) as (F1 & F2 & F3).
    split; [exact F1|]. split; [exact F2|]. split; [exact F3|].
    intros e E. now apply Hn in E. }
  destruct (caption_stage identifier request) as [detection|] eqn:C;
    [apply G; cbn; [reflexivity|discriminate]|].
  destruct (text_truthy (imageLanguageHint request)) eqn:I;
    [apply G; cbn; [reflexivity|discriminate]|].
  destruct distribution as [distribution|];
    [|apply G; cbn; [reflexivity|discriminate]].
  destruct (ranked_entries distribution) as [|[topLang topShare] rest] eqn:R.
  - assert (distribution = []) as ->.
    { destruct distribution as [|x l]; [reflexivity|].
      exfalso. now apply (ranked_entries_nonempty (x :: l)). }
    destruct (F (Throw "undefined is not iterable (cannot read property Symbol(Symbol.iterator))", w1)
                eq_refl) as (F1 & F2 & F3).
    split; [exact F1|]. split; [exact F2|]. split; [exact F3|].
    intros e [= <-]. right. repeat split.
  - unfold ret. repeat case_match; apply G; cbn; try reflexivity; discriminate.
Qed.

End ReadOnly.

(** X28.  The thresholds of the history stage.  When [recommendLanguage]
    reaches the history stage — no preferred language, no language detected
    in the caption, no image hint — with a distribution that has at least
    one entry, the result is the specification's: the top-ranked language
    alone with reason "audience-majority" if its share is at least 0.7, else
    top and second as a bilingual pair with reason "audience-mixed" if the
    top share is at least 0.5 and the second-ranked share at least 0.2, else
    the top language alone with reason "audience-default".  This holds in
    any arithmetic where neither zero nor a falsy share reaches 0.2, as is
    the case on binary64 and on exact rationals.  In exact arithmetic the
    top-ranked entry holds a largest share of the distribution and the
    second a largest share of the rest.  A history of four posts in "en" and
    one in "hi" (shares 0.8 and 0.2) gives single/en/audience-majority, and
    one of 11 "en", 5 "hi" and 4 "ta" posts (0.55, 0.25, 0.2) gives
    bilingual en + hi, in both arithmetics. *)
Theorem history_stage_thresholds :
  (forall num (N : JsNumber num) (identifier : LanguageIdentifier)
          (request : LanguageRequest) (w w' : World num)
          (distribution : list (string * num)),
      share_laws num ->
      text_truthy (preferredLanguage request) = false ->
      caption_stage identifier request = None ->
      text_truthy (imageLanguageHint request) = false ->
      detectLanguageDistributionForUser identifier (req_userId request) 50 w
      = (Ok (Some distribution), w') ->
      distribution <> [] ->
      exists top rest,
        ranked_entries distribution = top :: rest
        /\ recommendLanguage identifier request w
           = (Ok (spec_history_stage top (hd_error rest) ["history"%string]), w'))
  /\ share_laws Q
  /\ share_laws float
  /\ (forall (distribution : list (string * Q)) top rest,
        ranked_entries distribution = top :: rest ->
        top ∈ distribution
        /\ (forall x, x ∈ distribution -> (snd x <= snd top)%Q)
        /\ (forall second, hd_error rest = Some second ->
              second ∈ distribution
              /\ forall x, x ∈ rest -> (snd x <= snd second)%Q))
  /\ fst (detectLanguageDistributionForUser (num := Q) silent_identifier (Some 1%nat) 50
            (world_of (store_with_posts (repeat (post_in "en") 4 ++ [post_in "hi"])) []))
     = Ok (Some [("en"%string, (4 # 5)%Q); ("hi"%string, (1 # 5)%Q)])
  /\ fst (recommendLanguage (num := Q) silent_identifier (request_of None)
            (world_of (store_with_posts (repeat (post_in "en") 4 ++ [post_in "hi"])) []))
     = Ok {| mode := "single"; primary := "en"; secondary := None;
             reason := "audience-majority"; sources := ["history"%string] |}
  /\ fst (recommendLanguage (num := float) silent_identifier (request_of None)
            (world_of (store_with_posts (repeat (post_in "en") 4 ++ [post_in "hi"])) []))
     = Ok {| mode := "single"; primary := "en"; secondary := None;
             reason := "audience-majority"; sources := ["history"%string] |}
  /\ fst (detectLanguageDistributionForUser (num := Q) silent_identifier (Some 1%nat) 50
            (world_of
               (store_with_posts
                  (repeat (post_in "en") 11 ++ repeat (post_in "hi") 5
                     ++ repeat (post_in "ta") 4)) []))
     = Ok (Some [("en"%string, (11 # 20)%Q); ("hi"%string, (5 # 20)%Q);
                 ("ta"%string, (4 # 20)%Q)])
  /\ fst (recommendLanguage (num := Q) silent_identifier (request_of None)
            (world_of
               (store_with_posts
                  (repeat (post_in "en") 11 ++ repeat (post_in "hi") 5
                     ++ repeat (post_in "ta") 4)) []))
     = Ok {| mode := "bilingual"; primary := "en"; secondary := Some "hi"%string;
             reason := "audience-mixed"; sources := ["history"%string] |}
  /\ fst (recommendLanguage (num := float) silent_identifier (request_of None)
            (world_of
               (store_with_posts
                  (repeat (post_in "en") 11 ++ repeat (post_in "hi") 5
                     ++ repeat (post_in "ta") 4)) []))
     = Ok {| mode := "bilingual"; primary := "en"; secondary := Some "hi"%string;
             reason := "audience-mixed"; sources := ["history"%string] |}.
Proof.
  split; [intros; now apply recommendLanguage_history_stage|].
  split; [exact Q_share_laws|].
  split; [exact f64_share_laws|].
  split; [exact Q_top_is_largest|].
  repeat split; vm_compute; reflexivity.
Qed.

(** X28 at the history of four "en" posts and one "hi" post. *)
Lemma history_stage_witness :
  exists top rest,
    ranked_entries [("en"%string, (4 # 5)%Q); ("hi"%string, (1 # 5)%Q)] = top :: rest
    /\ recommendLanguage silent_identifier (request_of None)
         (world_of (store_with_posts (repeat (post_in "en") 4 ++ [post_in "hi"])) [])
       = (Ok (spec_history_stage top (hd_error rest) ["history"%string]),
          snd (detectLanguageDistributionForUser (num := Q) silent_identifier (Some 1%nat) 50
                 (world_of (store_with_posts (repeat (post_in "en") 4 ++ [post_in "hi"]))
                    []))).
Proof.
  apply (proj1 history_stage_thresholds Q Q_number silent_identifier (request_of None)
           (world_of (store_with_posts (repeat (post_in "en") 4 ++ [post_in "hi"])) [])
           (snd (detectLanguageDistributionForUser (num := Q) silent_identifier
                   (Some 1%nat) 50
                   (world_of (store_with_posts (repeat (post_in "en") 4 ++ [post_in "hi"]))
                      [])))
           [("en"%string, (4 # 5)%Q); ("hi"%string, (1 # 5)%Q)]).
  - exact Q_share_laws.
  - reflexivity.
  - reflexivity.
  - reflexivity.
  - vm_compute. reflexivity.
  - discriminate.
Defined.


(** ** The voice model *)

(** Lower-casing leaves no capital letter. *)
Lemma ascii_lower_not_upper (c : ascii) :
  let n := nat_of_ascii (ascii_lower c) in ~ (65 <= n <= 90)%nat.
Proof.
  cbv zeta. unfold ascii_lower.
  destruct ((65 <=? nat_of_ascii c)%nat && (nat_of_ascii c <=? 90)%nat) eqn:E.
  - apply andb_true_iff in E as [E1 E2]. apply Nat.leb_le in E1, E2.
    rewrite nat_ascii_embedding by lia. lia.
  - intros [L1 L2]. apply andb_false_iff in E as [E|E]; apply Nat.leb_gt in E; lia.
Qed.

Lemma toLowerCase_not_upper (s : string) (c : ascii) :
  In c (list_ascii_of_string (toLowerCase s)) -> ~ (65 <= nat_of_ascii c <= 90)%nat.
Proof.
  induction s as [|a s IH]; cbn; [tauto|].
  intros [<-|Hc]; [apply ascii_lower_not_upper|now apply IH].
Qed.

Lemma toLowerCase_not_camel (s : string) :
  toLowerCase s <> "emotionalTone"%string /\ toLowerCase s <> "profileName"%string.
Proof.
  split; intros E.
  - apply (toLowerCase_not_upper s "T"%char); [rewrite E; cbn; tauto|].
    change (nat_of_ascii "T") with 84%nat. lia.
  - apply (toLowerCase_not_upper s "N"%char); [rewrite E; cbn; tauto|].
    change (nat_of_ascii "N") with 78%nat. lia.
Qed.

Section RefinedProfiles.
Context {num : Type} `{JsNumber num}.

(** Every numeric property of a refined profile is stored under a
    lower-cased key, as a clamped number read from the reply. *)
Lemma parseVoiceRefinement_fields (lines : list (ReplyLine num)) (k : string) (x : num) :
  rp_fields (parseVoiceRefinement lines) !! k = Some x ->
  exists key numValue,
    FieldLine key (Some numValue) ∈ lines /\ key <> ""%string /\ k = toLowerCase key
    /\ x = n_max (n_ofZ 0) (n_min (n_ofZ 1) numValue).
Proof.
  unfold parseVoiceRefinement. cbn [rp_fields].
  set (step := fun (acc : gmap string num * string) (line : ReplyLine num) => _).
  assert (G : forall lines acc,
             fst (fold_left step lines acc) !! k = Some x ->
             fst acc !! k = Some x
             \/ exists key numValue,
                  FieldLine key (Some numValue) ∈ lines /\ key <> ""%string
                  /\ k = toLowerCase key
                  /\ x = n_max (n_ofZ 0) (n_min (n_ofZ 1) numValue)).
  { clear lines. induction lines as [|line lines IH]; intros acc; cbn [fold_left]; [now left|].
    intros Hk. apply IH in Hk as [Hk|(key & v & Hin & Hne & Hkey & Hx)].
    - destruct line as [text|key [v|]]; cbn in Hk; try (now left).
      destruct (String.eqb key "") eqn:E; cbn in Hk; [now left|].
      unfold object_assign in Hk.
      destruct (String.eqb (toLowerCase key) "__proto__"); [now left|].
      destruct (decide (toLowerCase key = k)) as [<-|Hne].
      + rewrite lookup_insert_eq in Hk. injection Hk as <-. right. exists key, v.
        split; [now left|]. split; [now apply String.eqb_neq|]. now split.
      + rewrite lookup_insert_ne in Hk by exact Hne. now left.
    - right. exists key, v. split; [now right|]. now repeat split. }
  intros Hk. apply G in Hk as [Hk|Hk]; [|exact Hk].
  cbn in Hk. now rewrite lookup_empty in Hk.
Qed.

(** What [upsertVoiceProfile] reads from a refined profile: no name and no
    emotional tone, the keys of the refined profile being lower-cased. *)
Lemma refined_values (lines : list (ReplyLine num)) :
  let values := upsertVoiceProfile_values (refined_object (parseVoiceRefinement lines)) in
  val_profile_name values = VStr "Default Profile"
  /\ val_emotional_tone values = VNum (n_dec 5 1).
Proof.
  cbv zeta. unfold upsertVoiceProfile_values, refined_object.
  cbn [val_profile_name val_emotional_tone].
  rewrite !lookup_insert_ne by discriminate. rewrite !lookup_fmap.
  assert (G : forall k, (exists s, k = toLowerCase s) \/ True ->
                        (k = "emotionalTone"%string \/ k = "profileName"%string) ->
                        rp_fields (parseVoiceRefinement lines) !! k = None).
  { intros k _ Hk. destruct (rp_fields (parseVoiceRefinement lines) !! k) as [x|] eqn:E;
      [|reflexivity].
    apply parseVoiceRefinement_fields in E as (key & v & _ & _ & -> & _).
    destruct (toLowerCase_not_camel key) as [H1 H2]. destruct Hk; contradiction. }
  rewrite !G by auto. split; reflexivity.
Qed.

End RefinedProfiles.

Section RefinementWrites.
Context {num : Type} `{JsNumber num} (cols : ColumnTypes num) (oracle : Oracle num).

(** The row written by the statement of [upsertVoiceProfile]. *)
Lemma sql_upsert_row (userId : nat) (values : VoiceProfileValues num) (s s' : Store num)
  (row : VoiceProfileRow num) :
  sql_upsert_voice_profile cols userId values s = Ok (row, s') ->
  voice_profiles s' !! userId = Some row
  /\ pg_varchar_100 cols (val_profile_name values) = Some (vp_profile_name row)
  /\ (forall d, pg_decimal_3_2 cols (value_of values d) = Some (vget (vp_vector row) d))
  /\ vp_is_active row
     = match voice_profiles s !! userId with
       | Some old => vp_is_active old
       | None => true
       end.
Proof.
  unfold sql_upsert_voice_profile.
  destruct (pg_varchar_100 cols _) as [name|]; [|discriminate].
  destruct (bind_vector cols values) as [v|] eqn:B; [|discriminate].
  intros [= <- <-]. cbn. split; [apply lookup_insert_eq|]. split; [reflexivity|].
  split; [|reflexivity]. now apply bind_vector_get.
Qed.

(** X11.  Upserting a refined profile cannot change the emotional tone and
    always renames the profile.  [parseVoiceRefinement] assigns what it reads
    to lower-cased keys, so the profile it returns has no property
    [emotionalTone] or [profileName] for [upsertVoiceProfile] to read:
    whenever [upsertVoiceProfile] stores what [parseVoiceRefinement] made of
    a reply — the two steps [triggerVoiceRefinement] chains — the user's row
    holds what the columns make of the name "Default Profile" and of an
    emotional tone of 0.5, whatever the reply was. *)
Theorem refinement_resets_name_and_tone (userId : nat) (lines : list (ReplyLine num))
  (w w' : World num) (row : VoiceProfileRow num) :
  upsertVoiceProfile cols userId (refined_object (parseVoiceRefinement lines)) w
  = (Ok row, w') ->
  voice_profiles (store w') !! userId = Some row
  /\ pg_varchar_100 cols (VStr "Default Profile") = Some (vp_profile_name row)
  /\ pg_decimal_3_2 cols (VNum (n_dec 5 1)) = Some (v_emotional_tone (vp_vector row)).
Proof.
  unfold upsertVoiceProfile, external.
  destruct (next_fault w); [discriminate|].
  destruct (sql_upsert_voice_profile cols userId _ (store w)) as [[row' s']|e] eqn:E;
    [|discriminate].
  intros [= <- <-]. apply sql_upsert_row in E as (E1 & E2 & E3 & _).
  destruct (refined_values lines) as [R1 R2]. rewrite R1 in E2.
  specialize (E3 emotional_tone). cbn [value_of vget] in E3. rewrite R2 in E3.
  cbn [store after_call]. now repeat split.
Qed.

End RefinementWrites.

(** X11 at a reply that proposes an emotional tone of 0.9, for a profile
    named "Summer campaign": the stored tone is 0.5 and the stored name
    "Default Profile". *)
Lemma refinement_resets_witness :
  exists row w',
    upsertVoiceProfile exact_columns 1
      (refined_object (parseVoiceRefinement (refinementReply steady_oracle [] [] campaign_profile)))
      (world_of campaign_store [])
    = (Ok row, w')
    /\ voice_profiles (store w') !! 1%nat = Some row
    /\ vp_profile_name row = "Default Profile"%string
    /\ (v_emotional_tone (vp_vector row) == 1 # 2)%Q.
Proof.
  eexists. eexists.
  assert (E : upsertVoiceProfile exact_columns 1
                (refined_object
                   (parseVoiceRefinement (refinementReply steady_oracle [] [] campaign_profile)))
                (world_of campaign_store [])
              = (fst (upsertVoiceProfile exact_columns 1
                        (refined_object
                           (parseVoiceRefinement
                              (refinementReply steady_oracle [] [] campaign_profile)))
                        (world_of campaign_store [])),
                 snd (upsertVoiceProfile exact_columns 1
                        (refined_object
                           (parseVoiceRefinement
                              (refinementReply steady_oracle [] [] campaign_profile)))
                        (world_of campaign_store [])))).
  { now destruct (upsertVoiceProfile _ _ _ _). }
  assert (F : fst (upsertVoiceProfile exact_columns 1
                     (refined_object
                        (parseVoiceRefinement
                           (refinementReply steady_oracle [] [] campaign_profile)))
                     (world_of campaign_store []))
              = Ok {| vp_user_id := 1; vp_profile_name := "Default Profile";
                      vp_vector :=
                        (vector (70 # 100) (40 # 100) (60 # 100) (50 # 100) (50 # 100)
                           (50 # 100) (50 # 100) (50 # 100))%Q;
                      vp_is_active := true |})
    by (vm_compute; reflexivity).
  rewrite F in E.
  destruct (refinement_resets_name_and_tone exact_columns 1 _ _ _ _ E) as (H1 & H2 & H3).
  split; [exact E|]. split; [exact H1|]. split; reflexivity.
Defined.

(** *** Clamping *)

Lemma Q_clamp_unit (x : Q) : (0 <= Q_max 0 (Q_min 1 x) <= 1)%Q.
Proof.
  unfold Q_max, Q_min.
  destruct (Qle_bool 1 x) eqn:A.
  - change (Qle_bool 0 1) with true. cbv iota. lra.
  - destruct (Qle_bool 0 x) eqn:B.
    + apply Qle_bool_iff in B. split; [exact B|].
      apply Qnot_lt_le. intros L. apply Qlt_le_weak, Qle_bool_iff in L. congruence.
    + lra.
Qed.

Lemma SFcompare_antisym (x y : spec_float) (c : comparison) :
  SFcompare x y = Some c -> SFcompare y x = Some (CompOpp c).
Proof.
  destruct x as [sx|sx| |sx mx ex], y as [sy|sy| |sy my ey]; cbn; try discriminate;
    intros [= <-]; try (destruct sx; reflexivity); try (destruct sy; reflexivity);
    try (destruct sx, sy; reflexivity).
  pose proof (Pos.compare_cont_antisym mx my Eq) as A. cbn [CompOpp] in A.
  destruct sx, sy; try reflexivity; rewrite (Z.compare_antisym ex ey);
    destruct (ex ?= ey)%Z; cbn; try reflexivity;
    rewrite <- A; destruct (Pos.compare_cont Eq mx my); reflexivity.
Qed.

Lemma f64_ltb_leb (x y : float) : (x <? y)%float = true -> (x <=? y)%float = true.
Proof.
  rewrite ltb_spec, leb_spec. unfold SFltb, SFleb.
  destruct (SFcompare (Prim2SF x) (Prim2SF y)) as [[]|]; congruence.
Qed.

(** Of two doubles that are not NaN, neither below the other, each is at
    most the other. *)
Lemma f64_not_ltb_leb (x y : float) :
  is_nan x = false -> is_nan y = false ->
  (x <? y)%float = false -> (y <? x)%float = false -> (x <=? y)%float = true.
Proof.
  unfold is_nan. rewrite !FloatAxioms.eqb_spec, !ltb_spec, leb_spec.
  unfold SFeqb, SFltb, SFleb. intros Hx Hy.
  destruct (SFcompare (Prim2SF x) (Prim2SF y)) as [c|] eqn:C.
  - rewrite (SFcompare_antisym _ _ _ C). destruct c; cbn; congruence.
  - exfalso. destruct (Prim2SF x) as [sx|sx| |sx mx ex], (Prim2SF y) as [sy|sy| |sy my ey];
      cbn in *; discriminate.
Qed.

(** [Math.max(0, Math.min(1, v))] on binary64 lies in [0,1] unless [v] is
    NaN. *)
Lemma f64_clamp_unit (v : float) :
  is_nan v = false -> in_unit_f64 (f64_max 0 (f64_min 1 v)).
Proof.
  intros Hv.
  assert (Hm : exists m, f64_min 1 v = m /\ is_nan m = false /\ (m <=? 1)%float = true).
  { unfold f64_min. change (is_nan 1) with false. rewrite Hv. cbn [orb].
    destruct (1 <? v)%float eqn:A; [exists 1%float; now repeat split|].
    exists v. split.
    - destruct (v <? 1)%float; [reflexivity|]. now change (get_sign 1) with false.
    - split; [exact Hv|]. destruct (v <? 1)%float eqn:B; [now apply f64_ltb_leb|].
      now apply f64_not_ltb_leb. }
  destruct Hm as (m & -> & Hn & Hle).
  unfold f64_max. change (is_nan 0) with false. rewrite Hn. cbn [orb].
  destruct (0 <? m)%float eqn:C.
  - split; [now apply f64_ltb_leb|exact Hle].
  - assert (E : (if (m <? 0)%float then 0%float else if get_sign 0 then m else 0%float)
                = 0%float).
    { destruct (m <? 0)%float; [reflexivity|]. now change (get_sign 0) with false. }
    rewrite E. split; reflexivity.
Qed.




(** X12.  [parseVoiceRefinement] clamps.  Every numeric property of the
    profile it builds lies in [0,1], whatever numbers the reply of the model
    holds: in exact arithmetic, and on binary64 ([parseFloat] results that
    pass the [isNaN] test are not NaN). *)
Theorem parseVoiceRefinement_clamps :
  (forall (lines : list (ReplyLine Q)) (k : string) (x : Q),
      rp_fields (parseVoiceRefinement lines) !! k = Some x -> (0 <= x <= 1)%Q)
  /\ (forall (lines : list (ReplyLine float)),
        (forall key v, FieldLine key (Some v) ∈ lines -> is_nan v = false) ->
        forall (k : string) (x : float),
          rp_fields (parseVoiceRefinement lines) !! k = Some x -> in_unit_f64 x).
Proof.
  split.
  - intros lines k x Hk.
    apply parseVoiceRefinement_fields in Hk as (key & v & _ & _ & _ & ->).
    apply Q_clamp_unit.
  - intros lines Hl k x Hk.
    apply parseVoiceRefinement_fields in Hk as (key & v & Hin & _ & _ & ->).
    apply f64_clamp_unit. now apply (Hl key).
Qed.




Section TrainingSessions.
Context {num : Type} `{JsNumber num} (cols : ColumnTypes num) (oracle : Oracle num).

(** The statement of [upsertVoiceProfile] touches voice_profiles only. *)
Lemma sql_upsert_frame (userId : nat) (values : VoiceProfileValues num) (s s' : Store num)
  (row : VoiceProfileRow num) :
  sql_upsert_voice_profile cols userId values s = Ok (row, s') ->
  content_analysis s' = content_analysis s
  /\ voice_feedback s' = voice_feedback s
  /\ voice_training_sessions s' = voice_training_sessions s
  /\ user_preferences s' = user_preferences s
  /\ saved_posts s' = saved_posts s
  /\ caption_history s' = caption_history s.
Proof.
  unfold sql_upsert_voice_profile.
  destruct (pg_varchar_100 cols _) as [name|]; [|discriminate].
  destruct (bind_vector cols values) as [v|]; [|discriminate].
  intros [= <- <-]. cbn. now repeat split.
Qed.

(** One run of [triggerVoiceRefinement], whatever the store holds and
    whatever fails. *)
Lemma refinement_run (userId : nat) (w : World num) r w' :
  triggerVoiceRefinement cols oracle userId w = (r, w') ->
  r = Ok tt
  /\ store w' = store w
  /\ exists o1 rest,
       new_calls w w' = (GetContentAnalysisHistory userId 20, o1) :: rest
       /\ (rest = []
           \/ (o1 = None /\ exists o2, rest = [(GetVoiceFeedbackHistory userId 10, o2)])
           \/ (o1 = None
               /\ exists o3,
                    rest = [ (GetVoiceFeedbackHistory userId 10, None);
                             (GetVoiceProfile userId, o3) ])).
Proof.
  unfold new_calls, triggerVoiceRefinement, try_catch, bind, getContentAnalysisHistory,
    getVoiceFeedbackHistory, getVoiceProfile.
  unfold external at 1.
  destruct (next_fault w) as [e1|] eqn:F1.
  { intros [= <- <-]. cbn. split; [reflexivity|]. split; [reflexivity|].
    rewrite drop_app_length. eexists. eexists. split; [reflexivity|]. now left. }
  unfold external at 1.
  match goal with
  | |- context [next_fault ?x] => destruct (next_fault x) as [e2|] eqn:F2
  end.
  { intros [= <- <-]. cbn. split; [reflexivity|]. split; [reflexivity|].
    rewrite <- app_assoc, drop_app_length. eexists. eexists. split; [reflexivity|].
    right; left. split; [reflexivity|]. eexists. reflexivity. }
  cbn [store calls faults console random30].
  set (hist := take 20 (List.filter _ (content_analysis (store w)))).
  destruct (length hist <? 5)%nat eqn:L.
  { intros [= <- <-]. cbn. split; [reflexivity|]. split; [reflexivity|].
    rewrite <- app_assoc, drop_app_length. eexists. eexists. split; [reflexivity|].
    right; left. split; [reflexivity|]. eexists. reflexivity. }
  unfold external at 1.
  match goal with
  | |- context [next_fault ?x] => destruct (next_fault x) as [e3|] eqn:F3
  end.
  { intros [= <- <-]. cbn. split; [reflexivity|]. split; [reflexivity|].
    rewrite <- !app_assoc, drop_app_length. eexists. eexists. split; [reflexivity|].
    right; right. split; [reflexivity|]. eexists. reflexivity. }
  assert (Hh : exists sample rest, hist = sample :: rest).
  { destruct hist as [|sample rest]; [discriminate L|]. now exists sample, rest. }
  destruct Hh as (sample & rest & ->).
  assert (Hno : forall w3 : World num,
             store w3 = store w ->
             (exists o3, drop (length (calls w)) (calls w3)
                         = [ (GetContentAnalysisHistory userId 20, None);
                             (GetVoiceFeedbackHistory userId 10, None);
                             (GetVoiceProfile userId, o3) ]) ->
             forall r' : Outcome unit,
               (r', w3) = (r, w') -> r' = Ok tt ->
               r = Ok tt
               /\ store w' = store w
               /\ exists o1 rest0,
                    drop (length (calls w)) (calls w')
                    = (GetContentAnalysisHistory userId 20, o1) :: rest0
                    /\ (rest0 = []
                        \/ (o1 = None
                            /\ exists o2, rest0 = [(GetVoiceFeedbackHistory userId 10, o2)])
                        \/ (o1 = None
                            /\ exists o3,
                                 rest0 = [ (GetVoiceFeedbackHistory userId 10, None);
                                           (GetVoiceProfile userId, o3) ]))).
  { intros w3 Hs (o3 & Hc) r' [= -> <-] ->. split; [reflexivity|]. split; [exact Hs|].
    rewrite Hc. eexists. eexists. split; [reflexivity|].
    right; right. split; [reflexivity|]. eexists. reflexivity. }
  match goal with
  | |- context [voice_profiles ?s !! userId] =>
      destruct (voice_profiles s !! userId) as [row|]; [destruct (vp_is_active row)|]
  end.
  - unfold console_log at 1. cbn [fst snd]. rewrite refineVoiceProfile_samples.
    unfold console_log. intros E. eapply Hno; [| |exact E|reflexivity].
    + reflexivity.
    + cbn. rewrite <- !app_assoc, drop_app_length. eexists. reflexivity.
  - unfold console_log. intros E. eapply Hno; [| |exact E|reflexivity].
    + reflexivity.
    + cbn. rewrite <- !app_assoc, drop_app_length. eexists. reflexivity.
  - unfold console_log. intros E. eapply Hno; [| |exact E|reflexivity].
    + reflexivity.
    + cbn. rewrite <- !app_assoc, drop_app_length. eexists. reflexivity.
Qed.

(** X14.  A refinement never writes.  The analyses [triggerVoiceRefinement]
    reads are rows of content_analysis, which the prompt builder of
    [refineVoiceProfile] cannot read; a refinement that has the five
    analyses it asks for therefore fails before the generative model is
    asked, and the failure is swallowed.  So, in every world,
    [triggerVoiceRefinement] completes normally and leaves the whole store
    as it was — no profile is upserted, no training session recorded — and
    the calls it makes are the read of the analyses, then the read of the
    feedback if that succeeded, then the read of the profile if that
    succeeded and there are at least 5 analyses: never a write, never a
    request to the generative model. *)
Theorem refinement_never_writes (userId : nat) (w : World num) :
  let run := triggerVoiceRefinement cols oracle userId w in
  fst run = Ok tt
  /\ store (snd run) = store w
  /\ (exists o1 rest,
        new_calls w (snd run) = (GetContentAnalysisHistory userId 20, o1) :: rest
        /\ (rest = []
            \/ (o1 = None /\ exists o2, rest = [(GetVoiceFeedbackHistory userId 10, o2)])
            \/ (o1 = None
                /\ exists o3,
                     rest = [ (GetVoiceFeedbackHistory userId 10, None);
                              (GetVoiceProfile userId, o3) ])))
  /\ Forall (fun c => is_write (fst c) = false /\ fst c <> GenerateContent)
       (new_calls w (snd run)).
Proof.
  cbv zeta. destruct (triggerVoiceRefinement cols oracle userId w) as [r w'] eqn:E.
  cbn [fst snd]. destruct (refinement_run userId w r w' E) as (Hr & Hs & o1 & rest & Hc & Hrest).
  split; [exact Hr|]. split; [exact Hs|]. split; [now exists o1, rest|].
  rewrite Hc.
  destruct Hrest as [-> | [(_ & o2 & ->) | (_ & o3 & ->)]];
    repeat (constructor; [split; [reflexivity|discriminate]|]); constructor.
Qed.

End TrainingSessions.

Section ProfileRoundTrip.
Context {num : Type} `{JsNumber num} (cols : ColumnTypes num) (oracle : Oracle num).

(** X15.  Writing and reading a voice profile.  The statement of
    [upsertVoiceProfile] does not set [is_active]: the row it returns is
    active when the user had no row or an active one, and stays inactive
    otherwise.  A [getVoiceProfile] that follows a successful upsert returns
    the upserted row in the first case, and no profile in the second —
    upserting never reactivates a profile. *)
Theorem upsert_then_get (userId : nat) (voiceData : gmap string (JsVal num))
  (w w' : World num) (row : VoiceProfileRow num) :
  upsertVoiceProfile cols userId voiceData w = (Ok row, w') ->
  next_fault w' = None ->
  vp_is_active row
  = match voice_profiles (store w) !! userId with
    | Some old => vp_is_active old
    | None => true
    end
  /\ fst (getVoiceProfile userId w') = Ok (if vp_is_active row then Some row else None).
Proof.
  unfold upsertVoiceProfile, external.
  destruct (next_fault w); [discriminate|].
  destruct (sql_upsert_voice_profile cols userId _ (store w)) as [[row' s']|e] eqn:E;
    [|discriminate].
  intros [= <- <-] Hf. apply sql_upsert_row in E as (E1 & _ & _ & E4).
  split; [exact E4|].
  unfold getVoiceProfile, external. rewrite Hf. cbn [fst store after_call].
  now rewrite E1.
Qed.

(** X16.  The answers of POST /voice-feedback.  Without a content type or a
    feedback type it answers 400 and touches nothing: no call is made and
    the world is as it was.  With both, it answers 500 when storing the
    feedback fails — the connection fails, or the columns reject a parameter:
    a content type of more than 50 characters, a feedback type of more than
    20, a content id that is no integer, an expected value that does not fit
    [DECIMAL(3,2)] — and then no refinement was attempted and nothing was
    written; otherwise it answers 200, whatever happens during refinement,
    and the feedback, as the columns read it, is the newest row of
    voice_feedback. *)
Theorem voice_feedback_answers (userId : nat) (body : FeedbackBody num) (w : World num) :
  let run := postVoiceFeedback cols oracle userId body w in
  let complete :=
    text_truthy (fb_contentType body) && text_truthy (fb_feedbackType body) in
  (complete = false -> run = (Ok {| status := 400; success := false |}, w))
  /\ (complete = true ->
      forall e, next_fault w = Some e ->
        fst run = Ok {| status := 500; success := false |}
        /\ store (snd run) = store w
        /\ new_calls w (snd run) = [(StoreVoiceFeedback userId, Some e)])
  /\ (complete = true -> next_fault w = None ->
      match bind_nullable (pg_integer cols) (fb_generatedContentId body),
            pg_varchar 50 (default ""%string (fb_contentType body)),
            pg_varchar 20 (default ""%string (fb_feedbackType body)),
            bind_expected cols body with
      | Some generated_content_id, Some content_type, Some feedback_type, Some expected =>
          fst run = Ok {| status := 200; success := true |}
          /\ voice_feedback (store (snd run))
             = {| vf_user_id := userId;
                  vf_generated_content_id := generated_content_id;
                  vf_content_type := content_type;
                  vf_feedback_type := feedback_type;
                  vf_feedback_comment :=
                    if text_truthy (fb_feedbackComment body)
                    then fb_feedbackComment body else None;
                  vf_expected := expected |} :: voice_feedback (store w)
      | _, _, _, _ =>
          fst run = Ok {| status := 500; success := false |}
          /\ store (snd run) = store w
          /\ new_calls w (snd run)
             = [(StoreVoiceFeedback userId,
                 Some "store: parameter rejected by voice_feedback"%string)]
      end).
Proof.
  cbv zeta. split; [|split].
  - unfold postVoiceFeedback, try_catch, ret.
    destruct (fb_contentType body) as [c|], (fb_feedbackType body) as [t|]; cbn;
      try reflexivity.
    intros E. now rewrite E.
  - intros E e Hf. apply andb_true_iff in E as [E1 E2].
    unfold postVoiceFeedback, try_catch.
    destruct (fb_contentType body) as [c|]; [|discriminate E1].
    destruct (fb_feedbackType body) as [t|]; [|discriminate E2].
    cbn in E1, E2. rewrite E1, E2. cbn [andb].
    unfold bind, storeVoiceFeedback, external, console_log, ret. rewrite Hf.
    cbn [fst snd store]. split; [reflexivity|]. split; [reflexivity|].
    unfold new_calls. cbn [calls after_call]. apply drop_app_length.
  - intros E Hf. apply andb_true_iff in E as [E1 E2].
    destruct (fb_contentType body) as [c|] eqn:Ec; [|discriminate E1].
    destruct (fb_feedbackType body) as [t|] eqn:Et; [|discriminate E2].
    cbn in E1, E2. cbn [default]. unfold id.
    assert (R : postVoiceFeedback cols oracle userId body w
                = try_catch
                    (let! feedback := storeVoiceFeedback cols userId c t body in
                     triggerVoiceRefinement cols oracle userId ;;;
                     ret {| status := 200; success := true |})
                    (fun error =>
                       console_log "Generate Route: Voice feedback error:" ;;;
                       ret {| status := 500; success := false |}) w).
    { unfold postVoiceFeedback, try_catch. rewrite Ec, Et, E1, E2. reflexivity. }
    rewrite R. clear R.
    unfold new_calls, try_catch, bind, storeVoiceFeedback, external. rewrite Hf.
    unfold sql_insert_voice_feedback.
    destruct (bind_nullable (pg_integer cols) (fb_generatedContentId body)) as [gid|].
    2:{ cbn. rewrite drop_app_length. now repeat split. }
    destruct (pg_varchar 50 c) as [ct|].
    2:{ cbn. rewrite drop_app_length. now repeat split. }
    destruct (pg_varchar 20 t) as [ft|].
    2:{ cbn. rewrite drop_app_length. now repeat split. }
    destruct (bind_expected cols body) as [expected|].
    2:{ cbn. rewrite drop_app_length. now repeat split. }
    match goal with
    | |- context [after_call w ?c None ?s] => set (w1 := after_call w c None s)
    end.
    destruct (triggerVoiceRefinement cols oracle userId w1) as [r1 w2] eqn:T.
    apply refinement_run in T as (-> & Ts & _).
    unfold ret. cbn [fst snd]. split; [reflexivity|]. rewrite Ts. reflexivity.
Qed.

End ProfileRoundTrip.

(** X15 at the first profile of a user, on exact numbers. *)
Lemma upsert_then_get_witness :
  exists row : VoiceProfileRow Q,
    vp_is_active row = true
    /\ fst (getVoiceProfile 1
              (snd (upsertVoiceProfile exact_columns 1
                      {[ "formality"%string := VNum (8 # 10)%Q ]}
                      (world_of empty_store []))))
       = Ok (if vp_is_active row then Some row else None).
Proof.
  eexists.
  refine (upsert_then_get exact_columns 1 {[ "formality"%string := VNum (8 # 10)%Q ]}
            (world_of empty_store []) _ _ _ _); vm_compute; reflexivity.
Defined.

(** ** Voice analysis *)

Section ParsedAnalysis.
Context {num : Type} `{JsNumber num}.

Lemma readings_cons (key : string) (value : option num)
  (lines : list (AnalysisLine (num := num))) (k : string) :
  readings ((key, value) :: lines) k
  = match value with
    | Some v =>
        if negb (String.eqb key "") && String.eqb (toLowerCase key) k
        then v :: readings lines k else readings lines k
    | None => readings lines k
    end.
Proof.
  destruct value as [v|]; [|reflexivity].
  unfold readings. cbn.
  now destruct (negb (String.eqb key "") && String.eqb (toLowerCase key) k).
Qed.

(** The lines of a reply are read in order: a later number for a key
    replaces an earlier one. *)
Lemma analysis_fold_lookup (lines : list (AnalysisLine (num := num)))
  (acc : gmap string num) (k : string) :
  k <> "__proto__"%string ->
  fold_left
    (fun (analysis : gmap string num) (line : AnalysisLine) =>
       match line with
       | (key, Some numValue) =>
           if negb (String.eqb key "")
           then object_assign analysis (toLowerCase key) numValue
           else analysis
       | (_, None) => analysis
       end)
    lines acc !! k
  = match last (readings lines k) with
    | Some v => Some v
    | None => acc !! k
    end.
Proof.
  intros Hk. revert acc.
  induction lines as [|[key [v|]] lines IH]; intros acc; cbn [fold_left]; [reflexivity| |].
  - rewrite IH, readings_cons.
    destruct (String.eqb key "") eqn:E; cbn [negb andb]; [reflexivity|].
    unfold object_assign.
    destruct (String.eqb (toLowerCase key) k) eqn:E2.
    + apply String.eqb_eq in E2. subst k. apply String.eqb_neq in Hk. rewrite Hk.
      rewrite last_cons. destruct (last (readings lines (toLowerCase key))); [reflexivity|].
      apply lookup_insert_eq.
    + apply String.eqb_neq in E2.
      destruct (last (readings lines k)); [reflexivity|].
      destruct (String.eqb (toLowerCase key) "__proto__"); [reflexivity|].
      now apply lookup_insert_ne.
  - rewrite IH, readings_cons. reflexivity.
Qed.

(** Filling in the required fields defines the fields that are missing and
    touches no other property. *)
Lemma required_fold_lookup (fields : list string) (analysis : gmap string num) (k : string) :
  fold_left
    (fun (analysis : gmap string num) field =>
       match analysis !! field with
       | None => <[field := n_dec 5 1]> analysis
       | Some _ => analysis
       end)
    fields analysis !! k
  = match analysis !! k with
    | Some v => Some v
    | None => if bool_decide (k ∈ fields) then Some (n_dec 5 1) else None
    end.
Proof.
  revert analysis. induction fields as [|f fields IH]; intros analysis; cbn [fold_left].
  - destruct (analysis !! k); [reflexivity|]. rewrite bool_decide_eq_false_2; [reflexivity|].
    apply not_elem_of_nil.
  - rewrite IH. destruct (decide (k = f)) as [->|Hne].
    + rewrite (bool_decide_eq_true_2 (f ∈ f :: fields)) by (now left).
      destruct (analysis !! f) as [v|] eqn:E; [now rewrite E|].
      now rewrite lookup_insert_eq.
    + assert (Hm : bool_decide (k ∈ f :: fields) = bool_decide (k ∈ fields)).
      { apply bool_decide_ext. rewrite elem_of_cons. tauto. }
      rewrite Hm.
      destruct (analysis !! f); [reflexivity|]. now rewrite lookup_insert_ne.
Qed.

Lemma parseVoiceAnalysis_lookup (lines : list (AnalysisLine (num := num))) (k : string) :
  k <> "__proto__"%string ->
  parseVoiceAnalysis lines !! k
  = match last (readings lines k) with
    | Some v => Some v
    | None => if bool_decide (k ∈ REQUIRED_FIELDS) then Some (n_dec 5 1) else None
    end.
Proof.
  intros Hk. unfold parseVoiceAnalysis. rewrite required_fold_lookup.
  rewrite (analysis_fold_lookup lines ∅ k Hk), lookup_empty.
  now destruct (last (readings lines k)).
Qed.

Lemma required_not_proto (field : string) :
  field ∈ REQUIRED_FIELDS -> field <> "__proto__"%string.
Proof.
  intros Hf ->. revert Hf. apply (bool_decide_unpack (_ ∉ _)). vm_compute. exact I.
Qed.

Lemma dimension_required (d : Dimension) : dimension_name d ∈ REQUIRED_FIELDS.
Proof. destruct d; apply (bool_decide_unpack (_ ∈ _)); vm_compute; exact I. Qed.

Lemma parseVoiceAnalysis_dimension (lines : list (AnalysisLine (num := num))) (d : Dimension) :
  parseVoiceAnalysis lines !! dimension_name d
  = Some (default (n_dec 5 1) (last (readings lines (dimension_name d)))).
Proof.
  rewrite parseVoiceAnalysis_lookup by apply required_not_proto, dimension_required.
  rewrite bool_decide_eq_true_2 by apply dimension_required.
  now destruct (last _).
Qed.

(** No line is read under a key with a capital letter. *)
Lemma readings_camel (lines : list (AnalysisLine (num := num))) :
  readings lines "emotionalTone" = [].
Proof.
  induction lines as [|[key [v|]] lines IH]; [reflexivity| |];
    rewrite readings_cons; [|exact IH].
  destruct (String.eqb (toLowerCase key) "emotionalTone") eqn:E.
  - apply String.eqb_eq in E. now apply toLowerCase_not_camel in E.
  - rewrite andb_false_r. exact IH.
Qed.

(** X17.  What [parseVoiceAnalysis] returns.  Each of the nine required
    fields is defined: it is the number of the last line of the reply whose
    key, lower-cased, is the field — as it was read, without any clamping —
    and 0.5 when there is no such line; so a reply without one readable line
    gives 0.5 nine times.  Any other property is the last number read for
    it, if one was. *)
Theorem parseVoiceAnalysis_fields (lines : list (AnalysisLine (num := num))) :
  (forall field, field ∈ REQUIRED_FIELDS ->
     parseVoiceAnalysis lines !! field
     = Some (default (n_dec 5 1) (last (readings lines field))))
  /\ (forall key, key ∉ REQUIRED_FIELDS -> key <> "__proto__"%string ->
        parseVoiceAnalysis lines !! key = last (readings lines key))
  /\ (forall field, field ∈ REQUIRED_FIELDS ->
        parseVoiceAnalysis [] !! field = Some (n_dec 5 1)).
Proof.
  split; [|split].
  - intros field Hf. rewrite parseVoiceAnalysis_lookup by now apply required_not_proto.
    rewrite bool_decide_eq_true_2 by exact Hf. now destruct (last _).
  - intros key Hk Hp. rewrite parseVoiceAnalysis_lookup by exact Hp.
    rewrite bool_decide_eq_false_2 by exact Hk. now destruct (last _).
  - intros field Hf. rewrite parseVoiceAnalysis_lookup by now apply required_not_proto.
    cbn [readings omap last]. now rewrite bool_decide_eq_true_2 by exact Hf.
Qed.

(** X18.  What POST /analyze-voice stores of an analysis.  The parsed
    analysis names the emotional tone [emotional_tone], and
    [storeContentAnalysis] reads [emotionalTone]: the column
    [analyzed_emotional_tone] is bound to NULL, whatever the model replied.
    The seven other dimensions are bound to the parsed numbers, and the
    column [analysis_confidence] repeats the dimension [confidence] (0 when
    that is falsy): the field [confidence_score] of the reply is not
    stored. *)
Theorem stored_analysis_values (lines : list (AnalysisLine (num := num))) :
  let analysis := parseVoiceAnalysis lines in
  let values := storeContentAnalysis_values analysis in
  analysis !! "emotional_tone" <> None
  /\ analyzed_value values emotional_tone = None
  /\ (forall d, d <> emotional_tone ->
        analyzed_value values d
        = Some (default (n_dec 5 1) (last (readings lines (dimension_name d)))))
  /\ exists c,
       analyzed_value values confidence = Some c
       /\ cv_analysis_confidence values = if n_truthy c then c else n_ofZ 0.
Proof.
  cbv zeta. split; [|split; [|split]].
  - pose proof (parseVoiceAnalysis_dimension lines emotional_tone) as E.
    cbn [dimension_name] in E. now rewrite E.
  - cbn [analyzed_value storeContentAnalysis_values cv_emotional_tone].
    rewrite parseVoiceAnalysis_lookup by discriminate.
    rewrite readings_camel. cbn [last]. rewrite bool_decide_eq_false_2; [reflexivity|].
    apply (bool_decide_unpack (_ ∉ _)). vm_compute. exact I.
  - intros d Hd. rewrite <- parseVoiceAnalysis_dimension.
    destruct d; try reflexivity. now contradict Hd.
  - pose proof (parseVoiceAnalysis_dimension lines confidence) as E.
    cbn [dimension_name] in E.
    exists (default (n_dec 5 1) (last (readings lines "confidence"))).
    cbn [analyzed_value storeContentAnalysis_values cv_confidence cv_analysis_confidence].
    now rewrite E.
Qed.

End ParsedAnalysis.

Section ConsistencyRoute.
Context {num : Type} `{JsNumber num} (oracle : Oracle num).
Variable analysisReply : jsstring -> string -> string -> list (AnalysisLine (num := num)).

(** The analysis of a content only consults the generative model. *)
Lemma analyzeContentVoice_run (contentText : jsstring) (contentType language : string)
  (w : World num) :
  let run := analyzeContentVoice oracle analysisReply contentText contentType language w in
  store (snd run) = store w
  /\ (textModel oracle = false ->
      calls (snd run) = calls w /\ exists e, fst run = Throw e)
  /\ (textModel oracle = true ->
      match next_fault w with
      | Some e =>
          calls (snd run) = calls w ++ [(GenerateContent, Some e)]
          /\ exists e', fst run = Throw e'
      | None =>
          calls (snd run) = calls w ++ [(GenerateContent, None)]
          /\ fst run
             = Ok (parseVoiceAnalysis (analysisReply contentText contentType language))
      end).
Proof.
  cbv zeta. unfold analyzeContentVoice.
  destruct (textModel oracle); cbn [negb].
  - unfold try_catch, bind, external, console_log, throw, ret.
    destruct (next_fault w) as [e|]; cbn [fst snd store calls after_call].
    + split; [reflexivity|]. split; [discriminate|]. intros _. split; [reflexivity|eauto].
    + split; [reflexivity|]. split; [discriminate|]. intros _. now split.
  - unfold throw. cbn [fst snd]. split; [reflexivity|]. split; [|discriminate].
    intros _. split; [reflexivity|eauto].
Qed.

(** X19.  The answers of POST /validate-consistency.  The route never
    writes.  Without a content text it answers 400 and makes no call.
    Otherwise it reads the user's profile: it answers 500 when that read
    fails, and 404 when the user has no active profile — in both cases the
    generative model is not consulted.  With an active profile it answers
    500 when the model is not initialised or fails, and otherwise 200 with
    the score and the recommendations computed from the stored profile and
    the parsed reply. *)
Theorem validate_consistency_answers (userId : nat) (body : ConsistencyBody)
  (w : World num) :
  let run := postValidateConsistency oracle analysisReply userId body w in
  let complete := caption_truthy (vc_contentText body) in
  let profile :=
    match voice_profiles (store w) !! userId with
    | Some row => if vp_is_active row then Some row else None
    | None => None
    end in
  let w1 := after_call w (GetVoiceProfile userId) None (store w) in
  let failed := Ok {| vc_status := 500; vc_consistency := None |} in
  store (snd run) = store w
  /\ (complete = false ->
      run = (Ok {| vc_status := 400; vc_consistency := None |}, w))
  /\ (complete = true -> forall e, next_fault w = Some e ->
      fst run = failed /\ new_calls w (snd run) = [(GetVoiceProfile userId, Some e)])
  /\ (complete = true -> next_fault w = None -> profile = None ->
      fst run = Ok {| vc_status := 404; vc_consistency := None |}
      /\ new_calls w (snd run) = [(GetVoiceProfile userId, None)])
  /\ (complete = true -> next_fault w = None -> profile <> None ->
      textModel oracle = false ->
      fst run = failed /\ new_calls w (snd run) = [(GetVoiceProfile userId, None)])
  /\ (complete = true -> next_fault w = None -> textModel oracle = true ->
      forall row e, profile = Some row -> next_fault w1 = Some e ->
      fst run = failed
      /\ new_calls w (snd run) = [(GetVoiceProfile userId, None); (GenerateContent, Some e)])
  /\ (complete = true -> next_fault w = None -> textModel oracle = true ->
      forall row contentText,
        profile = Some row -> next_fault w1 = None ->
        vc_contentText body = Some contentText ->
        let contentAnalysis :=
          parseVoiceAnalysis
            (analysisReply contentText (default "caption"%string (vc_contentType body))
               (default "English"%string (vc_language body))) in
        fst run
        = Ok {| vc_status := 200;
                vc_consistency :=
                  Some {| rep_score :=
                            calculateConsistencyScore (vp_vector row)
                              (analysis_vector contentAnalysis);
                          rep_profile := row;
                          rep_contentAnalysis := contentAnalysis;
                          rep_recommendations :=
                            generateConsistencyRecommendations (vp_vector row)
                              (analysis_vector contentAnalysis) |} |}
        /\ new_calls w (snd run) = [(GetVoiceProfile userId, None); (GenerateContent, None)]).
Proof.
  cbv zeta. unfold postValidateConsistency, try_catch.
  destruct (vc_contentText body) as [contentText|]; cbn [caption_truthy].
  2:{ unfold ret. cbn [fst snd]. repeat split; intros; discriminate. }
  destruct (str_truthy contentText).
  2:{ unfold ret. cbn [fst snd]. repeat split; intros; discriminate. }
  unfold bind, getVoiceProfile, external.
  destruct (next_fault w) as [e|].
  { unfold console_log, ret. cbn [fst snd store after_call].
    repeat split; intros; try discriminate.
    match goal with E : Some _ = Some _ |- _ => injection E as <- end.
    unfold new_calls. cbn [calls]. apply drop_app_length. }
  set (profile := match voice_profiles (store w) !! userId with
                  | Some row => if vp_is_active row then Some row else None
                  | None => None
                  end).
  set (w1 := after_call w (GetVoiceProfile userId) None (store w)).
  destruct profile as [row|].
  2:{ unfold ret. cbn [fst snd]. subst w1. cbn [store after_call].
      repeat split; intros; try discriminate; try congruence.
      apply new_calls_one. }
  set (contentType := default "caption"%string (vc_contentType body)).
  set (language := default "English"%string (vc_language body)).
  pose proof (analyzeContentVoice_run contentText contentType language w1) as (As & Af & At).
  destruct (analyzeContentVoice oracle analysisReply contentText contentType language w1)
    as [r w2] eqn:A.
  cbn [fst snd] in As, Af, At.
  assert (Hc : forall tail, calls w2 = calls w1 ++ tail ->
                 new_calls w w2 = (GetVoiceProfile userId, None) :: tail).
  { intros tail E. unfold new_calls. rewrite E. subst w1. cbn [calls after_call].
    rewrite <- app_assoc. apply drop_app_length. }
  assert (Hs : store w2 = store w) by (rewrite As; reflexivity).
  destruct (textModel oracle).
  - specialize (At eq_refl). destruct (next_fault w1) as [e|].
    + destruct At as [Ec [e' ->]]. unfold console_log, ret. cbn [fst snd store].
      repeat split; intros; try discriminate; try congruence.
      match goal with E : Some _ = Some _ |- _ => injection E as <- end.
      unfold new_calls. cbn [calls]. now apply Hc.
    + destruct At as [Ec ->]. unfold ret. cbn [fst snd].
      repeat split; intros; try discriminate; try congruence; now apply Hc.
  - destruct (Af eq_refl) as [Ec [e' ->]]. unfold console_log, ret. cbn [fst snd store].
    repeat split; intros; try discriminate; try congruence.
    unfold new_calls. cbn [calls]. apply (Hc []). now rewrite app_nil_r.
Qed.

End ConsistencyRoute.

(** ** Parsers of replies *)

Lemma elem_of_rev (x : N) (l : jsstring) : x ∈ rev l <-> x ∈ l.
Proof. rewrite !list_elem_of_In. symmetry. apply in_rev. Qed.

(** No piece of a split holds the separator. *)
Lemma split_from_pieces (separator : N) (s piece : jsstring) :
  separator ∉ piece ->
  Forall (fun p => separator ∉ p) (split_from separator piece s).
Proof.
  revert piece. induction s as [|c s IH]; intros piece Hp; cbn [split_from].
  - constructor; [|constructor]. now rewrite elem_of_rev.
  - destruct (c =? separator)%N eqn:E.
    + constructor; [now rewrite elem_of_rev|]. apply IH, not_elem_of_nil.
    + apply IH. rewrite elem_of_cons. intros [->|Hin]; [|now apply Hp].
      now rewrite N.eqb_refl in E.
Qed.

Lemma js_split_pieces (separator : N) (s : jsstring) :
  Forall (fun p => separator ∉ p) (js_split separator s).
Proof. apply split_from_pieces, not_elem_of_nil. Qed.

(** Trimming only removes code units. *)
Lemma trimStart_elem (x : N) (s : jsstring) : x ∈ trimStart s -> x ∈ s.
Proof.
  induction s as [|c s IH]; cbn [trimStart]; [tauto|].
  destruct (is_ws c); [|tauto]. intros Hx. right. now apply IH.
Qed.

Lemma trim_elem (x : N) (s : jsstring) : x ∈ trim s -> x ∈ s.
Proof.
  unfold trim, trimEnd. rewrite elem_of_rev. intros Hx.
  apply trimStart_elem in Hx. rewrite elem_of_rev in Hx.
  now apply trimStart_elem.
Qed.

Lemma skip_digits_elem (x : N) (s : jsstring) : x ∈ skip_digits s -> x ∈ s.
Proof.
  induction s as [|c s IH]; cbn [skip_digits]; [tauto|].
  destruct (is_digit c); [|tauto]. intros Hx. right. now apply IH.
Qed.

Lemma take_line_elem (x : N) (s : jsstring) : x ∈ take_line s -> x ∈ s.
Proof.
  induction s as [|c s IH]; cbn [take_line]; [tauto|].
  destruct (is_line_terminator c); [intros Hx; now apply elem_of_nil in Hx|].
  rewrite !elem_of_cons. intros [->|Hx]; [now left|right; now apply IH].
Qed.

(** A string that starts with a code unit that is not blank is not trimmed
    away. *)
Lemma trimStart_keeps (s : jsstring) (c : N) :
  c ∈ s -> is_ws c = false -> trimStart s <> [].
Proof.
  induction s as [|a s IH]; intros Hc E; [now apply elem_of_nil in Hc|].
  cbn [trimStart]. destruct (is_ws a) eqn:Ea; [|discriminate].
  apply elem_of_cons in Hc as [->|Hc]; [congruence|]. now apply IH.
Qed.

Lemma trim_keeps (c : N) (t : jsstring) : is_ws c = false -> trim (c :: t) <> [].
Proof.
  intros E. unfold trim, trimEnd. rewrite (trimStart_fixed c t E).
  intros Hr. apply (f_equal (@rev N)) in Hr. rewrite rev_involutive in Hr. cbn [rev] in Hr.
  revert Hr. apply (trimStart_keeps _ c); [|exact E].
  apply elem_of_app. right. now left.
Qed.

(** X20.  What [parseOptimalTimes] returns, whatever the reply: between one
    and three entries, each of the form of two digits, a colon and two
    digits.  When a piece of the reply between commas is of that form once
    trimmed, every entry is such a piece: no default is mixed in.  When none
    is, the entries are the three defaults. *)
Theorem parseOptimalTimes_shape (responseText : jsstring) :
  let times := parseOptimalTimes responseText in
  let pieces := map trim (js_split 44 responseText) in
  (1 <= length times <= 3)%nat
  /\ Forall (fun time => is_time time = true /\ length time = 5%nat) times
  /\ ((exists piece, piece ∈ pieces /\ is_time piece = true) ->
      Forall (fun time => time ∈ pieces) times)
  /\ ((forall piece, piece ∈ pieces -> is_time piece = false) ->
      times = [js "09:00"; js "13:00"; js "19:00"]).
Proof.
  cbv zeta. unfold parseOptimalTimes.
  set (pieces := map trim (js_split 44 responseText)).
  assert (Hlen : forall t : jsstring, is_time t = true -> length t = 5%nat).
  { intros t. unfold is_time.
    destruct t as [|a [|b [|c [|d [|e [|f t]]]]]]; try discriminate. reflexivity. }
  destruct (List.filter is_time pieces) as [|t times] eqn:F; cbn [length Nat.eqb].
  - split; [lia|]. split.
    + repeat constructor.
    + split; [|reflexivity].
      intros (piece & Hin & Ht). exfalso.
      assert (Hf : In piece (List.filter is_time pieces)).
      { apply filter_In. split; [now apply list_elem_of_In|exact Ht]. }
      now rewrite F in Hf.
  - rewrite slice0_take by lia. change (Z.to_nat 3) with 3%nat.
    assert (Hall : forall x, x ∈ take 3 (t :: times) -> x ∈ pieces /\ is_time x = true).
    { intros x Hx. apply elem_of_take in Hx as (i & Hx & _).
      apply list_elem_of_lookup_2, list_elem_of_In in Hx. rewrite <- F in Hx.
      apply filter_In in Hx as [Hx Ht]. split; [now apply list_elem_of_In|exact Ht]. }
    split; [rewrite length_take; cbn [length]; lia|].
    split; [|split].
    + apply Forall_forall. intros x Hx. apply Hall in Hx as [_ Ht]. auto.
    + intros _. apply Forall_forall. intros x Hx. now apply Hall in Hx.
    + intros Hnone. exfalso.
      assert (Hf : In t (List.filter is_time pieces)) by (rewrite F; now left).
      apply filter_In in Hf as [Hin Ht]. apply list_elem_of_In in Hin.
      rewrite (Hnone t Hin) in Ht. discriminate.
Qed.

(** The items collected from a numbered list. *)
Lemma numbered_items_fold (lines : list jsstring) (acc : list jsstring) :
  Forall (fun line => 10%N ∉ line) lines ->
  Forall (fun e => e <> [] /\ trim e = e /\ 10%N ∉ e) acc ->
  Forall (fun e => e <> [] /\ trim e = e /\ 10%N ∉ e)
    (fold_left
       (fun ctas line =>
          let trimmedLine := trim line in
          match numbered_item trimmedLine with
          | Some item => if str_truthy item then ctas ++ [trim item] else ctas
          | None => ctas
          end)
       lines acc).
Proof.
  revert acc. induction lines as [|line lines IH]; intros acc Hl Ha; cbn [fold_left];
    [exact Ha|].
  apply Forall_cons in Hl as [Hline Hl]. apply IH; [exact Hl|]. cbv zeta.
  destruct (numbered_item (trim line)) as [item|] eqn:E; [|exact Ha].
  destruct item as [|c item]; cbn [str_truthy]; [exact Ha|].
  apply Forall_app. split; [exact Ha|]. constructor; [|constructor].
  unfold numbered_item in E.
  destruct (trim line) as [|d rest] eqn:T; [discriminate|].
  destruct (is_digit d); [|discriminate].
  destruct (skip_digits (d :: rest)) as [|dot after] eqn:S; [discriminate|].
  destruct (dot =? 46)%N; [|discriminate]. injection E as E.
  assert (Hc : is_ws c = false).
  { destruct (trimStart_head after) as [E0|(c0 & t0 & E0 & Hw)]; rewrite E0 in E.
    - discriminate E.
    - cbn [take_line] in E. destruct (is_line_terminator c0); [discriminate|].
      now injection E as <- _. }
  split; [now apply trim_keeps|]. split; [apply trim_idem|].
  intros Hin. apply Hline. apply trim_elem in Hin. rewrite <- E in Hin.
  apply take_line_elem, trimStart_elem in Hin.
  apply trim_elem. rewrite T. apply skip_digits_elem. rewrite S. now right.
Qed.

(** X21.  What [parseCTAResponse] and [parseRewrittenCaptions] return,
    whatever the reply: no entry is empty, every entry is trimmed and holds
    no line feed; and the result is empty exactly when every line of the
    reply is blank.  Both functions return the same list. *)
Theorem parseCTAResponse_entries (responseText : jsstring) :
  Forall (fun e => e <> [] /\ trim e = e /\ 10%N ∉ e) (parseCTAResponse responseText)
  /\ (parseCTAResponse responseText = []
      <-> Forall (fun line => trim line = []) (js_split 10 responseText))
  /\ parseRewrittenCaptions responseText = parseCTAResponse responseText.
Proof.
  split; [|split; [|reflexivity]].
  - unfold parseCTAResponse.
    pose proof (numbered_items_fold (js_split 10 responseText) []
                  (js_split_pieces 10 responseText) (Forall_nil_2 _)) as Hf.
    cbv zeta in Hf |- *.
    destruct (fold_left _ (js_split 10 responseText) []) as [|e ctas]; cbn [length Nat.eqb];
      [|exact Hf].
    apply Forall_forall. intros e He. apply list_elem_of_In, filter_In in He as [He Hn].
    apply in_map_iff in He as (line & <- & Hin).
    split; [intros E; rewrite E in Hn; discriminate|]. split; [apply trim_idem|].
    intros H10. apply trim_elem in H10.
    pose proof (js_split_pieces 10 responseText) as Hp. rewrite Forall_forall in Hp.
    now apply (Hp line); [apply list_elem_of_In|].
  - unfold parseCTAResponse. cbv zeta.
    set (lines := js_split 10 responseText).
    set (ctas := fold_left _ lines []).
    split.
    + intros E. destruct ctas as [|e ctas'] eqn:C; cbn [length Nat.eqb] in E; [|discriminate].
      apply Forall_forall. intros line Hin.
      destruct (trim line) as [|c t] eqn:T; [reflexivity|]. exfalso.
      assert (Hf : In (trim line)
                     (List.filter (fun line => (0 <? length line)%nat) (map trim lines))).
      { apply filter_In. split; [apply in_map; now apply list_elem_of_In|].
        now rewrite T. }
      now rewrite E in Hf.
    + intros Hb.
      assert (G : forall (l acc : list jsstring),
                 Forall (fun line => trim line = []) l ->
                 fold_left
                   (fun ctas line =>
                      match numbered_item (trim line) with
                      | Some item => if str_truthy item then ctas ++ [trim item] else ctas
                      | None => ctas
                      end) l acc = acc).
      { induction l as [|line l IH]; intros acc Hl; [reflexivity|].
        apply Forall_cons in Hl as [Hline Hl]. cbn [fold_left].
        rewrite Hline. cbn [numbered_item]. now apply IH. }
      subst ctas. rewrite (G lines [] Hb). cbn [length Nat.eqb].
      clearbody lines. induction lines as [|line lines IH]; [reflexivity|].
      apply Forall_cons in Hb as [Hline Hb]. cbn [map List.filter].
      rewrite Hline. cbn [length Nat.ltb Nat.leb]. now apply IH.
Qed.

(** ** Symmetry of the consistency measures *)

Section SymmetricDifference.
Context {num : Type} `{JsNumber num}.
Hypothesis difference_sym : forall a b : num, n_abs (n_sub a b) = n_abs (n_sub b a).

Lemma total_score_sym (P A : VoiceVector num) (ds : list Dimension) (acc : num) :
  fold_left
    (fun totalScore dimension =>
       let profileValue := vget P dimension in
       let contentValue := vget A dimension in
       let difference := n_abs (n_sub profileValue contentValue) in
       let dimensionScore := n_max (n_ofZ 0) (n_sub (n_ofZ 1) difference) in
       n_add totalScore dimensionScore) ds acc
  = fold_left
      (fun totalScore dimension =>
         let profileValue := vget A dimension in
         let contentValue := vget P dimension in
         let difference := n_abs (n_sub profileValue contentValue) in
         let dimensionScore := n_max (n_ofZ 0) (n_sub (n_ofZ 1) difference) in
         n_add totalScore dimensionScore) ds acc.
Proof.
  revert acc. induction ds as [|d ds IH]; intros acc; cbn [fold_left]; [reflexivity|].
  cbv zeta. rewrite (difference_sym (vget P d) (vget A d)). apply IH.
Qed.

Lemma score_sym (P A : VoiceVector num) :
  calculateConsistencyScore P A = calculateConsistencyScore A P.
Proof.
  unfold calculateConsistencyScore. cbv zeta.
  now rewrite (total_score_sym P A).
Qed.

Lemma flagged_sym (P A : VoiceVector num) :
  map (fun r => (dimension r, difference r)) (generateConsistencyRecommendations P A)
  = map (fun r => (dimension r, difference r)) (generateConsistencyRecommendations A P).
Proof.
  rewrite !generateConsistencyRecommendations_spec. unfold spec_recommend.
  assert (Hd : forall d, spec_delta A P d = spec_delta P A d).
  { intros d. apply difference_sym. }
  induction all_dimensions as [|d ds IH]; [reflexivity|].
  cbn [List.filter]. rewrite (Hd d).
  destruct (n_gt (spec_delta P A d) (n_dec 3 1)); [|exact IH].
  cbn [map]. rewrite IH. f_equal.
  unfold spec_entry. cbn [dimension difference]. now rewrite (Hd d).
Qed.

End SymmetricDifference.

Lemma Q_difference_sym (a b : Q) : Qabs (a - b) = Qabs (b - a).
Proof.
  destruct a as [an ad], b as [bn bd]. unfold Qminus, Qplus, Qopp, Qabs. cbn [Qnum Qden].
  f_equal; [lia|apply Pos.mul_comm].
Qed.

Lemma binary_round_abs (s : bool) (m : positive) (e : Z) :
  SFabs (binary_round prec emax s m e) = SFabs (binary_round prec emax false m e).
Proof.
  unfold binary_round. destruct (shl_align m e _) as [mz ez].
  unfold binary_round_aux. destruct (shr_fexp prec emax (Z.pos mz) ez loc_Exact) as [mrs' e'].
  destruct (shr_fexp prec emax _ e' loc_Exact) as [mrs'' e''].
  destruct (shr_m mrs''); [reflexivity| |reflexivity].
  now destruct (e'' <=? emax - prec)%Z.
Qed.

Lemma binary_normalize_abs_opp (z e : Z) :
  SFabs (binary_normalize prec emax (- z) e false)
  = SFabs (binary_normalize prec emax z e false).
Proof.
  destruct z as [|p|p]; cbn [Z.opp binary_normalize]; [reflexivity| |].
  - apply binary_round_abs.
  - symmetry. apply binary_round_abs.
Qed.

Lemma SFsub_abs_sym (x y : spec_float) :
  SFabs (SFsub prec emax x y) = SFabs (SFsub prec emax y x).
Proof.
  destruct x as [sx|sx| |sx mx ex], y as [sy|sy| |sy my ey]; cbn [SFsub SFabs];
    try reflexivity; try (destruct sx, sy; reflexivity).
  cbv zeta. rewrite (Z.min_comm ey ex).
  rewrite <- binary_normalize_abs_opp. f_equal. f_equal. lia.
Qed.

Lemma f64_difference_sym (a b : float) : abs (a - b) = abs (b - a).
Proof.
  apply Prim2SF_inj. rewrite !abs_spec, !sub_spec. apply SFsub_abs_sym.
Qed.

(** X22.  The consistency measures are symmetric, on binary64 (for all
    doubles, NaN and the infinities included) and in exact arithmetic:
    exchanging the profile and the analysed content changes neither the
    score nor the dimensions that get a recommendation and the percentages
    reported for them (only the direction of the suggestions can
    change). *)
Theorem consistency_symmetric :
  (forall P A : VoiceVector float,
     calculateConsistencyScore P A = calculateConsistencyScore A P
     /\ map (fun r => (dimension r, difference r)) (generateConsistencyRecommendations P A)
        = map (fun r => (dimension r, difference r)) (generateConsistencyRecommendations A P))
  /\ (forall P A : VoiceVector Q,
        calculateConsistencyScore P A = calculateConsistencyScore A P
        /\ map (fun r => (dimension r, difference r)) (generateConsistencyRecommendations P A)
           = map (fun r => (dimension r, difference r))
               (generateConsistencyRecommendations A P)).
Proof.
  split; intros P A; split.
  - apply score_sym. exact f64_difference_sym.
  - apply flagged_sym. exact f64_difference_sym.
  - apply score_sym. exact Q_difference_sym.
  - apply flagged_sym. exact Q_difference_sym.
Qed.

(** ** The legacy parsers of a generated caption *)

Lemma hashtag_words_ok (s : jsstring) (tag : option jsstring) :
  match tag with
  | Some t => Forall (fun c => is_word c = true) t
  | None => True
  end ->
  Forall hashtag_ok (hashtag_words s tag).
Proof.
  revert tag. induction s as [|c s IH]; intros tag Ht.
  - cbn [hashtag_words]. destruct tag as [[|a t]|]; try constructor; [|constructor].
    split; [|].
    + intros E. apply (f_equal (@length N)) in E. rewrite length_rev in E. discriminate E.
    + apply Forall_forall. intros x Hx. apply list_elem_of_In, in_rev, list_elem_of_In in Hx.
      rewrite Forall_forall in Ht. now apply Ht.
  - cbn [hashtag_words]. destruct tag as [t|].
    + destruct (is_word c) eqn:W.
      * apply IH. now constructor.
      * apply Forall_app. split.
        -- destruct t as [|a t]; constructor; [|constructor]. split.
           ++ intros E. apply (f_equal (@length N)) in E. rewrite length_rev in E.
              discriminate E.
           ++ apply Forall_forall. intros x Hx.
              apply list_elem_of_In, in_rev, list_elem_of_In in Hx.
              rewrite Forall_forall in Ht. now apply Ht.
        -- apply IH. destruct (c =? 35)%N; [constructor|exact I].
    + apply IH. destruct (c =? 35)%N; [constructor|exact I].
Qed.

Lemma default_hashtags_ok : Forall hashtag_ok DEFAULT_HASHTAGS.
Proof.
  unfold DEFAULT_HASHTAGS. repeat (apply Forall_cons; split);
    try apply Forall_nil; try exact I;
    (split; [discriminate|]);
    apply Forall_forall; intros c Hc; apply list_elem_of_In in Hc;
    cbn in Hc; repeat (destruct Hc as [<-|Hc]; [reflexivity|]); destruct Hc.
Qed.

(** The first ten entries of a list that is not empty. *)
Lemma first_ten {P : jsstring -> Prop} (l : list jsstring) :
  l <> [] -> Forall P l ->
  (1 <= length (slice0 l 10) <= 10)%nat /\ Forall P (slice0 l 10).
Proof.
  intros Hn Hl. rewrite slice0_take by lia. change (Z.to_nat 10) with 10%nat.
  split; [|now apply Forall_take].
  rewrite length_take. destruct l; [congruence|cbn [length]; lia].
Qed.

Section LegacyParserShapes.
Variable lowerCase : jsstring -> jsstring.

Lemma fallbackParse_shape (response : jsstring) :
  pr_caption (fallbackParse lowerCase response) <> []
  /\ (1 <= length (pr_hashtags (fallbackParse lowerCase response)) <= 10)%nat
  /\ Forall hashtag_ok (pr_hashtags (fallbackParse lowerCase response)).
Proof.
  unfold fallbackParse. cbv zeta. cbn [pr_caption pr_hashtags].
  set (step := fun (st : FallbackState) (line : jsstring) => _).
  assert (G : forall lines st, Forall hashtag_ok (fs_hashtags st) ->
                Forall hashtag_ok (fs_hashtags (fold_left step lines st))).
  { induction lines as [|line lines IH]; intros st Hst; [exact Hst|].
    cbn [fold_left]. apply IH. unfold step.
    destruct (starts_with (js "#") (trim line)).
    - cbn [fs_hashtags]. apply Forall_app. split; [exact Hst|].
      now apply hashtag_words_ok.
    - match goal with |- context [if ?b then _ else _] => destruct b end; exact Hst. }
  set (lines := List.filter _ _).
  specialize (G lines {| fs_caption := []; fs_hashtags := []; fs_foundHashtags := false |}
                (Forall_nil_2 _)).
  destruct (fold_left step lines _) as [caption hashtags found].
  cbn [fs_caption fs_hashtags] in *.
  split.
  - destruct caption; cbn [str_truthy]; discriminate.
  - destruct hashtags as [|tag hashtags]; cbn [length Nat.eqb].
    + apply first_ten; [discriminate|apply default_hashtags_ok].
    + apply first_ten; [discriminate|exact G].
Qed.

(** X23.  What the legacy parsers of a generated caption return, whatever
    the reply of the model (empty text included): a caption that is not
    empty and between one and ten hashtags, none of them empty.
    [parseResponse] falls back to [fallbackParse] rather than return less,
    and the hashtags of [fallbackParse] are made of letters, digits and
    underscores only. *)
Theorem legacy_parsers_shape (response : jsstring) :
  (pr_caption (parseResponse lowerCase response) <> []
   /\ (1 <= length (pr_hashtags (parseResponse lowerCase response)) <= 10)%nat
   /\ Forall (fun tag => tag <> []) (pr_hashtags (parseResponse lowerCase response)))
  /\ (pr_caption (fallbackParse lowerCase response) <> []
      /\ (1 <= length (pr_hashtags (fallbackParse lowerCase response)) <= 10)%nat
      /\ Forall hashtag_ok (pr_hashtags (fallbackParse lowerCase response))).
Proof.
  split; [|apply fallbackParse_shape].
  unfold parseResponse. cbv zeta.
  set (step := fun (st : jsstring * list jsstring) (line : jsstring) => _).
  assert (G : forall lines st, Forall (fun tag : jsstring => tag <> []) (snd st) ->
                Forall (fun tag : jsstring => tag <> []) (snd (fold_left step lines st))).
  { induction lines as [|line lines IH]; intros st Hst; [exact Hst|].
    cbn [fold_left]. apply IH. unfold step.
    destruct (starts_with (js "CAPTION:") line); [exact Hst|].
    destruct (starts_with (js "HASHTAGS:") line); [|exact Hst].
    cbv zeta. match goal with |- context [str_truthy ?g] => destruct (str_truthy g) end;
      [|exact Hst].
    cbn [snd]. apply Forall_forall. intros tag Htag.
    apply list_elem_of_In, filter_In in Htag as [_ Hlen].
    intros ->. discriminate Hlen. }
  set (lines := List.filter _ _).
  specialize (G lines ([], []) (Forall_nil_2 _)).
  destruct (fold_left step lines _) as [caption hashtags]. cbn [fst snd] in *.
  destruct caption as [|c caption]; cbn [str_truthy negb orb].
  { destruct (fallbackParse_shape response) as (Hc & Hl & Hh).
    split; [exact Hc|]. split; [exact Hl|].
    eapply Forall_impl; [exact Hh|]. now intros tag [Hne _]. }
  destruct hashtags as [|tag hashtags]; cbn [length Nat.eqb].
  { destruct (fallbackParse_shape response) as (Hc & Hl & Hh).
    split; [exact Hc|]. split; [exact Hl|].
    eapply Forall_impl; [exact Hh|]. now intros t [Hne _]. }
  cbn [pr_caption pr_hashtags]. split; [discriminate|].
  apply first_ten; [discriminate|exact G].
Qed.

End LegacyParserShapes.

(** ** Detected languages *)

Lemma table_get_In (table : list (string * string)) (k v : string) :
  table_get table k = Some v -> In (k, v) table.
Proof.
  induction table as [|[k' v'] table IH]; cbn [table_get]; [discriminate|].
  destruct (String.eqb k' k) eqn:E.
  - apply String.eqb_eq in E. intros [= <-]. subst. now left.
  - intros Hg. right. now apply IH.
Qed.

(** X24.  A detection always names a known language.  Whenever
    [detectLanguageFromCaption] returns a detection, the caption has at
    least three code units once cleaned, [raw] is the code the identifier
    gave for the cleaned caption and is one of the fourteen codes of
    [FRANC_TO_ISO], [isoCode] is the code that table gives for it, and the
    label is the name [LANGUAGE_LABELS] gives for that code — never the
    code itself. *)
Theorem detection_is_known (identifier : LanguageIdentifier) (text : option jsstring)
  (d : Detection) :
  detectLanguageFromCaption identifier text = Some d ->
  In (raw d, isoCode d) FRANC_TO_ISO
  /\ In (isoCode d, label d) LANGUAGE_LABELS
  /\ label d <> isoCode d
  /\ exists caption,
       text = Some caption
       /\ (3 <= length (sanitizeText identifier caption))%nat
       /\ raw d = franc identifier (sanitizeText identifier caption).
Proof.
  unfold detectLanguageFromCaption.
  destruct text as [caption|]; [|discriminate].
  destruct (str_truthy caption); cbn [negb]; [|discriminate].
  destruct (length (sanitizeText identifier caption) <? 3)%nat eqn:L; [discriminate|].
  apply Nat.ltb_ge in L.
  destruct (mapFrancToIso (franc identifier (sanitizeText identifier caption)))
    as [iso|] eqn:M; [|discriminate].
  destruct (String.eqb iso ""); [discriminate|]. intros [= <-]. cbn [raw isoCode label].
  unfold mapFrancToIso in M.
  destruct (_ || _); [discriminate|]. apply table_get_In in M.
  assert (K : In (iso, text_or (table_get LANGUAGE_LABELS iso) iso) LANGUAGE_LABELS
              /\ text_or (table_get LANGUAGE_LABELS iso) iso <> iso).
  { revert M. generalize (franc identifier (sanitizeText identifier caption)).
    intros code Hin. unfold FRANC_TO_ISO in Hin. cbn [In] in Hin.
    repeat (destruct Hin as [Hin|Hin];
            [injection Hin as _ <-; split; [cbn; tauto|discriminate]|]).
    destruct Hin. }
  destruct K as [K1 K2]. split; [exact M|]. split; [exact K1|]. split; [exact K2|].
  exists caption. now repeat split.
Qed.

(** X24 at a caption the identifier takes for English. *)
Lemma detection_is_known_witness :
  In ("eng", "en")%string FRANC_TO_ISO /\ In ("en", "English")%string LANGUAGE_LABELS.
Proof.
  destruct (detection_is_known english_identifier (Some (js "good morning"))
              {| isoCode := "en"; label := "English"; raw := "eng" |} eq_refl)
    as (H1 & H2 & _).
  split; [exact H1|exact H2].
Defined.

(** ** The two routes that save a voice profile *)

Section SaveProfileRoutes.
Context {num : Type} `{JsNumber num} (cols : ColumnTypes num).

(** A default given when the body is destructured changes nothing for
    [value || default]. *)
Lemma js_or_default (v : option (JsVal num)) (d : JsVal num) :
  js_or (Some (match v with Some x => x | None => d end)) d = js_or v d.
Proof.
  destruct v as [x|]; [reflexivity|]. unfold js_or. now destruct (truthy (Some d)).
Qed.

(** X25.  POST /create-voice-profile and PUT /voice-profiles/:id do the
    same with the same body: the defaults the first gives to the properties
    the body lacks are the ones [upsertVoiceProfile] gives them anyway.  The
    two routes send the same statement, leave the same store and answer
    alike — so an update is no partial update: what the body leaves out is
    reset. *)
Theorem create_and_update_agree (userId : nat) (body : gmap string (JsVal num))
  (w : World num) :
  let created := postCreateVoiceProfile cols userId body w in
  let updated := putVoiceProfile cols userId body w in
  fst created = fst updated
  /\ store (snd created) = store (snd updated)
  /\ calls (snd created) = calls (snd updated)
  /\ faults (snd created) = faults (snd updated).
Proof.
  cbv zeta. unfold postCreateVoiceProfile, putVoiceProfile. cbv zeta.
  match goal with
  | |- context [upsertVoiceProfile cols userId ?data] =>
      assert (E : upsertVoiceProfile_values data = upsertVoiceProfile_values body)
  end.
  { unfold upsertVoiceProfile_values.
    f_equal; simplify_map_eq; apply js_or_default. }
  unfold upsertVoiceProfile at 1 3 5 7. cbv zeta. rewrite E.
  fold (upsertVoiceProfile cols userId body).
  unfold try_catch, bind, console_log, ret.
  destruct (upsertVoiceProfile cols userId body w) as [[row|e] w']; cbn [fst snd store calls faults];
    now repeat split.
Qed.

End SaveProfileRoutes.

(** ** Operations of one user leave the other users alone *)

Section Isolation.
Context {num : Type} `{JsNumber num}.

Lemma others_kept_refl (uid : nat) (s : Store num) : others_kept uid s s.
Proof. unfold others_kept. now repeat split. Qed.

Lemma others_kept_trans (uid : nat) (s1 s2 s3 : Store num) :
  others_kept uid s1 s2 -> others_kept uid s2 s3 -> others_kept uid s1 s3.
Proof.
  intros (A1 & A2 & A3 & A4 & A5 & A6 & A7) (B1 & B2 & B3 & B4 & B5 & B6 & B7).
  unfold others_kept. repeat split; try congruence.
  - intros other Ho. now rewrite B1, A1.
  - intros other Ho. now rewrite B2, A2.
Qed.

Lemma confined_refl (uid : nat) (w : World num) : confined uid w w.
Proof.
  split; [|apply others_kept_refl]. exists []. split; [now rewrite app_nil_r|constructor].
Qed.

Lemma confined_trans (uid : nat) (w1 w2 w3 : World num) :
  confined uid w1 w2 -> confined uid w2 w3 -> confined uid w1 w3.
Proof.
  intros [(l1 & C1 & F1) K1] [(l2 & C2 & F2) K2]. split.
  - exists (l1 ++ l2). split; [now rewrite C2, C1, app_assoc|now apply Forall_app].
  - now apply (others_kept_trans uid _ (store w2)).
Qed.

Lemma ret_confined {A} (uid : nat) (a : A) : op_confined (num := num) uid (ret a).
Proof. intros w. apply confined_refl. Qed.

Lemma throw_confined {A} (uid : nat) (e : string) :
  op_confined (num := num) (A := A) uid (throw e).
Proof. intros w. apply confined_refl. Qed.

Lemma console_confined (uid : nat) (line : string) :
  op_confined (num := num) uid (console_log line).
Proof.
  intros w. split; [|apply others_kept_refl].
  exists []. split; [cbn; now rewrite app_nil_r|constructor].
Qed.

Lemma random_confined (uid : nat) : op_confined (num := num) uid math_random30.
Proof.
  intros w. split; [|apply others_kept_refl].
  exists []. split; [cbn; now rewrite app_nil_r|constructor].
Qed.

Lemma bind_confined {A B} (uid : nat) (m : M num A) (k : A -> M num B) :
  op_confined uid m -> (forall a, op_confined uid (k a)) -> op_confined uid (bind m k).
Proof.
  intros Hm Hk w. unfold bind. specialize (Hm w).
  destruct (m w) as [[a|e] w1]; cbn [snd] in *; [|exact Hm].
  eapply confined_trans; [exact Hm|apply Hk].
Qed.

Lemma try_catch_confined {A} (uid : nat) (body : M num A) (handler : string -> M num A) :
  op_confined uid body -> (forall e, op_confined uid (handler e)) ->
  op_confined uid (try_catch body handler).
Proof.
  intros Hb Hh w. unfold try_catch. specialize (Hb w).
  destruct (body w) as [[a|e] w1]; cbn [snd] in *; [exact Hb|].
  eapply confined_trans; [exact Hb|apply Hh].
Qed.

Lemma external_confined {A} (uid : nat) (c : Call)
  (effect : Store num -> Outcome (A * Store num)) :
  call_user c = Some uid \/ call_user c = None ->
  (forall s a s', effect s = Ok (a, s') -> others_kept uid s s') ->
  op_confined uid (external c effect).
Proof.
  intros Hc He w. unfold external.
  assert (G : forall o s', others_kept uid (store w) s' ->
                confined uid w (after_call w c o s')).
  { intros o s' Hk. split; [|exact Hk]. exists [(c, o)]. split; [reflexivity|].
    constructor; [exact Hc|constructor]. }
  destruct (next_fault w); cbn [snd]; [apply G, others_kept_refl|].
  destruct (effect (store w)) as [[a s']|e] eqn:E; cbn [snd].
  - apply G. now apply (He _ a).
  - apply G, others_kept_refl.
Qed.

(** A row added for the user is no row of another user. *)
Lemma filter_own {R} (user : R -> nat) (uid : nat) (row : R) (rows : list R) :
  user row = uid ->
  List.filter (fun r => negb (Nat.eqb (user r) uid)) (row :: rows)
  = List.filter (fun r => negb (Nat.eqb (user r) uid)) rows.
Proof. intros E. cbn [List.filter]. now rewrite E, Nat.eqb_refl. Qed.

End Isolation.

(** Splits an operation written in the monad into its calls. *)
Ltac confine :=
  repeat match goal with
         | |- op_confined _ (ret _) => apply ret_confined
         | |- op_confined _ (throw _) => apply throw_confined
         | |- op_confined _ (console_log _) => apply console_confined
         | |- op_confined _ math_random30 => apply random_confined
         | |- op_confined _ (bind _ _) => apply bind_confined; [|intros ?]
         | |- op_confined _ (try_catch _ _) => apply try_catch_confined; [|intros ?]
         | |- op_confined _ (if ?b then _ else _) => destruct b
         | |- op_confined _ (match ?x with Some _ => _ | None => _ end) => destruct x
         | |- op_confined _ (match ?x with [] => _ | _ :: _ => _ end) => destruct x
         | |- op_confined _ (let (_, _) := ?x in _) => destruct x
         end.

(** Closes the case of a call whose effect on the store is written out: a
    read, or a row written for the user. *)
Ltac confined_call :=
  apply external_confined; [cbn; auto|];
  let E := fresh "E" in
  intros ? ? ? E; injection E as _ <-;
  first
    [ apply others_kept_refl
    | unfold others_kept; cbn; repeat split; try reflexivity;
      try (intros; now rewrite lookup_insert_ne);
      try (now rewrite Nat.eqb_refl) ].

Section IsolatedOperations.
Context {num : Type} `{JsNumber num} (cols : ColumnTypes num) (oracle : Oracle num)
  (detectors : MemoryDetectors num) (identifier : LanguageIdentifier).
Variable analysisReply : jsstring -> string -> string -> list (AnalysisLine (num := num)).

Lemma getVoiceProfile_confined (uid : nat) : op_confined uid (getVoiceProfile (num := num) uid).
Proof. unfold getVoiceProfile. confined_call. Qed.

Lemma upsertVoiceProfile_confined (uid : nat) (voiceData : gmap string (JsVal num)) :
  op_confined uid (upsertVoiceProfile cols uid voiceData).
Proof.
  unfold upsertVoiceProfile. apply external_confined; [cbn; auto|].
  intros s row s' E.
  unfold sql_upsert_voice_profile in E.
  destruct (pg_varchar_100 cols _); [|discriminate].
  destruct (bind_vector cols _); [|discriminate]. injection E as _ <-.
  unfold others_kept. cbn. repeat split; try reflexivity.
  intros other Ho. now rewrite lookup_insert_ne.
Qed.

Lemma triggerVoiceRefinement_confined (uid : nat) :
  op_confined uid (triggerVoiceRefinement cols oracle uid).
Proof.
  unfold triggerVoiceRefinement, getContentAnalysisHistory, getVoiceFeedbackHistory,
    refineVoiceProfile, buildVoiceRefinementPrompt, recordTrainingSession.
  confine; try apply getVoiceProfile_confined; try apply upsertVoiceProfile_confined;
    confined_call.
Qed.

Lemma storeVoiceFeedback_confined (uid : nat) (contentType feedbackType : string)
  (body : FeedbackBody num) :
  op_confined uid (storeVoiceFeedback cols uid contentType feedbackType body).
Proof.
  unfold storeVoiceFeedback. apply external_confined; [cbn; auto|].
  intros s row s' E. unfold sql_insert_voice_feedback in E.
  destruct (bind_nullable _ _); [|discriminate].
  destruct (pg_varchar 50 _); [|discriminate].
  destruct (pg_varchar 20 _); [|discriminate].
  destruct (bind_expected cols _); [|discriminate]. injection E as _ <-.
  unfold others_kept. cbn. repeat split; try reflexivity.
  now rewrite Nat.eqb_refl.
Qed.

Lemma upsertUserPreferences_confined (uid : nat) (nextPrefs : Preferences num) :
  op_confined uid
    (external (UpsertUserPreferences uid) (sql_upsert_user_preferences uid nextPrefs)).
Proof.
  apply external_confined; [cbn; auto|].
  intros s row s' E.
  apply sql_upsert_user_preferences_ok in E as (? & ? & ? & ? & _ & _ & _ & _ & _ & ->).
  unfold others_kept. cbn. repeat split; try reflexivity.
  intros other Ho. now rewrite lookup_insert_ne.
Qed.

Lemma updatePreferences_confined (uid : nat) (u : PreferenceUpdates num) :
  op_confined uid (updatePreferences (Some uid) u).
Proof.
  unfold updatePreferences, getPreferences. destruct uid as [|uid]; cbn [uid_truthy];
    confine; try apply upsertUserPreferences_confined; confined_call.
Qed.

Lemma learnFromCaption_confined (uid : nat) (caption : option jsstring)
  (context : LearnContext) :
  op_confined uid (learnFromCaption detectors (Some uid) caption context).
Proof.
  unfold learnFromCaption, getPreferences. destruct uid as [|uid]; cbn [uid_truthy];
    confine; confined_call.
Qed.

Lemma distribution_confined (uid : nat) (limit : nat) :
  op_confined uid (detectLanguageDistributionForUser (num := num) identifier (Some uid) limit).
Proof.
  unfold detectLanguageDistributionForUser, getSavedPosts. destruct uid as [|uid]; confine;
    confined_call.
Qed.

(** X27.  The operations of a user leave the other users alone.  Whatever
    the store holds, whatever fails and whatever the model replies, each of
    these operations only makes calls bound to the user it runs for (or the
    request to the model), and keeps every row of every other user in all
    seven tables: the routes POST /voice-feedback (refinement included),
    POST /create-voice-profile, PUT /voice-profiles/:id and
    POST /validate-consistency, the memory update and the history entry of
    POST /, and [recommendLanguage]. *)
Theorem operations_confined (uid : nat) :
  (forall body, op_confined uid (postVoiceFeedback cols oracle uid body))
  /\ (forall body, op_confined uid (postCreateVoiceProfile cols uid body))
  /\ (forall updates, op_confined uid (putVoiceProfile cols uid updates))
  /\ (forall body, op_confined uid (postValidateConsistency oracle analysisReply uid body))
  /\ (forall caption language preferences,
        op_confined uid (memoryBlock detectors uid caption language preferences))
  /\ (forall caption, op_confined uid (historyBlock (num := num) uid caption))
  /\ (forall request, req_userId request = Some uid ->
        op_confined uid (recommendLanguage (num := num) identifier request)).
Proof.
  split; [|split; [|split; [|split; [|split; [|split]]]]].
  - intros body. unfold postVoiceFeedback.
    confine; try apply triggerVoiceRefinement_confined; apply storeVoiceFeedback_confined.
  - intros body. unfold postCreateVoiceProfile. confine. apply upsertVoiceProfile_confined.
  - intros updates. unfold putVoiceProfile. confine. apply upsertVoiceProfile_confined.
  - intros body. unfold postValidateConsistency, analyzeContentVoice.
    confine; try apply getVoiceProfile_confined; confined_call.
  - intros caption language preferences. unfold memoryBlock.
    confine; try apply learnFromCaption_confined; apply updatePreferences_confined.
  - intros caption. unfold historyBlock, saveEntry. confine. confined_call.
  - intros request Hu. unfold recommendLanguage. rewrite Hu.
    confine; apply distribution_confined.
Qed.

End IsolatedOperations.
